(** * SCI-90 scoring engine: a shallow embedding of the result calculator

    The development follows the JavaScript source function by function:
    [calculateResult], [determineRiskLevel], [getFactorInterpretation] and
    [parseResultFromURL].  Objects whose enumeration order matters are
    association lists in insertion order, the answer array is a list of
    optional integers (a hole, [undefined] and [null] all behave alike in the
    code: they are falsy and compare [false] against [1]), and the numbers the
    code divides are kept as exact reduced fractions extended with the three
    non-finite values a division by a zero length can produce.
    [generateShareLink] and the HTTP worker over the table [users] follow,
    the worker as state passing over the rows of the table. *)

From Stdlib Require Import ZArith QArith List String Bool Lia Permutation.
Import ListNotations.
Open Scope string_scope.
Open Scope Z_scope.

(** ** Numbers

    Sums of answers stay integers, so they are [Z].  Quotients are finite
    fractions in lowest terms ([Qred]), so that equal numbers are equal terms;
    [x / 0] gives [NaN], [PosInf] or [NegInf] as in JavaScript.  For the
    magnitudes of this program (sums below 2^53, divisors of at most a few
    dozen) comparisons of doubles and of exact fractions agree. *)

Inductive number : Type :=
| Fin (q : Q)
| PosInf
| NegInf
| NaN.

Definition num_of_Z (z : Z) : number := Fin (inject_Z z).

(** [s / n] for an integer [s] and a length [n]. *)
Definition num_div (s n : Z) : number :=
  if n =? 0 then
    if s =? 0 then NaN else if 0 <? s then PosInf else NegInf
  else if 0 <? n then Fin (Qred (s # Z.to_pos n))
  else Fin (Qred ((- s) # Z.to_pos (- n))).

(** [x >= y] *)
Definition num_geb (x y : number) : bool :=
  match x, y with
  | NaN, _ | _, NaN => false
  | PosInf, _ => true
  | _, NegInf => true
  | Fin a, Fin b => Qle_bool b a
  | _, _ => false
  end.

(** [x > y] *)
Definition num_gtb (x y : number) : bool :=
  match x, y with
  | NaN, _ | _, NaN => false
  | PosInf, PosInf => false
  | PosInf, _ => true
  | NegInf, _ => false
  | Fin _, NegInf => true
  | Fin _, PosInf => false
  | Fin a, Fin b => negb (Qle_bool a b)
  end.

(** ** Arrays of answers and objects *)

(** An entry is [Some z] for the integer [z] and [None] for an absent one. *)
Definition answer : Type := option Z.
Definition array : Type := list answer.

(** [a[i]]: [undefined] outside the array, also for a negative index. *)
Definition array_get (a : array) (i : Z) : answer :=
  if i <? 0 then None
  else match nth_error a (Z.to_nat i) with
       | Some x => x
       | None => None
       end.

(** [v || 0] *)
Definition orZero (v : answer) : Z :=
  match v with
  | Some z => z
  | None => 0
  end.

(** [v > 1] *)
Definition gt1 (v : answer) : bool :=
  match v with
  | Some z => 1 <? z
  | None => false
  end.

(** An object with string keys, as [Object.entries] lists it. *)
Definition object (V : Type) : Type := list (string * V).

(** [o[k] = v]: an existing key keeps its place, a new one goes last.
    (The name [__proto__], which an assignment treats apart, is dealt with
    in [Program.assign].) *)
Fixpoint obj_set {V : Type} (o : object V) (k : string) (v : V) : object V :=
  match o with
  | [] => [(k, v)]
  | (k', v') :: o' =>
      if String.eqb k' k then (k', v) :: o' else (k', v') :: obj_set o' k v
  end.

(** Own-property lookup. *)
Fixpoint obj_get {V : Type} (o : object V) (k : string) : option V :=
  match o with
  | [] => None
  | (k', v') :: o' => if String.eqb k' k then Some v' else obj_get o' k
  end.

(** ** Result records *)

Record FactorResult : Type := {
  score : Z;
  average : number;
  itemCount : Z
}.

Record RiskLevel : Type := {
  level : string;
  color : string;
  description : string;
  advice : string;
  mainIssue : option string;   (* [None] is [null] *)
  recommendProfessional : bool
}.

Record ResultRecord : Type := {
  totalScore : Z;
  totalAverage : number;
  positiveItems : nat;
  factors : object FactorResult;
  riskLevel : RiskLevel;
  timestamp : string
}.

(** [Object.entries(factorIndices)]: factor name and item ids, in the order
    of enumeration (for names that are not array indices, the order of
    declaration), the names distinct. *)
Definition FactorIndexMap : Type := object (list Z).

(** ** determineRiskLevel *)

(** The three variables the loop of [determineRiskLevel] updates. *)
Record Scan : Type := {
  maxFactorScore : number;
  maxFactorName : string;
  highFactorCount : Z
}.

Definition scan_init : Scan :=
  {| maxFactorScore := num_of_Z 0; maxFactorName := ""; highFactorCount := 0 |}.

(** One iteration of the loop over [Object.entries(factors)]. *)
Definition scan_step (st : Scan) (entry : string * FactorResult) : Scan :=
  let '(factorName, data) := entry in
  if num_geb (average data) (num_of_Z 3) then
    if num_gtb (average data) (maxFactorScore st) then
      {| maxFactorScore := average data;
         maxFactorName := factorName;
         highFactorCount := highFactorCount st + 1 |}
    else
      {| maxFactorScore := maxFactorScore st;
         maxFactorName := maxFactorName st;
         highFactorCount := highFactorCount st + 1 |}
  else st.

Definition scan_factors (fs : object FactorResult) : Scan :=
  fold_left scan_step fs scan_init.

Definition determineRiskLevel (total : Z) (fs : object FactorResult) : RiskLevel :=
  let st := scan_factors fs in
  if (250 <=? total) || (3 <=? highFactorCount st) then
    {| level := "重度";
       color := "#e74c3c";
       description := "您的心理困扰程度较为严重";
       advice := "建议您尽快寻求专业心理医生的帮助，进行专业的心理咨询或治疗。您的心理状态需要专业的关注和支持。";
       mainIssue := Some (maxFactorName st);
       recommendProfessional := true |}
  else if (200 <=? total) || (2 <=? highFactorCount st) then
    {| level := "中度";
       color := "#e67e22";
       description := "您存在一定的心理困扰";
       advice := "您的心理状态需要关注。建议您寻求专业心理咨询师的帮助，了解如何更好地调整自己的心理状态。";
       mainIssue := Some (maxFactorName st);
       recommendProfessional := true |}
  else if (160 <=? total) || (1 <=? highFactorCount st) then
    {| level := "轻度";
       color := "#f39c12";
       description := "您存在轻微的心理困扰";
       advice := "您的心理状态总体尚可，但有些方面需要关注。建议您适当进行自我调节，保持良好的作息习惯，多进行运动和放松。如感觉困扰持续，可考虑寻求专业帮助。";
       mainIssue := Some (maxFactorName st);
       recommendProfessional := false |}
  else
    {| level := "无明显";
       color := "#27ae60";
       description := "您的心理状态良好";
       advice := "您的心理状态总体良好。继续保持健康的生活方式，适当进行自我关怀，关注心理健康。";
       mainIssue := None;
       recommendProfessional := false |}.

(** ** calculateResult *)

(** The body of the loop over the factors: the record stored under a name. *)
Definition factorResult (answers : array) (indices : list Z) : FactorResult :=
  let factorScores := map (fun index => orZero (array_get answers (index - 1))) indices in
  let factorSum := fold_left (fun sum score => sum + score) factorScores 0 in
  {| score := factorSum;
     average := num_div factorSum (Z.of_nat (List.length indices));
     itemCount := Z.of_nat (List.length indices) |}.

Definition build_factors (factorIndices : FactorIndexMap) (answers : array)
  : object FactorResult :=
  fold_left
    (fun fs (entry : string * list Z) =>
       let '(factorName, indices) := entry in
       obj_set fs factorName (factorResult answers indices))
    factorIndices [].

(** The entry of [factors] that an entry of the table gives. *)
Definition factor_entry (answers : array) (entry : string * list Z)
  : string * FactorResult :=
  (fst entry, factorResult answers (snd entry)).

(** [factorIndices] is the imported table and [now] the string that
    [new Date().toISOString()] returns at the call. *)
Definition calculateResult (factorIndices : FactorIndexMap) (now : string)
  (answers : array) : ResultRecord :=
  let total := fold_left (fun sum a => sum + orZero a) answers 0 in
  let fs := build_factors factorIndices answers in
  {| totalScore := total;
     totalAverage := num_div total 90;
     positiveItems := List.length (filter gt1 answers);
     factors := fs;
     riskLevel := determineRiskLevel total fs;
     timestamp := now |}.

(** ** getFactorInterpretation *)

Record Interpretation : Type := {
  i_description : string;
  i_highScore : string;
  i_suggestions : list string
}.

(** The own properties of the object literal [interpretations]. *)
Definition interpretations : object Interpretation :=
  [
   ("躯体化",
    {| i_description := "反映主观的身体不适感，包括心血管、胃肠道、呼吸系统等方面的不适。";
       i_highScore := "可能存在较多的身体不适主诉，如头痛、胃痛、胸闷等，这些症状可能和心理压力有关。";
       i_suggestions := ["尝试放松训练，如深呼吸、冥想"; "保持规律的运动"; "如症状持续，建议进行身体检查以排除器质性疾病"] |});
   ("强迫症状",
    {| i_description := "主要指那些明知没有必要，但又无法摆脱的无意义的思想、冲动和行为。";
       i_highScore := "可能存在强迫思维或行为，如反复检查、反复思考某些问题等。";
       i_suggestions := ["认识并接受自己的强迫倾向"; "练习延迟强迫行为"; "通过转移注意力来减少强迫症状"; "严重时建议寻求专业认知行为治疗"] |});
   ("人际关系敏感",
    {| i_description := "指在人际交往中的不自在感和自卑感，特别是在与他人比较时更为突出。";
       i_highScore := "可能在人际交往中感到不自信，过于在意他人的评价，容易产生人际紧张。";
       i_suggestions := ["培养自我接纳和自我肯定"; "学习有效的沟通技巧"; "从小范围开始练习人际交往"; "认识到他人也会感到紧张"] |});
   ("抑郁",
    {| i_description := "反映情绪低落、悲观失望、生活兴趣减退等症状。";
       i_highScore := "可能存在情绪低落、兴趣减退、无望感等抑郁症状，需要特别关注。";
       i_suggestions := ["保持规律的作息和运动"; "尝试做一些曾经喜欢的事情"; "与信任的人倾诉"; "如症状持续超过两周，强烈建议寻求专业帮助"] |});
   ("焦虑",
    {| i_description := "指烦躁、坐立不安、神经过敏以及由此产生的躯体征象。";
       i_highScore := "可能存在明显的焦虑症状，如紧张不安、心慌、担心等。";
       i_suggestions := ["学习放松技巧，如渐进式肌肉放松"; "练习正念冥想"; "识别并挑战焦虑的想法"; "避免过多摄入咖啡因"] |});
   ("敌对",
    {| i_description := "主要从思维、情感及行为三方面来反映患者的敌对表现。";
       i_highScore := "可能容易产生敌对情绪，表现为易怒、发脾气、甚至有攻击倾向。";
       i_suggestions := ["学会识别愤怒的早期信号"; "学习健康的情绪表达方式"; "通过运动释放紧张情绪"; "练习深呼吸等冷静技巧"] |});
   ("恐怖",
    {| i_description := "反映对某些场景、物体或人际交往的恐惧和回避。";
       i_highScore := "可能对某些特定场景或物体存在明显的恐惧和回避行为。";
       i_suggestions := ["逐步暴露于恐惧情境（系统脱敏）"; "学习放松技巧以应对恐惧"; "记录并分析恐惧的想法"; "严重时建议寻求专业治疗"] |});
   ("偏执",
    {| i_description := "主要指投射性思维、敌对、猜疑、妄想、被动体验和夸大等。";
       i_highScore := "可能存在多疑、不信任他人、感觉自己被针对等思维模式。";
       i_suggestions := ["尝试检验自己的猜疑是否有证据"; "学会换位思考"; "培养对他人基本的信任"; "与信任的朋友讨论自己的想法"] |});
   ("精神病性",
    {| i_description := "反映各种急性症状和行为，即限定不严的精神病性过程的症状表现。";
       i_highScore := "可能存在一些特殊的思维体验或感知觉异常，需要专业评估。";
       i_suggestions := ["保持规律的作息"; "避免使用精神活性物质"; "减少压力"; "建议寻求专业精神科医生的帮助"] |})
  ].

(** The object literal after [||]. *)
Definition fallback : Interpretation :=
  {| i_description := "心理健康评估维度之一。";
     i_highScore := "该维度得分偏高，建议关注。";
     i_suggestions := ["保持良好的生活习惯"; "适当进行自我调节"; "必要时寻求专业帮助"] |}.

(** [interpretations] is an ordinary object, so [interpretations[name]] also
    finds what [Object.prototype] provides under these names; each is a
    function or an object (truthy) without own enumerable properties. *)
Definition objectPrototypeProps : list string :=
  ["constructor"; "hasOwnProperty"; "isPrototypeOf"; "propertyIsEnumerable";
   "toLocaleString"; "toString"; "valueOf"; "__proto__";
   "__defineGetter__"; "__defineSetter__"; "__lookupGetter__"; "__lookupSetter__"].

(** What [interpretations[factorName]] evaluates to. *)
Inductive Property : Type :=
| Own (i : Interpretation)
| Inherited
| Undefined.

Definition interpretations_get (factorName : string) : Property :=
  match obj_get interpretations factorName with
  | Some i => Own i
  | None =>
      if existsb (String.eqb factorName) objectPrototypeProps then Inherited
      else Undefined
  end.

(** The returned object: the spread properties, when the spread value has
    them, then [level] and [status]. *)
Record FactorInterpretation : Type := {
  fi_description : option string;
  fi_highScore : option string;
  fi_suggestions : option (list string);
  fi_level : string;
  fi_status : string
}.

Definition getFactorInterpretation (factorName : string) (averageScore : number)
  : FactorInterpretation :=
  let interpretation :=
    match interpretations_get factorName with
    | Own i => Some i
    | Inherited => None
    | Undefined => Some fallback
    end in
  {| fi_description := option_map i_description interpretation;
     fi_highScore := option_map i_highScore interpretation;
     fi_suggestions := option_map i_suggestions interpretation;
     fi_level :=
       if num_geb averageScore (num_of_Z 3) then "偏高"
       else if num_geb averageScore (num_of_Z 2) then "中等" else "正常";
     fi_status :=
       if num_geb averageScore (num_of_Z 3) then "warning"
       else if num_geb averageScore (num_of_Z 2) then "attention" else "normal" |}.

(** The record an unknown name is meant to get. *)
Definition generic_interpretation (averageScore : number) : FactorInterpretation :=
  {| fi_description := Some (i_description fallback);
     fi_highScore := Some (i_highScore fallback);
     fi_suggestions := Some (i_suggestions fallback);
     fi_level :=
       if num_geb averageScore (num_of_Z 3) then "偏高"
       else if num_geb averageScore (num_of_Z 2) then "中等" else "正常";
     fi_status :=
       if num_geb averageScore (num_of_Z 3) then "warning"
       else if num_geb averageScore (num_of_Z 2) then "attention" else "normal" |}.

(** ** parseResultFromURL *)

(** How a call ends: with a value or with a thrown error. *)
Inductive completion (A : Type) : Type :=
| Normal (a : A)
| Throw (e : string).
Arguments Normal {A} a.
Arguments Throw {A} e.

(** The values [JSON.parse] can return. *)
#[warnings="-register-all"]
Inductive json : Type :=
| JNull
| JBool (b : bool)
| JNumber (n : number)
| JString (s : string)
| JArray (l : list json)
| JObject (l : list (string * json)).

(** The lines written with [console.error]: message and error. *)
Definition console : Type := list (string * string).

(** A computation that may throw and may write to the console. *)
Definition js (A : Type) : Type := console -> completion A * console.

Definition ret {A : Type} (a : A) : js A := fun out => (Normal a, out).

Definition bind {A B : Type} (c : js A) (k : A -> js B) : js B :=
  fun out =>
    match c out with
    | (Normal a, out') => k a out'
    | (Throw e, out') => (Throw e, out')
    end.

Notation "x <- c ;; k" := (bind c (fun x => k))
  (at level 61, c at next level, right associativity).

(** The call of a platform function. *)
Definition call {A : Type} (c : completion A) : js A := fun out => (c, out).

(** [try { body } catch (e) { handler(e) }] *)
Definition try_catch {A : Type} (body : js A) (handler : string -> js A) : js A :=
  fun out =>
    match body out with
    | (Normal a, out') => (Normal a, out')
    | (Throw e, out') => handler e out'
    end.

Definition console_error (message e : string) : js unit :=
  fun out => (Normal tt, (out ++ [(message, e)])%list).

Section URL.

(** The two platform functions the code calls; each may throw. *)
Variable atob : string -> completion string.
Variable JSON_parse : string -> completion json.

(** [hash] is [window.location.hash], the empty string when the URL has no
    fragment. *)
Definition parseResultFromURL (hash : string) : js json :=
  if negb (String.eqb hash "") && String.prefix "#result=" hash then
    try_catch
      (let encodedData := String.substring 8 (String.length hash - 8)%nat hash in
       decoded <- call (atob encodedData) ;;
       call (JSON_parse decoded))
      (fun e =>
         _ <- console_error "Failed to parse result from URL:" e ;;
         ret JNull)
  else ret JNull.

End URL.

(** ** The factor table

    The module [data/questions.js], which exports [factorIndices], is not part
    of the sources at hand.  The functions above take the table as an
    argument; what the design document requires of it is stated here. *)

(** The item ids 1..90. *)
Definition item_ids : list Z := map Z.of_nat (seq 1 90).

(** Modelled from the spec: [factorIndices] of data/questions.js is missing;
    the index sets of the table partition the item ids 1..90 (no overlap, no
    gap). *)
Definition partitions_items (t : FactorIndexMap) : Prop :=
  Permutation (List.concat (map snd t)) item_ids.

(** Modelled from the spec: [factorIndices] of data/questions.js is missing;
    it has 9 named factors, and as a JavaScript object its keys are distinct. *)
Definition nine_factors (t : FactorIndexMap) : Prop :=
  List.length t = 9%nat /\ NoDup (map fst t).

(** Every factor has at least one item. *)
Definition indices_nonempty (t : FactorIndexMap) : Prop :=
  Forall (fun e : string * list Z => snd e <> []) t.

(** Every index of the table is an item id of 1..90. *)
Definition indices_in_range (t : FactorIndexMap) : Prop :=
  Forall (fun e : string * list Z => Forall (fun i => 1 <= i <= 90) (snd e)) t.

(** No name occurs twice in [l]. *)
Fixpoint distinctb (l : list string) : bool :=
  match l with
  | [] => true
  | x :: l' => negb (existsb (String.eqb x) l') && distinctb l'
  end.

(** A boolean check of the four requirements, for concrete tables. *)
Definition table_okb (t : FactorIndexMap) : bool :=
  (List.length t =? 9)%nat
  && distinctb (map fst t)
  && forallb (fun e : string * list Z =>
                match snd e with [] => false | _ :: _ => true end) t
  && forallb (fun e : string * list Z =>
                forallb (fun i => (1 <=? i) && (i <=? 90)) (snd e)) t
  && forallb (fun i => existsb (Z.eqb i) (List.concat (map snd t))) item_ids
  && (List.length (List.concat (map snd t)) =? 90)%nat.

(** The question list served by the worker ([getQuestions]): id and
    dimension of each item (the text is not used here). *)
Definition questions : list (Z * string) :=
  [
   (1, "躯体化"); (2, "强迫症状"); (3, "强迫症状"); (4, "躯体化"); (5, "人际关系敏感");
   (6, "敌对"); (7, "偏执"); (8, "敌对"); (9, "强迫症状"); (10, "强迫症状");
   (11, "敌对"); (12, "躯体化"); (13, "恐怖"); (14, "抑郁"); (15, "抑郁");
   (16, "精神病性"); (17, "焦虑"); (18, "人际关系敏感"); (19, "躯体化"); (20, "抑郁");
   (21, "人际关系敏感"); (22, "偏执"); (23, "恐怖"); (24, "敌对"); (25, "恐怖");
   (26, "抑郁"); (27, "躯体化"); (28, "强迫症状"); (29, "人际关系敏感"); (30, "抑郁");
   (31, "焦虑"); (32, "抑郁"); (33, "恐怖"); (34, "人际关系敏感"); (35, "精神病性");
   (36, "人际关系敏感"); (37, "人际关系敏感"); (38, "强迫症状"); (39, "焦虑"); (40, "躯体化");
   (41, "人际关系敏感"); (42, "躯体化"); (43, "偏执"); (44, "抑郁"); (45, "强迫症状");
   (46, "强迫症状"); (47, "恐怖"); (48, "焦虑"); (49, "焦虑"); (50, "恐怖");
   (51, "精神病性"); (52, "躯体化"); (53, "躯体化"); (54, "抑郁"); (55, "强迫症状");
   (56, "躯体化"); (57, "焦虑"); (58, "躯体化"); (59, "抑郁"); (60, "躯体化");
   (61, "人际关系敏感"); (62, "精神病性"); (63, "敌对"); (64, "抑郁"); (65, "强迫症状");
   (66, "抑郁"); (67, "敌对"); (68, "精神病性"); (69, "人际关系敏感"); (70, "恐怖");
   (71, "抑郁"); (72, "恐怖"); (73, "恐怖"); (74, "敌对"); (75, "焦虑");
   (76, "偏执"); (77, "人际关系敏感"); (78, "焦虑"); (79, "抑郁"); (80, "精神病性");
   (81, "敌对"); (82, "恐怖"); (83, "偏执"); (84, "精神病性"); (85, "精神病性");
   (86, "强迫症状"); (87, "躯体化"); (88, "人际关系敏感"); (89, "抑郁"); (90, "精神病性")
  ].

(** Modelled from the spec: [factorIndices] of data/questions.js is missing;
    this table groups the ids of [questions] by their dimension, the factors
    in the order of [interpretations].  It serves as the concrete table of
    the examples. *)
Definition factorIndices_of_questions : FactorIndexMap :=
  map (fun name =>
         (name, map fst (filter (fun q => String.eqb (snd q) name) questions)))
      (map fst interpretations).

(** ** Reference notions used in the statements *)

(** The number of factors whose average is at least 3. *)
Definition count_high (fs : object FactorResult) : Z :=
  Z.of_nat (List.length
              (filter (fun e => num_geb (average (snd e)) (num_of_Z 3)) fs)).

(** A valid answer vector: 90 entries, each one of 0..4. *)
Definition valid_answers (answers : array) : Prop :=
  List.length answers = 90%nat /\
  Forall (fun a => exists z, a = Some z /\ 0 <= z <= 4) answers.

(** The boolean form of [valid_answers]. *)
Definition valid_answersb (answers : array) : bool :=
  (List.length answers =? 90)%nat
  && forallb (fun a => match a with
                       | Some z => (0 <=? z) && (z <=? 4)
                       | None => false
                       end) answers.

(** Sum of a list of integers. *)
Definition sumZ (l : list Z) : Z := fold_right Z.add 0 l.

(** No average of [fs] is greater than [x]. *)
Definition is_max_average (x : number) (fs : object FactorResult) : Prop :=
  Forall (fun e => num_gtb (average (snd e)) x = false) fs.

(** The first entry of [fs] whose average equals [x]. *)
Definition first_with_average (x : number) (fs : object FactorResult)
  : option string :=
  option_map fst
    (find (fun e => num_geb (average (snd e)) x && num_geb x (average (snd e))) fs).

(** ** Concrete inputs of the examples *)

Definition all_zero : array := repeat (Some 0) 90.
Definition all_four : array := repeat (Some 4) 90.
Definition all_two : array := repeat (Some 2) 90.

(** Items 1..20 answered 2 and items 21..90 answered 3: the total is 250 and
    every factor of [factorIndices_of_questions] averages below 3. *)
Definition score_250 : array :=
  map (fun q : Z * string => if fst q <=? 20 then Some 2 else Some 3) questions.


(** A long array: 90 zeros and a 91st answer of 1. *)
Definition ninety_one : array := (repeat (Some 0) 90 ++ [Some 1])%list.

(** A vector with two absent entries. *)
Definition with_gaps : array := (None :: Some 3 :: None :: repeat (Some 1) 87)%list.

(** Stand-ins for the two platform functions, enough to run the examples:
    they know one payload, the base64 text of the JSON number 42. *)
Definition atob_demo (s : string) : completion string :=
  if String.eqb s "NDI=" then Normal "42"
  else Throw "InvalidCharacterError".

Definition JSON_parse_demo (s : string) : completion json :=
  if String.eqb s "42" then Normal (JNumber (num_of_Z 42))
  else Throw "SyntaxError".

(** ** Further notions for the properties of the calculator *)

(** The four levels in order of severity. *)
Definition severity (l : RiskLevel) : Z :=
  if String.eqb (level l) "重度" then 3
  else if String.eqb (level l) "中度" then 2
  else if String.eqb (level l) "轻度" then 1
  else 0.

(** [ys] answers every item at least as high as [xs] does. *)
Definition answers_le (xs ys : array) : Prop :=
  Forall2 (fun a b => orZero a <= orZero b) xs ys.

(** All items answered 3 except the first item of each factor of
    [factorIndices_of_questions], answered 2. *)
Definition score_261 : array :=
  map (fun q : Z * string =>
         if existsb (Z.eqb (fst q)) [1; 2; 5; 14; 17; 6; 13; 7; 16]
         then Some 2 else Some 3) questions.

(** What the scan knows after the entries [seen]: either nothing high was
    seen and the variables are as at the start, or the name and score are
    those of a high entry seen; no high entry seen has a greater average. *)
Definition scan_inv (st : Scan) (seen : object FactorResult) : Prop :=
  Forall (fun e => num_geb (average (snd e)) (num_of_Z 3) = true ->
                   num_gtb (average (snd e)) (maxFactorScore st) = false) seen
  /\ ((maxFactorScore st = num_of_Z 0
       /\ Forall (fun e => num_geb (average (snd e)) (num_of_Z 3) = false) seen)
      \/ exists e, In e seen /\ fst e = maxFactorName st
                   /\ average (snd e) = maxFactorScore st
                   /\ num_geb (average (snd e)) (num_of_Z 3) = true).

(** ** generateShareLink *)

(** The strings of this development hold the UTF-8 bytes of the source
    text, so a character above U+00FF shows as a byte of 196 or more. *)
Definition latin1 (s : string) : bool :=
  forallb (fun c => (Ascii.nat_of_ascii c <? 196)%nat) (list_ascii_of_string s).

Section Share.

(** The type of results and the two platform functions; [JSON.stringify]
    is taken on values it serialises to a string, [btoa] may throw. *)
Variable R : Type.
Variable JSON_stringify : R -> string.
Variable btoa : string -> completion string.

(** [origin] and [pathname] are those of [window.location]. *)
Definition generateShareLink (origin pathname : string) (result : R)
  : completion string :=
  let baseUrl := origin ++ pathname in
  match btoa (JSON_stringify result) with
  | Normal encodedData => Normal (baseUrl ++ "#result=" ++ encodedData)
  | Throw e => Throw e
  end.

End Share.

(** Stand-ins for the examples: a [btoa] that knows the text [42] and
    refuses what is not Latin-1, and a serialiser that writes the level. *)
Definition btoa_demo (s : string) : completion string :=
  if String.eqb s "42" then Normal "NDI="
  else Throw "InvalidCharacterError".

Definition btoa_latin1_demo (s : string) : completion string :=
  if latin1 s then Normal s else Throw "InvalidCharacterError".

Definition stringify_level_demo (r : ResultRecord) : string := level (riskLevel r).

(** * The worker

    The HTTP API over the table [users].  Two copies of the worker are among
    the sources; they differ in the property under which the handlers read
    the bound device, in the route of the question list and in one column of
    the admin list, and are modelled together, with the copy as a
    parameter. *)

Module Worker.

Inductive Copy : Type :=
| index_js      (* worker/index.js *)
| other_copy. (* the copy without the question route *)

(** The property read from the selected row for the bound device. *)
Definition device_key (c : Copy) : string :=
  match c with
  | index_js => "device_id"
  | other_copy => "DEVICE_ID"
  end.

(** ** Requests and responses *)

(** A property of the JSON body that is a string when present: it is
    absent ([undefined] after destructuring), [null] or a string. *)
Inductive field : Type :=
| Missing
| Null
| Text (s : string).

(** The same for the numeric property [progress]. *)
Inductive nfield : Type :=
| NMissing
| NNull
| Num (z : Z).

(** The properties the handlers destructure from the body; [answers] and
    [result] are any JSON value when present. *)
Record Body : Type := {
  orderId : field;
  body_note : field;
  adminPassword : field;
  deviceId : field;
  body_progress : nfield;
  body_answers : option json;
  body_result : option json
}.

(** [req_json] is what [await request.json()] followed by the destructuring
    gives: it throws when the body is not JSON or is [null].
    [searchAdminPassword] is [url.searchParams.get('adminPassword')]. *)
Record Request : Type := {
  method : string;
  pathname : string;
  searchAdminPassword : option string;
  req_json : completion Body
}.

(** A row of the table [users] of schema.sql. *)
Record User : Type := {
  token : string;
  order_id : string;
  note : option string;
  status : option string;
  created_at : string;
  first_access_at : option string;
  completed_at : option string;
  device_id : option string;
  progress : option Z;
  answers : option string;
  result : option string
}.

(** A row of the admin list; [a_completed_at] is [None] when the column is
    not selected. *)
Record AdminRow : Type := {
  a_token : string;
  a_order_id : string;
  a_note : option string;
  a_status : option string;
  a_created_at : string;
  a_first_access_at : option string;
  a_completed_at : option (option string);
  a_progress : option Z
}.

(** The value given to [JSON.stringify] for the body of a response. *)
Inductive Payload : Type :=
| NoBody
| Error (error : string)
| ErrorCode (error code : string)
| Success
| Created (token url : string)
| UserData (data : User)
| ListData (data : list AdminRow)
| QuestionData (data : list (Z * string)).

Record Response : Type := {
  resp_status : Z;
  resp_headers : list (string * string);
  resp_body : Payload
}.

Definition corsHeaders : list (string * string) :=
  [("Access-Control-Allow-Origin", "*");
   ("Access-Control-Allow-Methods", "GET, POST, OPTIONS");
   ("Access-Control-Allow-Headers", "Content-Type")].

(** [new Response(JSON.stringify(body), { status, headers: {...corsHeaders,
    'Content-Type': 'application/json' } })]; the status is 200 where the
    code gives none. *)
Definition json_response (status : Z) (body : Payload) : Response :=
  {| resp_status := status;
     resp_headers := (corsHeaders ++ [("Content-Type", "application/json")])%list;
     resp_body := body |}.

(** What the platform supplies to one request: the value of
    [CURRENT_TIMESTAMP] and the outcomes of the calls of [Math.random]. *)
Record Platform : Type := {
  now : string;
  random : nat -> Q
}.

(** ** JavaScript values of the handlers *)

(** [a === b] *)
Definition field_eqb (a b : field) : bool :=
  match a, b with
  | Missing, Missing => true
  | Null, Null => true
  | Text s, Text s' => String.eqb s s'
  | _, _ => false
  end.

(** Truthiness: [undefined], [null] and the empty string are falsy. *)
Definition truthy (a : field) : bool :=
  match a with
  | Text s => negb (String.eqb s "")
  | _ => false
  end.

(** [a || ''] *)
Definition or_empty (a : field) : string :=
  match a with
  | Text s => s
  | _ => ""
  end.

(** The object [first()] returns: selected column and its value, [None]
    for SQL NULL. *)
Definition Row : Type := object (option string).

(** [row.key] *)
Definition prop (row : Row) (key : string) : field :=
  match obj_get row key with
  | None => Missing
  | Some None => Null
  | Some (Some s) => Text s
  end.

(** ** The database *)

(** A handler step: it may throw and may change the table. *)
Definition M (A : Type) : Type := list User -> completion A * list User.

Definition ret {A : Type} (a : A) : M A := fun db => (Normal a, db).

Definition bind {A B : Type} (c : M A) (k : A -> M B) : M B :=
  fun db =>
    match c db with
    | (Normal a, db') => k a db'
    | (Throw e, db') => (Throw e, db')
    end.

Notation "x <-- c ;; k" := (bind c (fun x => k))
  (at level 61, c at next level, right associativity).

Definition call {A : Type} (c : completion A) : M A := fun db => (c, db).

(** Binding a value to a statement: D1 refuses [undefined]. *)
Definition bind_text (a : field) : completion (option string) :=
  match a with
  | Missing => Throw "D1_TYPE_ERROR"
  | Null => Normal None
  | Text s => Normal (Some s)
  end.

Definition bind_int (a : nfield) : completion (option Z) :=
  match a with
  | NMissing => Throw "D1_TYPE_ERROR"
  | NNull => Normal None
  | Num z => Normal (Some z)
  end.

(** [SELECT ... FROM users WHERE token = ?] with [first()]. *)
Definition first_by_token (t : option string) : M (option User) :=
  fun db =>
    match t with
    | None => (Throw "D1_TYPE_ERROR", db)
    | Some t => (Normal (find (fun u => String.eqb (token u) t) db), db)
    end.

(** [UPDATE users SET ... WHERE token = ?] *)
Definition update_by_token (t : option string) (set : User -> User) : M unit :=
  fun db =>
    match t with
    | None => (Throw "D1_TYPE_ERROR", db)
    | Some t =>
        (Normal tt, map (fun u => if String.eqb (token u) t then set u else u) db)
    end.

(** [INSERT INTO users (token, order_id, note, status) VALUES (?, ?, ?, ?)]:
    the other columns take their defaults; the primary key and the NOT NULL
    constraint of [order_id] make the statement fail. *)
Definition insert_user (t : string) (order : field) (n st created : string)
  : M unit :=
  fun db =>
    match bind_text order with
    | Throw e => (Throw e, db)
    | Normal None => (Throw "NOT NULL constraint failed: users.order_id", db)
    | Normal (Some o) =>
        if existsb (fun u => String.eqb (token u) t) db
        then (Throw "UNIQUE constraint failed: users.token", db)
        else (Normal tt,
              (db ++ [{| token := t; order_id := o; note := Some n;
                         status := Some st; created_at := created;
                         first_access_at := None; completed_at := None;
                         device_id := None; progress := Some 0;
                         answers := None; result := None |}])%list)
    end.

(** ** Paths *)

(** The character [/]. *)
Definition slash : Ascii.ascii := Ascii.ascii_of_nat 47.

(** [s.split('/')] *)
Fixpoint split_slash (s : string) : list string :=
  match s with
  | EmptyString => [""]
  | String c s' =>
      if Ascii.eqb c slash then "" :: split_slash s'
      else match split_slash s' with
           | part :: parts => String c part :: parts
           | [] => [String c ""]
           end
  end.

(** [parts.pop()] and [parts[3]]: [None] is [undefined]. *)
Definition pop (parts : list string) : option string :=
  match rev parts with
  | [] => None
  | part :: _ => Some part
  end.

Definition startsWith (s p : string) : bool := String.prefix p s.

Definition endsWith (s p : string) : bool :=
  (String.length p <=? String.length s)%nat
  && String.eqb (String.substring (String.length s - String.length p)
                                  (String.length p) s) p.

(** ** generateToken *)

Definition chars : string := "abcdefghijklmnopqrstuvwxyz0123456789".

(** [Math.floor(x)] *)
Definition Math_floor (x : Q) : Z := Qnum x / Z.pos (Qden x).

(** [chars[Math.floor(r * chars.length)]] appended to the token; an index
    outside the string reads [undefined], which [+=] spells out. *)
Definition token_char (r : Q) : string :=
  let index := Math_floor (r * inject_Z (Z.of_nat (String.length chars))) in
  if index <? 0 then "undefined"
  else match String.get (Z.to_nat index) chars with
       | Some c => String c ""
       | None => "undefined"
       end.

Definition generateToken (rnd : nat -> Q) : string :=
  fold_left (fun t i => t ++ token_char (rnd i)) (seq 0 32) "".

Section Handlers.

(** The serialiser applied to [answers] and [result], and the order in
    which the engine returns the rows for [ORDER BY created_at DESC]. *)
Variable JSON_stringify : json -> string.
Variable order_by_created_at_desc : list User -> list User.

Variable copy : Copy.

(** [JSON.stringify(v)] bound to a statement: [undefined] stays
    [undefined], which D1 refuses. *)
Definition bind_json (v : option json) : completion (option string) :=
  match v with
  | None => Throw "D1_TYPE_ERROR"
  | Some j => Normal (Some (JSON_stringify j))
  end.

Definition createToken (request : Request) (p : Platform) : M Response :=
  body <-- call (req_json request) ;;
  if negb (field_eqb (adminPassword body) (Text "admin123")) then
    ret (json_response 401 (Error "Unauthorized"))
  else
    let t := generateToken (random p) in
    _ <-- insert_user t (orderId body) (or_empty (body_note body)) "pending" (now p) ;;
    ret (json_response 200
           (Created t ("https://sci-90test.pages.dev/?token=" ++ t))).

Definition getUserInfo (t : option string) : M Response :=
  found <-- first_by_token t ;;
  match found with
  | None => ret (json_response 404 (Error "Token not found"))
  | Some u => ret (json_response 200 (UserData u))
  end.

Definition recordAccess (t : option string) (request : Request) (p : Platform)
  : M Response :=
  body <-- call (req_json request) ;;
  found <-- first_by_token t ;;
  match found with
  | None => ret (json_response 404 (Error "Token not found"))
  | Some u =>
      let user : Row := [("device_id", device_id u); ("status", status u)] in
      if truthy (prop user (device_key copy))
         && negb (field_eqb (prop user (device_key copy)) (deviceId body))
      then ret (json_response 403
                  (ErrorCode "此链接已在其他设备使用，请联系客服" "DEVICE_MISMATCH"))
      else
        _ <-- (if negb (truthy (prop user (device_key copy))) then
                 d <-- call (bind_text (deviceId body)) ;;
                 update_by_token t
                   (fun u => {| token := token u; order_id := order_id u;
                                note := note u; status := Some "testing";
                                created_at := created_at u;
                                first_access_at := Some (now p);
                                completed_at := completed_at u;
                                device_id := d; progress := progress u;
                                answers := answers u; result := result u |})
               else ret tt) ;;
        ret (json_response 200 Success)
  end.

Definition saveProgress (t : option string) (request : Request) : M Response :=
  body <-- call (req_json request) ;;
  found <-- first_by_token t ;;
  match found with
  | None => ret (json_response 404 (Error "Token not found"))
  | Some u =>
      let user : Row := [("device_id", device_id u)] in
      if negb (field_eqb (prop user (device_key copy)) (deviceId body)) then
        ret (json_response 403 (Error "Unauthorized device"))
      else
        pr <-- call (bind_int (body_progress body)) ;;
        ans <-- call (bind_json (body_answers body)) ;;
        _ <-- update_by_token t
                (fun u => {| token := token u; order_id := order_id u;
                             note := note u; status := status u;
                             created_at := created_at u;
                             first_access_at := first_access_at u;
                             completed_at := completed_at u;
                             device_id := device_id u; progress := pr;
                             answers := ans; result := result u |}) ;;
        ret (json_response 200 Success)
  end.

Definition admin_row (u : User) : AdminRow :=
  {| a_token := token u; a_order_id := order_id u; a_note := note u;
     a_status := status u; a_created_at := created_at u;
     a_first_access_at := first_access_at u;
     a_completed_at := match copy with
                       | index_js => Some (completed_at u)
                       | other_copy => None
                       end;
     a_progress := progress u |}.

Definition getAdminList (request : Request) : M Response :=
  match searchAdminPassword request with
  | Some "admin123" =>
      fun db =>
        (Normal (json_response 200
                   (ListData (map admin_row (order_by_created_at_desc db)))), db)
  | _ => ret (json_response 401 (Error "Unauthorized"))
  end.

Definition completeTest (t : option string) (request : Request) (p : Platform)
  : M Response :=
  body <-- call (req_json request) ;;
  found <-- first_by_token t ;;
  match found with
  | None => ret (json_response 404 (Error "Token not found"))
  | Some u =>
      let user : Row := [("device_id", device_id u)] in
      if negb (field_eqb (prop user (device_key copy)) (deviceId body)) then
        ret (json_response 403 (Error "Unauthorized device"))
      else
        res <-- call (bind_json (body_result body)) ;;
        _ <-- update_by_token t
                (fun u => {| token := token u; order_id := order_id u;
                             note := note u; status := Some "completed";
                             created_at := created_at u;
                             first_access_at := first_access_at u;
                             completed_at := Some (now p);
                             device_id := device_id u; progress := Some 90;
                             answers := answers u; result := res |}) ;;
        ret (json_response 200 Success)
  end.

(** The id and dimension of each question; the texts are left out. *)
Definition getQuestions : M Response :=
  ret (json_response 200 (QuestionData questions)).

(** The routes inside [try]. *)
Definition route (request : Request) (p : Platform) : M Response :=
  let path := pathname request in
  if String.eqb path "/api/create" && String.eqb (method request) "POST" then
    createToken request p
  else if startsWith path "/api/user/" && String.eqb (method request) "GET" then
    getUserInfo (pop (split_slash path))
  else if startsWith path "/api/user/" && endsWith path "/access"
          && String.eqb (method request) "POST" then
    recordAccess (nth_error (split_slash path) 3) request p
  else if startsWith path "/api/user/" && endsWith path "/save"
          && String.eqb (method request) "POST" then
    saveProgress (nth_error (split_slash path) 3) request
  else if startsWith path "/api/user/" && endsWith path "/complete"
          && String.eqb (method request) "POST" then
    completeTest (nth_error (split_slash path) 3) request p
  else if String.eqb path "/api/admin/list" && String.eqb (method request) "GET" then
    getAdminList request
  else if match copy with index_js => true | other_copy => false end
          && String.eqb path "/api/questions"
          && String.eqb (method request) "GET" then
    getQuestions
  else ret (json_response 404 (Error "Not found")).

(** [fetch]: the response and the table afterwards. *)
Definition fetch (request : Request) (p : Platform) (db : list User)
  : Response * list User :=
  if String.eqb (method request) "OPTIONS" then
    ({| resp_status := 200; resp_headers := corsHeaders; resp_body := NoBody |}, db)
  else
    match route request p db with
    | (Normal response, db') => (response, db')
    | (Throw message, db') => (json_response 500 (Error message), db')
    end.

End Handlers.

End Worker.

(** ** Concrete inputs of the worker examples *)

Definition stringify_demo (j : json) : string :=
  match j with
  | JNull => "null"
  | _ => "[]"
  end.

Definition order_demo (db : list Worker.User) : list Worker.User := rev db.

(** A token never accessed and a token bound to the device [dev-1]. *)
Definition fresh_user : Worker.User :=
  {| Worker.token := "tok-a"; Worker.order_id := "order-1";
     Worker.note := Some ""; Worker.status := Some "pending";
     Worker.created_at := "2024-01-01 10:00:00";
     Worker.first_access_at := None; Worker.completed_at := None;
     Worker.device_id := None; Worker.progress := Some 0;
     Worker.answers := None; Worker.result := None |}.

Definition bound_user : Worker.User :=
  {| Worker.token := "tok-b"; Worker.order_id := "order-2";
     Worker.note := Some "vip"; Worker.status := Some "testing";
     Worker.created_at := "2024-01-01 11:00:00";
     Worker.first_access_at := Some "2024-01-01 12:00:00";
     Worker.completed_at := None;
     Worker.device_id := Some "dev-1"; Worker.progress := Some 12;
     Worker.answers := Some "[]"; Worker.result := None |}.

Definition users_demo : list Worker.User := [fresh_user; bound_user].

Definition platform_demo : Worker.Platform :=
  {| Worker.now := "2024-01-02 09:00:00";
     Worker.random := fun i => (Z.of_nat i # 32)%Q |}.

(** A body with the given [deviceId], a progress of 30, empty answers and a
    [null] result. *)
Definition body_demo (d : Worker.field) : Worker.Body :=
  {| Worker.orderId := Worker.Missing; Worker.body_note := Worker.Missing;
     Worker.adminPassword := Worker.Missing; Worker.deviceId := d;
     Worker.body_progress := Worker.Num 30;
     Worker.body_answers := Some (JArray []);
     Worker.body_result := Some JNull |}.

Definition create_body_demo : Worker.Body :=
  {| Worker.orderId := Worker.Text "order-3"; Worker.body_note := Worker.Null;
     Worker.adminPassword := Worker.Text "admin123";
     Worker.deviceId := Worker.Missing;
     Worker.body_progress := Worker.NMissing;
     Worker.body_answers := None; Worker.body_result := None |}.

Definition request_demo (m path : string) (b : Worker.Body) : Worker.Request :=
  {| Worker.method := m; Worker.pathname := path;
     Worker.searchAdminPassword := None; Worker.req_json := Normal b |}.

(** ** Notions for the properties of the worker *)

(** What every handler step keeps: a response carries the CORS headers and
    one of four statuses, and only a response of status 200 may come with a
    changed table; a thrown error leaves the table as it was. *)
Definition step_ok (db : list Worker.User)
  (out : completion Worker.Response * list Worker.User) : Prop :=
  match out with
  | (Normal r, db') =>
      incl Worker.corsHeaders (Worker.resp_headers r)
      /\ In (Worker.resp_status r) [200; 401; 403; 404]
      /\ (Worker.resp_status r <> 200 -> db' = db)
  | (Throw _, db') => db' = db
  end.

(** [s] has no [/]. *)
Definition slash_free (s : string) : bool :=
  forallb (fun c => negb (Ascii.eqb c Worker.slash)) (list_ascii_of_string s).

(** * The calculator as a program in its environment

    [calculateResult] once more, this time with what the function can reach
    made explicit: the argument is a reference to an array in the heap (or
    is not an array at all), the array holds JavaScript values of the kinds
    that matter to [+], [||] and [>], the factor table is the object of the
    module, and the time comes from a clock.  A step may throw and may, in
    principle, change the world. *)

Module Program.

(** The values an entry can be; a hole of the array reads as [undefined]
    and is skipped by [reduce] and [filter], which comes to the same.
    Numbers are integers; strings and objects are left out. *)
Inductive value : Type :=
| VUndefined
| VNull
| VBoolean (b : bool)
| VNumber (z : Z)
| VBigInt (z : Z)
| VSymbol.

(** The argument [answers]: [undefined] or [null], or a reference to an
    array. *)
Inductive argument : Type :=
| ANullish
| AArray (l : nat).

(** [table] is [Object.entries(factorIndices)] of the module, [heap] gives
    the array at each reference, [clock n] is what [new Date().toISOString()]
    returns at its [n]-th call and [ticks] counts the calls made. *)
Record World : Type := {
  table : FactorIndexMap;
  heap : nat -> list value;
  clock : nat -> string;
  ticks : nat
}.

Definition M (A : Type) : Type := World -> completion A * World.

Definition ret {A : Type} (a : A) : M A := fun w => (Normal a, w).

Definition bind {A B : Type} (c : M A) (k : A -> M B) : M B :=
  fun w =>
    match c w with
    | (Normal a, w') => k a w'
    | (Throw e, w') => (Throw e, w')
    end.

Notation "x <<- c ;; k" := (bind c (fun x => k))
  (at level 61, c at next level, right associativity).

Definition call {A : Type} (c : completion A) : M A := fun w => (c, w).

(** Reading a property of [answers] ([reduce], [filter], an index): a
    TypeError when [answers] is [undefined] or [null]. *)
Definition read_array (a : argument) : M (list value) :=
  fun w =>
    match a with
    | ANullish => (Throw "TypeError", w)
    | AArray l => (Normal (heap w l), w)
    end.

Definition read_table : M FactorIndexMap := fun w => (Normal (table w), w).

Definition date_now : M string :=
  fun w =>
    (Normal (clock w (ticks w)),
     {| table := table w; heap := heap w; clock := clock w;
        ticks := S (ticks w) |}).

(** [sum + (v || 0)] for a number [sum]: a falsy [v] gives way to 0,
    [true] counts 1, and a BigInt other than [0n] or a symbol makes [+]
    throw. *)
Definition add_or_zero (sum : Z) (v : value) : completion Z :=
  match v with
  | VUndefined | VNull => Normal (sum + 0)
  | VBoolean b => Normal (sum + (if b then 1 else 0))
  | VNumber z => Normal (sum + z)
  | VBigInt z => if z =? 0 then Normal (sum + 0) else Throw "TypeError"
  | VSymbol => Throw "TypeError"
  end.

(** [v > 1]: [undefined] compares false, [null] is 0, [true] is 1, and a
    symbol cannot be converted. *)
Definition greater_than_one (v : value) : completion bool :=
  match v with
  | VUndefined | VNull | VBoolean _ => Normal false
  | VNumber z | VBigInt z => Normal (1 <? z)
  | VSymbol => Throw "TypeError"
  end.

(** [vs.reduce((sum, v) => sum + (v || 0), sum)] *)
Fixpoint reduce_sum (vs : list value) (sum : Z) : completion Z :=
  match vs with
  | [] => Normal sum
  | v :: vs' =>
      match add_or_zero sum v with
      | Normal sum' => reduce_sum vs' sum'
      | Throw e => Throw e
      end
  end.

(** [vs.filter(v => v > 1)] *)
Fixpoint filter_positive (vs : list value) : completion (list value) :=
  match vs with
  | [] => Normal []
  | v :: vs' =>
      match greater_than_one v with
      | Throw e => Throw e
      | Normal keep =>
          match filter_positive vs' with
          | Throw e => Throw e
          | Normal rest => Normal (if keep then v :: rest else rest)
          end
      end
  end.

(** [vs[i]] *)
Definition element (vs : list value) (i : Z) : value :=
  if i <? 0 then VUndefined else nth (Z.to_nat i) vs VUndefined.

(** [factors[name] = record]: under the name [__proto__] the assignment
    sets the prototype and adds no property. *)
Definition assign (factors : object FactorResult) (name : string)
  (record : FactorResult) : object FactorResult :=
  if String.eqb name "__proto__" then factors else obj_set factors name record.

(** One turn of the loop over the factors. *)
Definition factor_step (answers : argument) (factors : object FactorResult)
  (entry : string * list Z) : M (object FactorResult) :=
  let '(factorName, indices) := entry in
  vs <<- read_array answers ;;
  let factorScores := map (fun index => element vs (index - 1)) indices in
  factorSum <<- call (reduce_sum factorScores 0) ;;
  ret (assign factors factorName
         {| score := factorSum;
            average := num_div factorSum (Z.of_nat (List.length indices));
            itemCount := Z.of_nat (List.length indices) |}).

Fixpoint for_each {A B : Type} (body : B -> A -> M B) (l : list A) (b : B)
  : M B :=
  match l with
  | [] => ret b
  | x :: l' => b' <<- body b x ;; for_each body l' b'
  end.

Definition calculateResult (answers : argument) : M ResultRecord :=
  vs <<- read_array answers ;;
  total <<- call (reduce_sum vs 0) ;;
  vs' <<- read_array answers ;;
  positive <<- call (filter_positive vs') ;;
  entries <<- read_table ;;
  fs <<- for_each (factor_step answers) entries [] ;;
  now <<- date_now ;;
  ret {| totalScore := total;
         totalAverage := num_div total 90;
         positiveItems := List.length positive;
         factors := fs;
         riskLevel := determineRiskLevel total fs;
         timestamp := now |}.

(** ** What the program computes, without the world *)

(** The record of a factor from the values of the array. *)
Definition factor_of (vs : list value) (indices : list Z)
  : completion FactorResult :=
  match reduce_sum (map (fun index => element vs (index - 1)) indices) 0 with
  | Normal factorSum =>
      Normal {| score := factorSum;
                average := num_div factorSum (Z.of_nat (List.length indices));
                itemCount := Z.of_nat (List.length indices) |}
  | Throw e => Throw e
  end.

Fixpoint factors_of (vs : list value) (entries : FactorIndexMap)
  (fs : object FactorResult) : completion (object FactorResult) :=
  match entries with
  | [] => Normal fs
  | (name, indices) :: entries' =>
      match factor_of vs indices with
      | Normal record => factors_of vs entries' (assign fs name record)
      | Throw e => Throw e
      end
  end.

(** The result but for its timestamp. *)
Definition outcome_of (entries : FactorIndexMap) (vs : list value)
  : completion (string -> ResultRecord) :=
  match reduce_sum vs 0 with
  | Throw e => Throw e
  | Normal total =>
      match filter_positive vs with
      | Throw e => Throw e
      | Normal positive =>
          match factors_of vs entries [] with
          | Throw e => Throw e
          | Normal fs =>
              Normal (fun now =>
                        {| totalScore := total;
                           totalAverage := num_div total 90;
                           positiveItems := List.length positive;
                           factors := fs;
                           riskLevel := determineRiskLevel total fs;
                           timestamp := now |})
          end
      end
  end.

(** The world after one reading of the clock. *)
Definition tick (w : World) : World :=
  {| table := table w; heap := heap w; clock := clock w; ticks := S (ticks w) |}.

(** ** Notions of the statements *)

(** An entry that is an integer or absent. *)
Definition integer_or_absent (v : value) : Prop :=
  v = VUndefined \/ v = VNull \/ exists z, v = VNumber z.

(** An entry that is an answer of the scale 0..4 or absent. *)
Definition answer_or_absent (v : value) : Prop :=
  v = VUndefined \/ v = VNull \/ exists z, v = VNumber z /\ 0 <= z <= 4.

(** The integer an entry stands for in a sum: nothing when it is absent. *)
Definition integer_of (v : value) : Z :=
  match v with
  | VNumber z => z
  | _ => 0
  end.

(** The array with 0 stored wherever an entry is absent. *)
Definition zero_stored (vs : list value) : list value :=
  map (fun v => match v with
                | VNumber z => VNumber z
                | _ => VNumber 0
                end) vs.

(** The record of a factor when its sum is the sum of the integers at its
    item ids. *)
Definition record_of (vs : list value) (indices : list Z) : FactorResult :=
  let factorSum := sumZ (map (fun i => integer_of (element vs (i - 1))) indices) in
  {| score := factorSum;
     average := num_div factorSum (Z.of_nat (List.length indices));
     itemCount := Z.of_nat (List.length indices) |}.

(** The entry of the pure model for a value. *)
Definition answer_of (v : value) : answer :=
  match v with
  | VNumber z => Some z
  | _ => None
  end.

Definition value_of (a : answer) : value :=
  match a with
  | Some z => VNumber z
  | None => VUndefined
  end.

End Program.

(** A world for the examples: the table of the question list, the vector
    with two absent entries at reference 0, its copy with zeros stored at
    reference 1, and an array with a BigInt at reference 2. *)
Definition world_demo : Program.World :=
  {| Program.table := factorIndices_of_questions;
     Program.heap := fun l =>
       match l with
       | O => map Program.value_of with_gaps
       | S O => Program.zero_stored (map Program.value_of with_gaps)
       | _ => (Program.VBigInt 1 :: repeat (Program.VNumber 0) 89)%list
       end;
     Program.clock := fun n => if (n =? 0)%nat then "2024-01-01T00:00:00.000Z"
                               else "2024-01-01T00:00:01.000Z";
     Program.ticks := 0 |}.

(** A name that the assignment to [factors] and the order of enumeration
    treat as an ordinary property: not [__proto__], and not starting with a
    digit as an array index does. *)
Definition plain_name (s : string) : bool :=
  negb (String.eqb s "__proto__")
  && match s with
     | EmptyString => true
     | String c _ => negb ((48 <=? Ascii.nat_of_ascii c)%nat
                           && (Ascii.nat_of_ascii c <=? 57)%nat)
     end.

(** * Properties *)

(** ** Sums *)

Lemma fold_left_sum (A : Type) (f : A -> Z) (l : list A) (a : Z) :
  fold_left (fun sum x => sum + f x) l a = a + sumZ (map f l).
Proof.
  revert a; induction l as [| x l IH]; intros a; simpl.
  - lia.
  - rewrite IH. lia.
Qed.

Lemma sumZ_cons (x : Z) (l : list Z) : sumZ (x :: l) = x + sumZ l.
Proof. reflexivity. Qed.

Lemma sumZ_app (l1 l2 : list Z) : sumZ (l1 ++ l2) = sumZ l1 + sumZ l2.
Proof.
  induction l1 as [| x l1 IH]; simpl; [reflexivity | rewrite IH; lia].
Qed.

Lemma sumZ_perm (l1 l2 : list Z) : Permutation l1 l2 -> sumZ l1 = sumZ l2.
Proof.
  induction 1; simpl; lia.
Qed.

Lemma sumZ_concat_map (f : Z -> Z) (ls : list (list Z)) :
  sumZ (map f (List.concat ls)) = sumZ (map (fun l => sumZ (map f l)) ls).
Proof.
  induction ls as [| l ls IH]; simpl.
  - reflexivity.
  - rewrite map_app, sumZ_app, IH. reflexivity.
Qed.

Lemma total_is_sum (answers : array) :
  fold_left (fun sum a => sum + orZero a) answers 0 = sumZ (map orZero answers).
Proof.
  rewrite fold_left_sum. lia.
Qed.

Lemma factor_score_is_sum (answers : array) (indices : list Z) :
  score (factorResult answers indices)
  = sumZ (map (fun index => orZero (array_get answers (index - 1))) indices).
Proof.
  unfold factorResult; simpl.
  rewrite (fold_left_sum Z (fun x => x)), map_id. lia.
Qed.

(** ** Reading the array by item id *)

Lemma array_get_cons (x : answer) (a : array) (i : nat) :
  array_get (x :: a) (Z.of_nat (S (S i)) - 1) = array_get a (Z.of_nat (S i) - 1).
Proof.
  unfold array_get.
  replace (Z.of_nat (S (S i)) - 1) with (Z.of_nat (S i)) by lia.
  replace (Z.of_nat (S i) - 1) with (Z.of_nat i) by lia.
  destruct (Z.of_nat (S i) <? 0) eqn:E1; [apply Z.ltb_lt in E1; lia |].
  destruct (Z.of_nat i <? 0) eqn:E2; [apply Z.ltb_lt in E2; lia |].
  rewrite !Nat2Z.id. reflexivity.
Qed.

Lemma array_get_first (x : answer) (a : array) : array_get (x :: a) (1 - 1) = x.
Proof. reflexivity. Qed.

(** Reading the ids 1..n of an array with at least [n] entries visits its
    first [n] entries, each once. *)
Lemma sum_by_id (n : nat) : forall a : array,
  (n <= List.length a)%nat ->
  sumZ (map (fun i => orZero (array_get a (i - 1))) (map Z.of_nat (seq 1 n)))
  = sumZ (map orZero (firstn n a)).
Proof.
  induction n as [| n IH]; intros a Hn.
  - reflexivity.
  - destruct a as [| x a]; [simpl in Hn; lia |].
    simpl in Hn.
    change (seq 1 (S n)) with (1%nat :: seq 2 n).
    rewrite <- seq_shift.
    cbn [map firstn].
    change (Z.of_nat 1) with 1.
    rewrite !sumZ_cons, array_get_first. f_equal.
    rewrite <- (IH a) by lia.
    rewrite !map_map. f_equal.
    apply map_ext_in. intros i Hi. apply in_seq in Hi.
    destruct i as [| i]; [lia |].
    rewrite array_get_cons. reflexivity.
Qed.

Lemma sum_item_ids (a : array) :
  List.length a = 90%nat ->
  sumZ (map (fun i => orZero (array_get a (i - 1))) item_ids)
  = sumZ (map orZero a).
Proof.
  intros H. unfold item_ids.
  rewrite sum_by_id by lia.
  rewrite <- H, firstn_all. reflexivity.
Qed.

(** An id of 1..90 reads inside the first 90 entries. *)
Lemma array_get_firstn (a : array) (i : Z) :
  1 <= i <= 90 -> array_get (firstn 90 a) (i - 1) = array_get a (i - 1).
Proof.
  intros Hi. unfold array_get.
  destruct (i - 1 <? 0); [reflexivity |].
  rewrite nth_error_firstn.
  destruct (Nat.ltb_spec (Z.to_nat (i - 1)) 90); [reflexivity | lia].
Qed.

(** ** Building the object [factors] *)

Lemma obj_set_fresh (V : Type) (o : object V) (k : string) (v : V) :
  ~ In k (map fst o) -> obj_set o k v = (o ++ [(k, v)])%list.
Proof.
  induction o as [| [k' v'] o IH]; simpl; intros Hk.
  - reflexivity.
  - destruct (String.eqb_spec k' k) as [-> | _].
    + exfalso. apply Hk. now left.
    + rewrite IH; [reflexivity | tauto].
Qed.

Lemma obj_set_in (V : Type) (o : object V) (k : string) (v : V) (e : string * V) :
  In e (obj_set o k v) -> In e o \/ e = (k, v).
Proof.
  induction o as [| [k' v'] o IH]; simpl.
  - intros [<- | []]. now right.
  - destruct (String.eqb_spec k' k) as [-> | _]; simpl.
    + intros [<- | H]; [now right | left; now right].
    + intros [<- | H]; [left; now left |].
      destruct (IH H) as [H' | H']; [left; now right | now right].
Qed.

Lemma build_factors_acc (answers : array) (t : FactorIndexMap) :
  forall acc : object FactorResult,
  NoDup (map fst acc ++ map fst t) ->
  fold_left
    (fun fs (entry : string * list Z) =>
       let '(factorName, indices) := entry in
       obj_set fs factorName (factorResult answers indices)) t acc
  = (acc ++ map (factor_entry answers) t)%list.
Proof.
  induction t as [| [name idx] t IH]; intros acc Hnd; simpl.
  - now rewrite app_nil_r.
  - simpl in Hnd.
    rewrite obj_set_fresh.
    + rewrite IH.
      * rewrite <- app_assoc. reflexivity.
      * rewrite map_app. simpl. rewrite <- app_assoc. exact Hnd.
    + apply NoDup_remove_2 in Hnd. intros Hin. apply Hnd.
      apply in_or_app. now left.
Qed.

(** With distinct names the object lists the factors in the order of the
    table. *)
Lemma build_factors_map (answers : array) (t : FactorIndexMap) :
  NoDup (map fst t) ->
  build_factors t answers = map (factor_entry answers) t.
Proof.
  intros Hnd. unfold build_factors.
  now rewrite build_factors_acc.
Qed.

Lemma build_factors_in_acc (answers : array) (t : FactorIndexMap) :
  forall (acc : object FactorResult) (e : string * FactorResult),
  In e (fold_left
          (fun fs (entry : string * list Z) =>
             let '(factorName, indices) := entry in
             obj_set fs factorName (factorResult answers indices)) t acc) ->
  In e acc \/ exists entry, In entry t /\ e = factor_entry answers entry.
Proof.
  induction t as [| [name idx] t IH]; intros acc e; simpl.
  - now left.
  - intros H. destruct (IH _ _ H) as [H' | (entry & Hin & ->)].
    + destruct (obj_set_in _ _ _ _ _ H') as [H'' | ->].
      * now left.
      * right. exists (name, idx). split; [now left | reflexivity].
    + right. exists entry. split; [now right | reflexivity].
Qed.

(** Every entry of [factors] is the record of some entry of the table. *)
Lemma build_factors_in (answers : array) (t : FactorIndexMap)
  (e : string * FactorResult) :
  In e (build_factors t answers) ->
  exists entry, In entry t /\ e = factor_entry answers entry.
Proof.
  intros H. destruct (build_factors_in_acc _ _ _ _ H) as [[] | H']. exact H'.
Qed.

(** ** The order of numbers *)

Lemma Qle_bool_false (x y : Q) : Qle_bool x y = false <-> (y < x)%Q.
Proof.
  split; intros H.
  - destruct (Qlt_le_dec y x) as [Hlt | Hle]; [exact Hlt |].
    apply Qle_bool_iff in Hle. congruence.
  - destruct (Qle_bool x y) eqn:E; [| reflexivity].
    apply Qle_bool_iff in E. exfalso. apply (Qlt_not_le _ _ H E).
Qed.

Ltac num_cases :=
  repeat match goal with
         | x : number |- _ => destruct x
         end;
  simpl in *; try discriminate; try reflexivity;
  repeat match goal with
         | H : negb _ = true |- _ => apply negb_true_iff in H
         | H : negb _ = false |- _ => apply negb_false_iff in H
         | H : andb _ _ = false |- _ => apply andb_false_iff in H; destruct H
         | H : Qle_bool _ _ = true |- _ => apply Qle_bool_iff in H
         | H : Qle_bool _ _ = false |- _ => apply Qle_bool_false in H
         | |- negb _ = true => apply negb_true_iff
         | |- negb _ = false => apply negb_false_iff
         | |- Qle_bool _ _ = true => apply Qle_bool_iff
         | |- Qle_bool _ _ = false => apply Qle_bool_false
         end.

Lemma num_below_max (a x : number) :
  num_geb a (num_of_Z 3) = true -> num_geb x (num_of_Z 3) = true ->
  num_gtb a x = false ->
  num_geb a x && num_geb x a = false ->
  num_gtb x a = true.
Proof.
  intros H1 H2 H3 H4. num_cases;
    solve [ assumption
          | exfalso; eapply Qlt_not_le; eassumption
          | exfalso; eapply Qlt_irrefl; eapply Qlt_le_trans; eassumption ].
Qed.

Lemma num_above_old (a x m : number) :
  num_geb a x = true -> num_gtb x m = true -> num_gtb a m = true.
Proof.
  intros H1 H2. num_cases.
  eapply Qlt_le_trans; eassumption.
Qed.

Lemma num_not_above (a x m : number) :
  num_gtb a x = false -> num_geb m x = true -> num_gtb a m = false.
Proof.
  intros H1 H2. num_cases.
  eapply Qle_trans; eassumption.
Qed.

Lemma num_geb_trans (a x y : number) :
  num_geb a x = true -> num_geb x y = true -> num_geb a y = true.
Proof.
  intros H1 H2. num_cases.
  eapply Qle_trans; eassumption.
Qed.

Lemma Qred_inject_Z (k : Z) : Qred (inject_Z k) = inject_Z k.
Proof.
  unfold Qred, inject_Z.
  pose proof (Z.ggcd_gcd k 1) as Hg.
  pose proof (Z.ggcd_correct_divisors k 1) as Hd.
  change (Z.pos 1) with 1.
  destruct (Z.ggcd k 1) as [g [aa bb]]. simpl in *.
  rewrite Z.gcd_1_r in Hg. subst g. destruct Hd as [Ha Hb].
  assert (bb = 1) by lia. subst bb.
  f_equal. lia.
Qed.

(** An exact quotient is the integer itself. *)
Lemma num_div_exact (k n : Z) :
  0 < n -> num_div (k * n) n = num_of_Z k.
Proof.
  intros Hn. unfold num_div, num_of_Z.
  destruct (Z.eqb_spec n 0); [lia |].
  destruct (Z.ltb_spec 0 n); [| lia].
  f_equal.
  rewrite <- (Qred_inject_Z k).
  apply Qred_complete.
  unfold Qeq, inject_Z; simpl.
  rewrite Z2Pos.id by lia. lia.
Qed.

(** ** The scan of [determineRiskLevel] *)

Lemma scan_count (fs : object FactorResult) : forall st : Scan,
  highFactorCount (fold_left scan_step fs st) = highFactorCount st + count_high fs.
Proof.
  unfold count_high.
  induction fs as [| [name data] fs IH]; intros st; simpl.
  - lia.
  - rewrite IH. unfold scan_step.
    destruct (num_geb (average data) (num_of_Z 3)); simpl.
    + destruct (num_gtb (average data) (maxFactorScore st)); simpl; lia.
    + lia.
Qed.

Lemma count_high_in (fs : object FactorResult) (e : string * FactorResult) :
  In e fs -> num_geb (average (snd e)) (num_of_Z 3) = true -> 1 <= count_high fs.
Proof.
  intros Hin He. unfold count_high.
  assert (H : In e (filter (fun e => num_geb (average (snd e)) (num_of_Z 3)) fs))
    by (apply filter_In; now split).
  destruct (filter _ fs); [contradiction | simpl; lia].
Qed.

(** Without a factor of average 3 or more the loop changes nothing. *)
Lemma scan_no_high (fs : object FactorResult) : forall st : Scan,
  count_high fs = 0 -> fold_left scan_step fs st = st.
Proof.
  unfold count_high.
  induction fs as [| [name data] fs IH]; intros st H; simpl in *.
  - reflexivity.
  - destruct (num_geb (average data) (num_of_Z 3)) eqn:E; simpl in H; [lia |].
    now rewrite IH.
Qed.

(** Once the maximum is recorded no later factor replaces the name. *)
Lemma scan_keeps_name (x : number) (fs : object FactorResult) : forall st : Scan,
  is_max_average x fs ->
  num_geb (maxFactorScore st) x = true ->
  maxFactorName (fold_left scan_step fs st) = maxFactorName st.
Proof.
  induction fs as [| [name data] fs IH]; intros st Hmax Hst; cbn [fold_left].
  - reflexivity.
  - inversion Hmax as [| e l He Hl]; subst. simpl in He.
    pose proof (num_not_above _ _ _ He Hst) as Hno.
    unfold scan_step at 2.
    destruct (num_geb (average data) (num_of_Z 3)).
    + rewrite Hno. rewrite IH; [reflexivity | exact Hl | exact Hst].
    + now apply IH.
Qed.

(** The name recorded is that of the first factor reaching the maximum. *)
Lemma scan_finds_first (x : number) (name : string) (fs : object FactorResult) :
  forall st : Scan,
  num_geb x (num_of_Z 3) = true ->
  is_max_average x fs ->
  first_with_average x fs = Some name ->
  num_gtb x (maxFactorScore st) = true ->
  maxFactorName (fold_left scan_step fs st) = name.
Proof.
  unfold first_with_average.
  induction fs as [| [n data] fs IH]; intros st Hx Hmax Hfirst Hst;
    cbn [fold_left]; simpl in Hfirst.
  - discriminate.
  - inversion Hmax as [| e l He Hl]; subst. simpl in He.
    destruct (num_geb (average data) x && num_geb x (average data)) eqn:Eq.
    + simpl in Hfirst. injection Hfirst as ->.
      apply andb_true_iff in Eq. destruct Eq as [Hge Hle].
      unfold scan_step at 2.
      rewrite (num_geb_trans _ _ _ Hge Hx), (num_above_old _ _ _ Hge Hst).
      rewrite (scan_keeps_name x); [reflexivity | exact Hl | exact Hge].
    + unfold scan_step at 2.
      destruct (num_geb (average data) (num_of_Z 3)) eqn:E3.
      * destruct (num_gtb (average data) (maxFactorScore st)) eqn:Egt.
        -- apply IH; try assumption. simpl.
           now apply num_below_max.
        -- now apply IH.
      * now apply IH.
Qed.

Lemma first_with_average_in (x : number) (name : string) (fs : object FactorResult) :
  first_with_average x fs = Some name ->
  exists e, In e fs /\ fst e = name /\ num_geb (average (snd e)) x = true.
Proof.
  unfold first_with_average.
  destruct (find _ fs) as [e |] eqn:E; simpl; [| discriminate].
  intros [= <-]. apply find_some in E. destruct E as [Hin Ht].
  apply andb_true_iff in Ht. exists e. tauto.
Qed.

(** ** Checking a concrete table and a concrete vector *)

Lemma distinctb_NoDup (l : list string) : distinctb l = true -> NoDup l.
Proof.
  induction l as [| x l IH]; simpl; intros H.
  - constructor.
  - apply andb_true_iff in H. destruct H as [Hx Hl].
    constructor; [| now apply IH].
    intros Hin. apply negb_true_iff in Hx.
    assert (existsb (String.eqb x) l = true); [| congruence].
    apply existsb_exists. exists x. split; [exact Hin | apply String.eqb_refl].
Qed.

Lemma item_ids_NoDup : NoDup item_ids.
Proof.
  unfold item_ids. apply Finite.Injective_map_NoDup.
  - intros x y. apply Nat2Z.inj.
  - apply seq_NoDup.
Qed.

Lemma table_okb_sound (t : FactorIndexMap) :
  table_okb t = true ->
  nine_factors t /\ indices_nonempty t /\ indices_in_range t /\ partitions_items t.
Proof.
  unfold table_okb. rewrite !andb_true_iff.
  intros [[[[[Hlen Hdis] Hne] Hrg] Hin] Hcnt].
  apply Nat.eqb_eq in Hlen, Hcnt.
  split; [| split; [| split]].
  - split; [exact Hlen | now apply distinctb_NoDup].
  - apply Forall_forall. intros e He.
    rewrite forallb_forall in Hne. specialize (Hne e He).
    destruct (snd e); [discriminate | discriminate].
  - apply Forall_forall. intros e He. apply Forall_forall. intros i Hi.
    rewrite forallb_forall in Hrg. specialize (Hrg e He).
    rewrite forallb_forall in Hrg. specialize (Hrg i Hi).
    apply andb_true_iff in Hrg. destruct Hrg as [H1 H2].
    apply Z.leb_le in H1, H2. lia.
  - unfold partitions_items. symmetry.
    apply NoDup_Permutation_bis.
    + apply item_ids_NoDup.
    + rewrite Hcnt. unfold item_ids. rewrite length_map, length_seq. lia.
    + intros i Hi. rewrite forallb_forall in Hin. specialize (Hin i Hi).
      apply existsb_exists in Hin. destruct Hin as (j & Hj & Heq).
      apply Z.eqb_eq in Heq. now subst j.
Qed.

Lemma valid_answersb_sound (answers : array) :
  valid_answersb answers = true -> valid_answers answers.
Proof.
  unfold valid_answersb, valid_answers. rewrite andb_true_iff.
  intros [Hlen Hall]. apply Nat.eqb_eq in Hlen. split; [exact Hlen |].
  apply Forall_forall. intros a Ha.
  rewrite forallb_forall in Hall. specialize (Hall a Ha).
  destruct a as [z |]; [| discriminate].
  apply andb_true_iff in Hall. destruct Hall as [H1 H2].
  apply Z.leb_le in H1, H2. exists z. split; [reflexivity | lia].
Qed.

Lemma questions_table_ok :
  nine_factors factorIndices_of_questions
  /\ indices_nonempty factorIndices_of_questions
  /\ indices_in_range factorIndices_of_questions
  /\ partitions_items factorIndices_of_questions.
Proof. apply table_okb_sound. vm_compute. reflexivity. Qed.

(** ** The risk classification *)

(** C1: for every answer vector the level and the professional-help flag of
    the result follow the decision table read top to bottom, the first match
    winning: Severe at a total of 250 or three high factors, Moderate at 200
    or two, Mild at 160 or one, otherwise None/Normal; a high factor is one
    whose average is at least 3. *)
Theorem risk_decision_table (factorIndices : FactorIndexMap) (now : string)
  (answers : array) :
  let r := calculateResult factorIndices now answers in
  let n := count_high (factors r) in
  (level (riskLevel r), recommendProfessional (riskLevel r))
  = if (250 <=? totalScore r) || (3 <=? n) then ("重度", true)
    else if (200 <=? totalScore r) || (2 <=? n) then ("中度", true)
    else if (160 <=? totalScore r) || (1 <=? n) then ("轻度", false)
    else ("无明显", false).
Proof.
  cbv zeta. cbn [calculateResult totalScore factors riskLevel].
  unfold determineRiskLevel, scan_factors.
  rewrite scan_count. cbn [scan_init highFactorCount]. rewrite Z.add_0_l.
  set (total := fold_left _ answers 0).
  set (n := count_high _).
  destruct ((250 <=? total) || (3 <=? n)); [reflexivity |].
  destruct ((200 <=? total) || (2 <=? n)); [reflexivity |].
  destruct ((160 <=? total) || (1 <=? n)); reflexivity.
Qed.

(** C2, on the code: with items 1..20 answered 2 and the others 3 the
    vector is valid, the total is exactly 250, no factor averages 3 or more
    and the level is Severe, yet [mainIssue] is the empty string with which
    [maxFactorName] starts, not the [null] that the last branch of
    [determineRiskLevel] returns when there is no main issue. *)
Lemma main_issue_not_null_at_250 :
  valid_answers score_250
  /\ (let r := calculateResult factorIndices_of_questions "" score_250 in
      count_high (factors r) = 0
      /\ totalScore r = 250
      /\ level (riskLevel r) = "重度"
      /\ mainIssue (riskLevel r) = Some ""
      /\ mainIssue (riskLevel r) <> None).
Proof.
  split.
  - apply valid_answersb_sound. vm_compute. reflexivity.
  - vm_compute. repeat split; discriminate.
Qed.

(** What the three upper branches report without a high factor: the
    initial empty string once the total reaches 160; [null] comes from the
    last branch only. *)
Theorem main_issue_empty_without_high_factor (factorIndices : FactorIndexMap)
  (now : string) (answers : array) :
  let r := calculateResult factorIndices now answers in
  count_high (factors r) = 0 ->
  (160 <= totalScore r -> mainIssue (riskLevel r) = Some "")
  /\ (totalScore r < 160 -> mainIssue (riskLevel r) = None).
Proof.
  cbv zeta. cbn [calculateResult totalScore factors riskLevel].
  set (total := fold_left _ answers 0).
  intros Hn.
  unfold determineRiskLevel, scan_factors.
  rewrite (scan_no_high _ _ Hn). cbn [scan_init highFactorCount maxFactorName].
  rewrite !orb_false_r.
  split; intros Ht.
  - destruct (Z.leb_spec 250 total); [reflexivity |].
    destruct (Z.leb_spec 200 total); [reflexivity |].
    destruct (Z.leb_spec 160 total); [reflexivity | lia].
  - destruct (Z.leb_spec 250 total); [lia |].
    destruct (Z.leb_spec 200 total); [lia |].
    destruct (Z.leb_spec 160 total); [lia | reflexivity].
Qed.

Lemma main_issue_empty_witness :
  let r := calculateResult factorIndices_of_questions "" all_two in
  count_high (factors r) = 0 /\ 160 <= totalScore r
  /\ mainIssue (riskLevel r) = Some "".
Proof.
  cbv zeta.
  assert (H0 : count_high
                 (factors (calculateResult factorIndices_of_questions "" all_two)) = 0)
    by (vm_compute; reflexivity).
  assert (H1 : 160 <= totalScore (calculateResult factorIndices_of_questions "" all_two))
    by (vm_compute; discriminate).
  split; [exact H0 | split; [exact H1 |]].
  exact (proj1 (main_issue_empty_without_high_factor
                  factorIndices_of_questions "" all_two H0) H1).
Defined.

(** ** The partition invariant *)

(** C3: for every valid answer vector (90 entries, each in 0..4) and a table
    whose index sets partition the ids 1..90, the total score equals the sum
    of the scores of the factors. *)
Theorem total_is_sum_of_factor_scores (factorIndices : FactorIndexMap)
  (now : string) (answers : array) :
  nine_factors factorIndices ->
  partitions_items factorIndices ->
  valid_answers answers ->
  let r := calculateResult factorIndices now answers in
  totalScore r = sumZ (map (fun e => score (snd e)) (factors r)).
Proof.
  intros [_ Hnd] Hpart [Hlen _]. cbv zeta.
  cbn [calculateResult totalScore factors].
  rewrite build_factors_map by exact Hnd.
  rewrite total_is_sum, map_map.
  rewrite <- (sum_item_ids answers Hlen).
  rewrite <- (sumZ_perm _ _ (Permutation_map _ Hpart)).
  rewrite sumZ_concat_map, map_map.
  f_equal. apply map_ext. intros [name idx]. cbn [factor_entry fst snd].
  symmetry. apply factor_score_is_sum.
Qed.

Lemma total_is_sum_of_factor_scores_witness :
  let r := calculateResult factorIndices_of_questions "" score_250 in
  totalScore r = sumZ (map (fun e => score (snd e)) (factors r)).
Proof.
  apply (total_is_sum_of_factor_scores factorIndices_of_questions "" score_250).
  - exact (proj1 questions_table_ok).
  - exact (proj2 (proj2 (proj2 questions_table_ok))).
  - apply valid_answersb_sound. vm_compute. reflexivity.
Defined.

(** ** The main issue *)

Lemma num_high_positive (x : number) :
  num_geb x (num_of_Z 3) = true -> num_gtb x (num_of_Z 0) = true.
Proof.
  intros H. num_cases.
  eapply Qlt_le_trans; [| eassumption]. reflexivity.
Qed.

(** With a high factor present, [determineRiskLevel] reports the name the
    scan recorded. *)
Lemma main_issue_is_scanned_name (total : Z) (fs : object FactorResult) :
  1 <= count_high fs ->
  mainIssue (determineRiskLevel total fs) = Some (maxFactorName (scan_factors fs)).
Proof.
  intros Hn. unfold determineRiskLevel.
  assert (Hc : highFactorCount (scan_factors fs) = count_high fs).
  { unfold scan_factors. rewrite scan_count. reflexivity. }
  rewrite Hc.
  destruct ((250 <=? total) || (3 <=? count_high fs)); [reflexivity |].
  destruct ((200 <=? total) || (2 <=? count_high fs)); [reflexivity |].
  destruct (Z.leb_spec 1 (count_high fs)); [| lia].
  rewrite orb_true_r. reflexivity.
Qed.

Lemma main_issue_first_max (total : Z) (fs : object FactorResult)
  (x : number) (name : string) :
  num_geb x (num_of_Z 3) = true ->
  is_max_average x fs ->
  first_with_average x fs = Some name ->
  mainIssue (determineRiskLevel total fs) = Some name.
Proof.
  intros Hx Hmax Hfirst.
  destruct (first_with_average_in _ _ _ Hfirst) as (e & Hin & _ & Hge).
  rewrite main_issue_is_scanned_name.
  - f_equal. unfold scan_factors.
    apply (scan_finds_first x); try assumption.
    now apply num_high_positive.
  - apply (count_high_in fs e Hin). exact (num_geb_trans _ _ _ Hge Hx).
Qed.

(** What the all-four and all-zero vectors give at any item id. *)
Lemma all_four_get (i : Z) :
  1 <= i <= 90 -> orZero (array_get all_four (i - 1)) = 4.
Proof.
  intros Hi. unfold array_get, all_four.
  destruct (Z.ltb_spec (i - 1) 0); [lia |].
  rewrite nth_error_repeat by lia. reflexivity.
Qed.

Lemma all_zero_get (i : Z) : orZero (array_get all_zero i) = 0.
Proof.
  unfold array_get, all_zero.
  destruct (i <? 0); [reflexivity |].
  destruct (nth_error _ (Z.to_nat i)) as [a |] eqn:E; [| reflexivity].
  apply nth_error_In, repeat_spec in E. now subst a.
Qed.

Lemma sumZ_const (A : Type) (f : A -> Z) (c : Z) (l : list A) :
  Forall (fun x => f x = c) l -> sumZ (map f l) = c * Z.of_nat (List.length l).
Proof.
  induction 1 as [| x l Hx _ IH].
  - simpl. lia.
  - cbn [map List.length]. rewrite sumZ_cons, IH, Hx. lia.
Qed.

Lemma nonempty_length (A : Type) (l : list A) :
  l <> [] -> 0 < Z.of_nat (List.length l).
Proof. destruct l; [congruence | simpl; lia]. Qed.

Lemma all_four_factor (indices : list Z) :
  indices <> [] -> Forall (fun i => 1 <= i <= 90) indices ->
  average (factorResult all_four indices) = num_of_Z 4.
Proof.
  intros Hne Hrg. unfold factorResult. cbn [average].
  rewrite (fold_left_sum Z (fun x => x)), map_id, Z.add_0_l.
  rewrite (sumZ_const _ _ 4).
  - apply num_div_exact. now apply nonempty_length.
  - eapply Forall_impl; [| exact Hrg]. intros i Hi. now apply all_four_get.
Qed.

Lemma all_zero_factor (indices : list Z) :
  indices <> [] -> average (factorResult all_zero indices) = num_of_Z 0.
Proof.
  intros Hne. unfold factorResult. cbn [average].
  rewrite (fold_left_sum Z (fun x => x)), map_id, Z.add_0_l.
  rewrite (sumZ_const _ _ 0).
  - apply num_div_exact. now apply nonempty_length.
  - apply Forall_forall. intros i _. apply all_zero_get.
Qed.

Lemma count_high_all (fs : object FactorResult) :
  Forall (fun e => num_geb (average (snd e)) (num_of_Z 3) = true) fs ->
  count_high fs = Z.of_nat (List.length fs).
Proof.
  intros H. unfold count_high. f_equal. f_equal.
  induction H as [| e l He _ IH]; simpl; [reflexivity |].
  rewrite He. simpl. now f_equal.
Qed.

Lemma count_high_none (fs : object FactorResult) :
  Forall (fun e => num_geb (average (snd e)) (num_of_Z 3) = false) fs ->
  count_high fs = 0.
Proof.
  intros H. unfold count_high.
  induction H as [| e l He _ IH]; simpl; [reflexivity |].
  rewrite He. exact IH.
Qed.

(** C4: whenever some factor of average 3 or more attains the greatest
    average, alone or tied with others, [mainIssue] is the first factor with
    that average in the order of the factor table; in particular, for the
    all-four vector and a table of nine factors with non-empty index lists
    inside 1..90, the total is 360, every average is 4, all 9 factors are
    high, the level is Severe with professional help recommended, and
    [mainIssue] is the first factor of the table. *)
Theorem main_issue_first_in_table_order (factorIndices : FactorIndexMap)
  (now : string) :
  (forall (answers : array) (x : number) (name : string),
      let r := calculateResult factorIndices now answers in
      num_geb x (num_of_Z 3) = true ->
      is_max_average x (factors r) ->
      first_with_average x (factors r) = Some name ->
      mainIssue (riskLevel r) = Some name)
  /\ (nine_factors factorIndices ->
      indices_nonempty factorIndices ->
      indices_in_range factorIndices ->
      let r := calculateResult factorIndices now all_four in
      totalScore r = 360
      /\ Forall (fun e => average (snd e) = num_of_Z 4) (factors r)
      /\ count_high (factors r) = 9
      /\ level (riskLevel r) = "重度"
      /\ recommendProfessional (riskLevel r) = true
      /\ (exists first, hd_error factorIndices = Some first
                        /\ mainIssue (riskLevel r) = Some (fst first))).
Proof.
  split.
  - intros answers x name. cbv zeta. cbn [calculateResult factors riskLevel].
    apply main_issue_first_max.
  - intros [Hlen Hnd] Hne Hrg. cbv zeta.
    cbn [calculateResult totalScore factors riskLevel].
    rewrite build_factors_map by exact Hnd.
    change (fold_left (fun sum a => sum + orZero a) all_four 0) with 360.
    assert (Havg : Forall (fun e => average (snd e) = num_of_Z 4)
                     (map (factor_entry all_four) factorIndices)).
    { apply Forall_forall. intros e He. apply in_map_iff in He.
      destruct He as (entry & <- & Hin). cbn [factor_entry snd].
      unfold indices_nonempty, indices_in_range in Hne, Hrg.
      rewrite Forall_forall in Hne, Hrg.
      apply all_four_factor; [now apply Hne | now apply Hrg]. }
    assert (Hcount : count_high (map (factor_entry all_four) factorIndices) = 9).
    { rewrite count_high_all.
      - rewrite length_map, Hlen. reflexivity.
      - eapply Forall_impl; [| exact Havg]. intros e ->. reflexivity. }
    split; [reflexivity |]. split; [exact Havg |]. split; [exact Hcount |].
    split; [reflexivity |]. split; [reflexivity |].
    destruct factorIndices as [| first rest]; [discriminate |].
    exists first. split; [reflexivity |].
    apply (main_issue_first_max _ _ (num_of_Z 4)).
    + reflexivity.
    + eapply Forall_impl; [| exact Havg]. intros e ->. reflexivity.
    + inversion Havg as [| e l He _]; subst.
      unfold first_with_average. cbn [map find].
      cbn [factor_entry snd] in He |- *. rewrite He. reflexivity.
Qed.

Lemma main_issue_first_in_table_order_witness :
  let r := calculateResult factorIndices_of_questions "" all_four in
  mainIssue (riskLevel r) = Some "躯体化"
  /\ totalScore r = 360
  /\ count_high (factors r) = 9.
Proof.
  cbv zeta.
  pose proof (main_issue_first_in_table_order factorIndices_of_questions "")
    as [Htie Hfour].
  split.
  - apply (Htie all_four (num_of_Z 4) "躯体化").
    + reflexivity.
    + vm_compute. repeat constructor.
    + vm_compute. reflexivity.
  - destruct questions_table_ok as (Hnine & Hne & Hrg & _).
    destruct (Hfour Hnine Hne Hrg) as (Htot & _ & Hcount & _).
    split; [exact Htot | exact Hcount].
Defined.

(** ** The all-zero vector *)

(** C5: for the all-zero vector of 90 answers (and a table whose factors
    each have at least one item) the total is 0, no item is positive, every
    factor average is 0, the level is None/Normal, [mainIssue] is [null] and
    professional help is not recommended. *)
Theorem all_zero_result (factorIndices : FactorIndexMap) (now : string) :
  indices_nonempty factorIndices ->
  let r := calculateResult factorIndices now all_zero in
  totalScore r = 0
  /\ positiveItems r = 0%nat
  /\ Forall (fun e => average (snd e) = num_of_Z 0) (factors r)
  /\ level (riskLevel r) = "无明显"
  /\ mainIssue (riskLevel r) = None
  /\ recommendProfessional (riskLevel r) = false.
Proof.
  intros Hne. cbv zeta.
  cbn [calculateResult totalScore positiveItems factors riskLevel].
  change (fold_left (fun sum a => sum + orZero a) all_zero 0) with 0.
  assert (Havg : Forall (fun e => average (snd e) = num_of_Z 0)
                   (build_factors factorIndices all_zero)).
  { apply Forall_forall. intros e He.
    destruct (build_factors_in _ _ _ He) as (entry & Hin & ->).
    cbn [factor_entry snd]. apply all_zero_factor.
    unfold indices_nonempty in Hne. rewrite Forall_forall in Hne.
    now apply Hne. }
  assert (Hcount : count_high (build_factors factorIndices all_zero) = 0).
  { apply count_high_none.
    eapply Forall_impl; [| exact Havg]. intros e ->. reflexivity. }
  split; [reflexivity |]. split; [reflexivity |]. split; [exact Havg |].
  unfold determineRiskLevel, scan_factors.
  rewrite (scan_no_high _ _ Hcount). cbn. repeat split; reflexivity.
Qed.

Lemma all_zero_result_witness :
  let r := calculateResult factorIndices_of_questions "" all_zero in
  totalScore r = 0 /\ level (riskLevel r) = "无明显" /\ mainIssue (riskLevel r) = None.
Proof.
  cbv zeta.
  destruct questions_table_ok as (_ & Hne & _).
  destruct (all_zero_result factorIndices_of_questions "" Hne)
    as (Htot & _ & _ & Hlevel & Hmain & _).
  split; [exact Htot | split; [exact Hlevel | exact Hmain]].
Defined.

(** ** The factor interpretation *)

(** The qualitative level depends on the average alone, for every name. *)
Lemma interpretation_level (factorName : string) (averageScore : number) :
  let i := getFactorInterpretation factorName averageScore in
  (num_geb averageScore (num_of_Z 3) = true ->
   fi_level i = "偏高" /\ fi_status i = "warning")
  /\ (num_geb averageScore (num_of_Z 3) = false ->
      num_geb averageScore (num_of_Z 2) = true ->
      fi_level i = "中等" /\ fi_status i = "attention")
  /\ (num_geb averageScore (num_of_Z 3) = false ->
      num_geb averageScore (num_of_Z 2) = false ->
      fi_level i = "正常" /\ fi_status i = "normal").
Proof.
  cbv zeta. unfold getFactorInterpretation. cbn [fi_level fi_status].
  repeat split; intros; repeat match goal with H : _ = _ |- _ => rewrite H end;
    reflexivity.
Qed.

(** A name that is neither one of the nine nor a property of
    [Object.prototype] gets the generic interpretation. *)
Lemma interpretation_fallback (factorName : string) (averageScore : number) :
  obj_get interpretations factorName = None ->
  existsb (String.eqb factorName) objectPrototypeProps = false ->
  getFactorInterpretation factorName averageScore
  = generic_interpretation averageScore.
Proof.
  intros Hown Hproto.
  unfold getFactorInterpretation, interpretations_get.
  rewrite Hown, Hproto. reflexivity.
Qed.

(** C6, at the name [constructor]: it is not one of the nine factors, the
    lookup finds the function inherited from [Object.prototype], which is
    truthy, so the generic interpretation is not used: the result carries a
    level and a status but no description, explanation or suggestions. *)
Theorem interpretation_of_inherited_name :
  obj_get interpretations "constructor" = None
  /\ getFactorInterpretation "constructor" (num_of_Z 0)
     = {| fi_description := None; fi_highScore := None; fi_suggestions := None;
          fi_level := "正常"; fi_status := "normal" |}
  /\ getFactorInterpretation "constructor" (num_of_Z 0)
     <> generic_interpretation (num_of_Z 0).
Proof.
  split; [reflexivity |]. split; [reflexivity |].
  vm_compute. discriminate.
Qed.

(** ** Absent entries and long arrays *)

(** Two arrays that read alike at the indices of a list give it the same
    record. *)
Lemma factorResult_ext (a b : array) (indices : list Z) :
  Forall (fun i => orZero (array_get a (i - 1)) = orZero (array_get b (i - 1)))
         indices ->
  factorResult a indices = factorResult b indices.
Proof.
  intros H. unfold factorResult.
  assert (E : map (fun index => orZero (array_get a (index - 1))) indices
              = map (fun index => orZero (array_get b (index - 1))) indices).
  { apply map_ext_in. rewrite Forall_forall in H. exact H. }
  rewrite E. reflexivity.
Qed.

Lemma build_factors_ext (a b : array) (t : FactorIndexMap) :
  Forall (fun e : string * list Z =>
            factorResult a (snd e) = factorResult b (snd e)) t ->
  build_factors t a = build_factors t b.
Proof.
  unfold build_factors. generalize (@nil (string * FactorResult)).
  induction t as [| [name idx] t IH]; intros acc H; simpl.
  - reflexivity.
  - inversion H as [| e l He Hl]; subst. simpl in He.
    rewrite He. now apply IH.
Qed.

Lemma ninety_one_factor (indices : list Z) :
  Forall (fun i => 1 <= i <= 90) indices ->
  score (factorResult ninety_one indices) = 0.
Proof.
  intros Hrg. rewrite factor_score_is_sum.
  rewrite (sumZ_const _ _ 0); [lia |].
  eapply Forall_impl; [| exact Hrg]. intros i Hi.
  rewrite <- array_get_firstn by exact Hi.
  change (firstn 90 ninety_one) with all_zero. apply all_zero_get.
Qed.

(** C9: for an array of more than 90 entries (and a table whose indices lie
    in 1..90) the total is the sum of all entries, those after the 90th
    included, the total average divides it by 90, and the factor records are
    those of the first 90 entries; the total can then exceed the sum of the
    factor scores, as it does for 90 zeros followed by a 1. *)
Theorem over_length_total (factorIndices : FactorIndexMap) (now : string)
  (answers : array) :
  (90 < List.length answers)%nat ->
  indices_in_range factorIndices ->
  let r := calculateResult factorIndices now answers in
  totalScore r = sumZ (map orZero answers)
  /\ totalScore r
     = totalScore (calculateResult factorIndices now (firstn 90 answers))
       + sumZ (map orZero (skipn 90 answers))
  /\ totalAverage r = num_div (totalScore r) 90
  /\ factors r = factors (calculateResult factorIndices now (firstn 90 answers))
  /\ (let long := calculateResult factorIndices now ninety_one in
      (90 < List.length ninety_one)%nat
      /\ sumZ (map (fun e => score (snd e)) (factors long)) < totalScore long).
Proof.
  intros _ Hrg. cbv zeta.
  cbn [calculateResult totalScore totalAverage factors].
  rewrite !total_is_sum.
  split; [reflexivity |]. split; [| split; [reflexivity |]]; [| split].
  - rewrite <- sumZ_app, <- map_app, firstn_skipn. reflexivity.
  - symmetry. apply build_factors_ext.
    unfold indices_in_range in Hrg.
    eapply Forall_impl; [| exact Hrg]. intros e He.
    apply factorResult_ext.
    eapply Forall_impl; [| exact He]. intros i Hi.
    now rewrite array_get_firstn.
  - split; [simpl; lia |].
    rewrite (sumZ_const _ _ 0).
    + vm_compute. reflexivity.
    + apply Forall_forall. intros e He.
      destruct (build_factors_in _ _ _ He) as (entry & Hin & ->).
      cbn [factor_entry snd]. apply ninety_one_factor.
      unfold indices_in_range in Hrg. rewrite Forall_forall in Hrg.
      now apply Hrg.
Qed.

Lemma over_length_total_witness :
  let r := calculateResult factorIndices_of_questions "" ninety_one in
  (90 < List.length ninety_one)%nat
  /\ totalScore r = 1
  /\ sumZ (map (fun e => score (snd e)) (factors r)) < totalScore r.
Proof.
  cbv zeta.
  assert (Hlen : (90 < List.length ninety_one)%nat) by (simpl; lia).
  destruct questions_table_ok as (_ & _ & Hrg & _).
  destruct (over_length_total factorIndices_of_questions "" ninety_one Hlen Hrg)
    as (Htot & _ & _ & _ & _ & Hlt).
  split; [exact Hlen | split; [exact Htot | exact Hlt]].
Defined.

(** ** Reading a result from the URL *)

(** C10: for every fragment, and whatever the two platform functions do,
    [parseResultFromURL] ends normally: with [null] when the fragment is
    empty or does not start with [#result=], with [null] again when base64
    decoding or JSON parsing of the payload throws, and with the parsed value
    otherwise. *)
Theorem parse_result_never_raises
  (atob : string -> completion string)
  (JSON_parse : string -> completion json) (hash : string) (out : console) :
  exists (v : json) (out' : console),
    parseResultFromURL atob JSON_parse hash out = (Normal v, out')
    /\ (hash = "" \/ String.prefix "#result=" hash = false -> v = JNull)
    /\ (String.prefix "#result=" hash = true ->
        let payload := String.substring 8 (String.length hash - 8) hash in
        (forall e, atob payload = Throw e -> v = JNull)
        /\ (forall s e, atob payload = Normal s -> JSON_parse s = Throw e ->
                        v = JNull)
        /\ (forall s w, atob payload = Normal s -> JSON_parse s = Normal w ->
                        v = w)).
Proof.
  unfold parseResultFromURL.
  destruct (String.eqb_spec hash "") as [-> | Hne].
  - exists JNull, out. split; [reflexivity |]. split; [reflexivity |].
    simpl. discriminate.
  - cbn [negb andb].
    destruct (String.prefix "#result=" hash) eqn:Hp.
    + set (payload := String.substring 8 (String.length hash - 8) hash).
      unfold try_catch, bind, call, console_error, ret.
      destruct (atob payload) as [s | e] eqn:Ha.
      * destruct (JSON_parse s) as [w | e] eqn:Hj.
        -- exists w, out. split; [reflexivity |].
           split; [intros [H | H]; [contradiction | discriminate] |].
           intros _. cbv zeta. repeat split; intros; congruence.
        -- eexists JNull, _. split; [reflexivity |].
           split; [reflexivity |].
           intros _. cbv zeta. repeat split; intros; congruence.
      * eexists JNull, _. split; [reflexivity |].
        split; [reflexivity |].
        intros _. cbv zeta. repeat split; intros; congruence.
    + exists JNull, out. split; [reflexivity |]. split; [reflexivity |].
      discriminate.
Qed.

Lemma parse_result_never_raises_witness :
  exists v : json,
    fst (parseResultFromURL atob_demo JSON_parse_demo "#result=NDI=" []) = Normal v
    /\ v = JNumber (num_of_Z 42).
Proof.
  destruct (parse_result_never_raises atob_demo JSON_parse_demo "#result=NDI=" [])
    as (v & out' & Heq & _ & Hp).
  exists v. split.
  - rewrite Heq. reflexivity.
  - destruct (Hp eq_refl) as (_ & _ & Hv).
    exact (Hv "42" (JNumber (num_of_Z 42)) eq_refl eq_refl).
Defined.

(** * Further properties of the calculator *)

(** ** Quotients against an integer bound *)

Lemma num_div_geb (s n k : Z) :
  0 < n -> num_geb (num_div s n) (num_of_Z k) = true <-> k * n <= s.
Proof.
  intros Hn. unfold num_div, num_of_Z.
  destruct (Z.eqb_spec n 0); [lia |].
  destruct (Z.ltb_spec 0 n); [| lia].
  cbn [num_geb]. rewrite Qle_bool_iff, Qred_correct.
  unfold Qle, inject_Z; simpl. rewrite Z2Pos.id by lia. lia.
Qed.

Lemma num_div_leb (s n k : Z) :
  0 < n -> num_geb (num_of_Z k) (num_div s n) = true <-> s <= k * n.
Proof.
  intros Hn. unfold num_div, num_of_Z.
  destruct (Z.eqb_spec n 0); [lia |].
  destruct (Z.ltb_spec 0 n); [| lia].
  cbn [num_geb]. rewrite Qle_bool_iff, Qred_correct.
  unfold Qle, inject_Z; simpl. rewrite Z2Pos.id by lia. lia.
Qed.

Lemma num_div_zero_geb (s k : Z) :
  num_geb (num_div s 0) (num_of_Z k) = true <-> 0 < s.
Proof.
  unfold num_div. cbn [Z.eqb].
  destruct (Z.eqb_spec s 0) as [-> | Hs]; [simpl; split; [discriminate | lia] |].
  destruct (Z.ltb_spec 0 s); simpl; split; try reflexivity; try lia; discriminate.
Qed.

(** Being high is monotone in the sum, for any number of items. *)
Lemma high_monotone (s s' : Z) (n : nat) :
  s <= s' ->
  num_geb (num_div s (Z.of_nat n)) (num_of_Z 3) = true ->
  num_geb (num_div s' (Z.of_nat n)) (num_of_Z 3) = true.
Proof.
  intros Hs. destruct n as [| n].
  - change (Z.of_nat 0) with 0. rewrite !num_div_zero_geb. lia.
  - rewrite !num_div_geb by lia. lia.
Qed.

(** ** Bounds for valid vectors *)

Lemma valid_get (answers : array) (i : Z) :
  valid_answers answers -> 0 <= orZero (array_get answers i) <= 4.
Proof.
  intros [_ Hall]. unfold array_get.
  destruct (i <? 0); [simpl; lia |].
  destruct (nth_error answers (Z.to_nat i)) as [a |] eqn:E; [| simpl; lia].
  apply nth_error_In in E. rewrite Forall_forall in Hall.
  destruct (Hall a E) as (z & -> & Hz). exact Hz.
Qed.

Lemma sumZ_bounds (A : Type) (f : A -> Z) (lo hi : Z) (l : list A) :
  Forall (fun x => lo <= f x <= hi) l ->
  lo * Z.of_nat (List.length l) <= sumZ (map f l) <= hi * Z.of_nat (List.length l).
Proof.
  induction 1 as [| x l Hx _ IH].
  - simpl. lia.
  - cbn [map List.length]. rewrite sumZ_cons. lia.
Qed.

Lemma filter_length_le (A : Type) (f : A -> bool) (l : list A) :
  (List.length (filter f l) <= List.length l)%nat.
Proof.
  induction l as [| x l IH]; simpl; [lia |].
  destruct (f x); simpl; lia.
Qed.

(** X1: for a valid vector the total lies in 0..360, at most 90 items are
    positive, and every factor, whatever its index list, has a score between
    0 and 4 times its item count and, when it has an item, an average between
    0 and 4. *)
Theorem valid_vector_bounds (factorIndices : FactorIndexMap) (now : string)
  (answers : array) :
  valid_answers answers ->
  let r := calculateResult factorIndices now answers in
  0 <= totalScore r <= 360
  /\ (positiveItems r <= 90)%nat
  /\ Forall (fun e =>
               0 <= score (snd e) <= 4 * itemCount (snd e)
               /\ (itemCount (snd e) <> 0 ->
                   num_geb (average (snd e)) (num_of_Z 0) = true
                   /\ num_geb (num_of_Z 4) (average (snd e)) = true))
            (factors r).
Proof.
  intros Hv. cbv zeta. cbn [calculateResult totalScore positiveItems factors].
  destruct Hv as [Hlen Hall]. split; [| split].
  - rewrite total_is_sum.
    assert (H : Forall (fun a => 0 <= orZero a <= 4) answers).
    { eapply Forall_impl; [| exact Hall]. intros a (z & -> & Hz). exact Hz. }
    pose proof (sumZ_bounds _ orZero 0 4 answers H) as Hb.
    rewrite Hlen in Hb. lia.
  - rewrite <- Hlen. apply filter_length_le.
  - apply Forall_forall. intros e He.
    destruct (build_factors_in _ _ _ He) as ([name idx] & _ & ->).
    cbn [factor_entry snd].
    assert (Hs : 0 * Z.of_nat (List.length idx)
                 <= score (factorResult answers idx)
                 <= 4 * Z.of_nat (List.length idx)).
    { rewrite factor_score_is_sum. apply sumZ_bounds.
      apply Forall_forall. intros i _. apply valid_get. now split. }
    split; [cbn [factorResult itemCount] in *; lia |].
    unfold factorResult in *. cbn [itemCount average score] in *.
    intros Hn. split.
    + apply num_div_geb; lia.
    + apply num_div_leb; lia.
Qed.

Lemma valid_vector_bounds_witness :
  let r := calculateResult factorIndices_of_questions "" score_250 in
  0 <= totalScore r <= 360 /\ (positiveItems r <= 90)%nat.
Proof.
  cbv zeta.
  assert (Hv : valid_answers score_250)
    by (apply valid_answersb_sound; vm_compute; reflexivity).
  destruct (valid_vector_bounds factorIndices_of_questions "" score_250 Hv)
    as (Ht & Hp & _).
  split; [exact Ht | exact Hp].
Defined.

(** ** The recorded name is a greatest high factor *)

Lemma num_gtb_irrefl (a : number) : num_gtb a a = false.
Proof.
  destruct a; simpl; try reflexivity.
  apply negb_false_iff, Qle_bool_iff, Qle_refl.
Qed.

Lemma num_not_above_new (a x m : number) :
  num_gtb a m = false -> num_gtb x m = true -> num_gtb a x = false.
Proof.
  intros H1 H2. num_cases.
  eapply Qle_trans; [eassumption |]. now apply Qlt_le_weak.
Qed.

Lemma num_low_not_above (a x : number) :
  num_geb a (num_of_Z 3) = false -> num_geb x (num_of_Z 3) = true ->
  num_gtb a x = false.
Proof.
  intros H1 H2. num_cases.
  apply Qlt_le_weak. eapply Qlt_le_trans; eassumption.
Qed.

Lemma scan_inv_step (st : Scan) (seen : object FactorResult)
  (e : string * FactorResult) :
  scan_inv st seen -> scan_inv (scan_step st e) (seen ++ [e])%list.
Proof.
  intros [Hall Hcase]. destruct e as [name data]. unfold scan_step.
  destruct (num_geb (average data) (num_of_Z 3)) eqn:E3.
  - destruct (num_gtb (average data) (maxFactorScore st)) eqn:Egt.
    + split; cbn [maxFactorScore maxFactorName].
      * apply Forall_app. split.
        -- eapply Forall_impl; [| exact Hall]. intros e' He' Hh.
           exact (num_not_above_new _ _ _ (He' Hh) Egt).
        -- constructor; [| constructor]. intros _. apply num_gtb_irrefl.
      * right. exists (name, data). split; [apply in_or_app; right; now left |].
        repeat split. exact E3.
    + split; cbn [maxFactorScore maxFactorName].
      * apply Forall_app. split; [exact Hall |].
        constructor; [| constructor]. intros _. exact Egt.
      * destruct Hcase as [[H0 _] | (e' & Hin & Hn & Ha & Hh)].
        -- rewrite H0 in Egt. rewrite (num_high_positive _ E3) in Egt.
           discriminate.
        -- right. exists e'. split; [apply in_or_app; now left |].
           repeat split; assumption.
  - split.
    + apply Forall_app. split; [exact Hall |].
      constructor; [| constructor]. cbn [snd]. rewrite E3. discriminate.
    + destruct Hcase as [[H0 Hlow] | (e' & Hin & Hn & Ha & Hh)].
      * left. split; [exact H0 |]. apply Forall_app. split; [exact Hlow |].
        constructor; [exact E3 | constructor].
      * right. exists e'. split; [apply in_or_app; now left |].
        repeat split; assumption.
Qed.

Lemma scan_inv_fold (fs : object FactorResult) :
  forall (st : Scan) (seen : object FactorResult),
  scan_inv st seen -> scan_inv (fold_left scan_step fs st) (seen ++ fs)%list.
Proof.
  induction fs as [| e fs IH]; intros st seen H; cbn [fold_left].
  - now rewrite app_nil_r.
  - replace (seen ++ e :: fs)%list with ((seen ++ [e]) ++ fs)%list
      by (rewrite <- app_assoc; reflexivity).
    apply IH. now apply scan_inv_step.
Qed.

Lemma scan_inv_all (fs : object FactorResult) : scan_inv (scan_factors fs) fs.
Proof.
  unfold scan_factors. apply (scan_inv_fold fs scan_init []).
  split; [constructor |]. left. split; [reflexivity | constructor].
Qed.

(** X3: when at least one factor is high, [mainIssue] is the name of an
    entry of [factors] whose average is at least 3 and which no entry of
    [factors] exceeds. *)
Theorem main_issue_is_greatest_high_factor (factorIndices : FactorIndexMap)
  (now : string) (answers : array) :
  let r := calculateResult factorIndices now answers in
  1 <= count_high (factors r) ->
  exists e, In e (factors r)
            /\ mainIssue (riskLevel r) = Some (fst e)
            /\ num_geb (average (snd e)) (num_of_Z 3) = true
            /\ Forall (fun e' => num_gtb (average (snd e')) (average (snd e)) = false)
                      (factors r).
Proof.
  cbv zeta. cbn [calculateResult factors riskLevel].
  set (fs := build_factors factorIndices answers). intros Hn.
  rewrite main_issue_is_scanned_name by exact Hn.
  destruct (scan_inv_all fs) as [Hall [[_ Hlow] | (e & Hin & Hname & Havg & Hh)]].
  - rewrite (count_high_none fs Hlow) in Hn. lia.
  - exists e. split; [exact Hin |]. split; [now rewrite Hname |].
    split; [exact Hh |].
    rewrite Havg. apply Forall_forall. intros e' He'.
    rewrite Forall_forall in Hall.
    destruct (num_geb (average (snd e')) (num_of_Z 3)) eqn:E.
    + now apply Hall.
    + rewrite <- Havg. now apply num_low_not_above.
Qed.

Lemma main_issue_is_greatest_high_factor_witness :
  exists e,
    In e (factors (calculateResult factorIndices_of_questions "" all_four))
    /\ mainIssue (riskLevel (calculateResult factorIndices_of_questions "" all_four))
       = Some (fst e).
Proof.
  assert (Hn : 1 <= count_high
                      (factors (calculateResult factorIndices_of_questions "" all_four)))
    by (vm_compute; discriminate).
  destruct (main_issue_is_greatest_high_factor
              factorIndices_of_questions "" all_four Hn) as (e & Hin & Hm & _).
  exists e. split; [exact Hin | exact Hm].
Defined.

(** ** Severity as a function of the total and the number of high factors *)

Lemma severity_determine (total : Z) (fs : object FactorResult) :
  severity (determineRiskLevel total fs)
  = if (250 <=? total) || (3 <=? count_high fs) then 3
    else if (200 <=? total) || (2 <=? count_high fs) then 2
    else if (160 <=? total) || (1 <=? count_high fs) then 1
    else 0.
Proof.
  unfold determineRiskLevel, scan_factors.
  rewrite scan_count. cbn [scan_init highFactorCount]. rewrite Z.add_0_l.
  destruct ((250 <=? total) || (3 <=? count_high fs)); [reflexivity |].
  destruct ((200 <=? total) || (2 <=? count_high fs)); [reflexivity |].
  destruct ((160 <=? total) || (1 <=? count_high fs)); reflexivity.
Qed.

Lemma severity_rank_monotone (t t' n n' : Z) :
  t <= t' -> n <= n' ->
  (if (250 <=? t) || (3 <=? n) then 3
   else if (200 <=? t) || (2 <=? n) then 2
   else if (160 <=? t) || (1 <=? n) then 1 else 0)
  <= (if (250 <=? t') || (3 <=? n') then 3
      else if (200 <=? t') || (2 <=? n') then 2
      else if (160 <=? t') || (1 <=? n') then 1 else 0).
Proof.
  intros Ht Hn.
  repeat match goal with
         | |- context [?a <=? ?b] => destruct (Z.leb_spec a b)
         end; simpl; lia.
Qed.

Lemma answers_le_get (xs ys : array) :
  answers_le xs ys ->
  forall i, orZero (array_get xs i) <= orZero (array_get ys i).
Proof.
  intros H i. unfold array_get.
  destruct (i <? 0); [simpl; lia |].
  generalize (Z.to_nat i). clear i.
  induction H as [| x y xs ys Hxy _ IH]; intros n.
  - destruct n; simpl; lia.
  - destruct n as [| n]; [exact Hxy | apply IH].
Qed.

Lemma answers_le_total (xs ys : array) :
  answers_le xs ys -> sumZ (map orZero xs) <= sumZ (map orZero ys).
Proof.
  induction 1 as [| x y xs ys Hxy _ IH]; [simpl; lia |].
  cbn [map]. rewrite !sumZ_cons. lia.
Qed.

Lemma sumZ_le (A : Type) (f g : A -> Z) (l : list A) :
  Forall (fun x => f x <= g x) l -> sumZ (map f l) <= sumZ (map g l).
Proof.
  induction 1 as [| x l Hx _ IH]; [simpl; lia |].
  cbn [map]. rewrite !sumZ_cons. lia.
Qed.

Lemma count_high_cons (e : string * FactorResult) (fs : object FactorResult) :
  count_high (e :: fs)
  = (if num_geb (average (snd e)) (num_of_Z 3) then 1 else 0) + count_high fs.
Proof.
  unfold count_high. cbn [filter].
  destruct (num_geb (average (snd e)) (num_of_Z 3)); cbn [List.length]; lia.
Qed.

Lemma count_high_monotone (xs ys : array) (t : FactorIndexMap) :
  answers_le xs ys ->
  count_high (map (factor_entry xs) t) <= count_high (map (factor_entry ys) t).
Proof.
  intros Hle. induction t as [| [name idx] t IH]; [simpl; lia |].
  cbn [map]. rewrite !count_high_cons. cbn [factor_entry snd].
  assert (Hs : score (factorResult xs idx) <= score (factorResult ys idx)).
  { rewrite !factor_score_is_sum. apply sumZ_le.
    apply Forall_forall. intros i _. now apply answers_le_get. }
  destruct (num_geb (average (factorResult xs idx)) (num_of_Z 3)) eqn:E.
  - unfold factorResult in E, Hs |- *. cbn [average score] in *.
    rewrite (high_monotone _ _ _ Hs E). lia.
  - destruct (num_geb (average (factorResult ys idx)) (num_of_Z 3)); lia.
Qed.

(** X4: answering no item lower never lowers the level: if every entry of
    [ys] is at least the entry of [xs] (absent counting as 0), the level
    computed from [ys] is at least as severe as the level computed from
    [xs]. *)
Theorem severity_monotone (factorIndices : FactorIndexMap) (now : string)
  (xs ys : array) :
  NoDup (map fst factorIndices) ->
  answers_le xs ys ->
  severity (riskLevel (calculateResult factorIndices now xs))
  <= severity (riskLevel (calculateResult factorIndices now ys)).
Proof.
  intros Hnd Hle. cbn [calculateResult riskLevel].
  rewrite !build_factors_map by exact Hnd.
  rewrite !severity_determine, !total_is_sum.
  apply severity_rank_monotone.
  - now apply answers_le_total.
  - now apply count_high_monotone.
Qed.

Lemma severity_monotone_witness :
  severity (riskLevel (calculateResult factorIndices_of_questions "" all_two))
  <= severity (riskLevel (calculateResult factorIndices_of_questions "" score_250)).
Proof.
  apply severity_monotone.
  - exact (proj2 (proj1 questions_table_ok)).
  - unfold answers_le. vm_compute.
    repeat (constructor; [discriminate |]). constructor.
Defined.

(** ** Vectors without a positive item *)

Lemma no_positive_get (answers : array) (i : Z) :
  filter gt1 answers = [] -> orZero (array_get answers i) <= 1.
Proof.
  intros Hf. unfold array_get.
  destruct (i <? 0); [simpl; lia |].
  destruct (nth_error answers (Z.to_nat i)) as [a |] eqn:E; [| simpl; lia].
  apply nth_error_In in E.
  destruct a as [z |]; [| simpl; lia]. simpl.
  destruct (Z.ltb_spec 1 z); [| lia].
  assert (Hin : In (Some z) (filter gt1 answers)).
  { apply filter_In. split; [exact E |]. simpl. now apply Z.ltb_lt. }
  rewrite Hf in Hin. contradiction.
Qed.

Lemma no_positive_total (answers : array) :
  filter gt1 answers = [] ->
  sumZ (map orZero answers) <= Z.of_nat (List.length answers).
Proof.
  induction answers as [| a answers IH]; [simpl; lia |].
  cbn [filter]. destruct a as [z |]; simpl gt1.
  - destruct (Z.ltb_spec 1 z); [discriminate |].
    intros Hf. specialize (IH Hf). cbn [map List.length].
    rewrite sumZ_cons. simpl orZero. lia.
  - intros Hf. specialize (IH Hf). cbn [map List.length].
    rewrite sumZ_cons. simpl orZero. lia.
Qed.

(** X5: a vector of 90 entries with no positive item (no answer above 1)
    is classified None/Normal, with [mainIssue] [null] and no recommendation
    of professional help, whatever the factor table. *)
Theorem no_positive_item_is_normal (factorIndices : FactorIndexMap)
  (now : string) (answers : array) :
  List.length answers = 90%nat ->
  let r := calculateResult factorIndices now answers in
  positiveItems r = 0%nat ->
  level (riskLevel r) = "无明显"
  /\ mainIssue (riskLevel r) = None
  /\ recommendProfessional (riskLevel r) = false.
Proof.
  intros Hlen. cbv zeta.
  cbn [calculateResult positiveItems riskLevel]. intros Hp.
  apply length_zero_iff_nil in Hp.
  assert (Hcount : count_high (build_factors factorIndices answers) = 0).
  { apply count_high_none. apply Forall_forall. intros e He.
    destruct (build_factors_in _ _ _ He) as ([name idx] & _ & ->).
    cbn [factor_entry snd].
    destruct (num_geb (average (factorResult answers idx)) (num_of_Z 3)) eqn:E;
      [| reflexivity].
    exfalso.
    assert (Hs : score (factorResult answers idx)
                 <= 1 * Z.of_nat (List.length idx)).
    { rewrite factor_score_is_sum.
      rewrite <- (sumZ_const _ (fun _ : Z => 1) 1 idx)
        by (apply Forall_forall; reflexivity).
      apply sumZ_le. apply Forall_forall. intros i _.
      now apply no_positive_get. }
    unfold factorResult in E, Hs. cbn [average score] in *.
    destruct idx as [| i0 idx].
    - simpl in E. discriminate.
    - apply num_div_geb in E; [| simpl; lia]. cbn [List.length] in *. lia. }
  pose proof (no_positive_total answers Hp) as Ht. rewrite Hlen in Ht.
  unfold determineRiskLevel, scan_factors.
  rewrite (scan_no_high _ _ Hcount). cbn [scan_init highFactorCount].
  rewrite total_is_sum.
  destruct (Z.leb_spec 250 (sumZ (map orZero answers))); [lia |].
  destruct (Z.leb_spec 200 (sumZ (map orZero answers))); [lia |].
  destruct (Z.leb_spec 160 (sumZ (map orZero answers))); [lia |].
  simpl. repeat split; reflexivity.
Qed.

Lemma no_positive_item_is_normal_witness :
  let r := calculateResult factorIndices_of_questions "" all_zero in
  positiveItems r = 0%nat /\ level (riskLevel r) = "无明显".
Proof.
  cbv zeta.
  assert (Hlen : List.length all_zero = 90%nat) by reflexivity.
  assert (Hp : positiveItems (calculateResult factorIndices_of_questions "" all_zero)
               = 0%nat) by reflexivity.
  split; [exact Hp |].
  exact (proj1 (no_positive_item_is_normal
                  factorIndices_of_questions "" all_zero Hlen Hp)).
Defined.

(** ** From 262 points up some factor is high *)






(** The bound 262 is the least one: a valid vector reaches 261 without a
    high factor. *)
Lemma total_261_without_high_factor :
  valid_answers score_261
  /\ (let r := calculateResult factorIndices_of_questions "" score_261 in
      totalScore r = 261 /\ count_high (factors r) = 0
      /\ mainIssue (riskLevel r) = Some "").
Proof.
  split.
  - apply valid_answersb_sound. vm_compute. reflexivity.
  - vm_compute. repeat split.
Qed.

(** ** Levels of the factors and the overall level *)

Lemma interpretation_warning (name : string) (x : number) :
  fi_status (getFactorInterpretation name x) = "warning"
  <-> num_geb x (num_of_Z 3) = true.
Proof.
  unfold getFactorInterpretation. cbn [fi_status].
  destruct (num_geb x (num_of_Z 3)).
  - split; reflexivity.
  - destruct (num_geb x (num_of_Z 2)); split; discriminate.
Qed.

(** X7: the interpretation of a factor and the overall level agree on
    what a high factor is: some factor of the result is interpreted with
    status [warning] exactly when the classification counted a high factor,
    and then the level is at least Mild. *)
Theorem warning_factor_raises_level (factorIndices : FactorIndexMap)
  (now : string) (answers : array) :
  let r := calculateResult factorIndices now answers in
  ((exists e, In e (factors r)
              /\ fi_status (getFactorInterpretation (fst e) (average (snd e)))
                 = "warning")
   <-> 1 <= count_high (factors r))
  /\ (1 <= count_high (factors r) -> 1 <= severity (riskLevel r)).
Proof.
  cbv zeta. cbn [calculateResult factors riskLevel].
  set (fs := build_factors factorIndices answers). split; [split |].
  - intros (e & Hin & Hw). apply interpretation_warning in Hw.
    exact (count_high_in fs e Hin Hw).
  - intros Hn.
    destruct (scan_inv_all fs) as [_ [[_ Hlow] | (e & Hin & _ & _ & Hh)]].
    + rewrite (count_high_none fs Hlow) in Hn. lia.
    + exists e. split; [exact Hin |]. now apply interpretation_warning.
  - intros Hn. rewrite severity_determine.
    destruct (Z.leb_spec 1 (count_high fs)); [| lia].
    rewrite orb_true_r.
    destruct ((250 <=? _) || (3 <=? count_high fs)); [lia |].
    destruct ((200 <=? _) || (2 <=? count_high fs)); lia.
Qed.

Lemma warning_factor_raises_level_witness :
  1 <= severity (riskLevel (calculateResult factorIndices_of_questions "" all_four)).
Proof.
  apply (proj2 (warning_factor_raises_level factorIndices_of_questions "" all_four)).
  vm_compute. discriminate.
Defined.

(** * Properties of the worker *)

(** ** The device guard *)

Ltac run_handler :=
  unfold Worker.recordAccess, Worker.saveProgress, Worker.completeTest,
    Worker.bind, Worker.call, Worker.ret, Worker.first_by_token,
    Worker.update_by_token, Worker.prop, Worker.device_key;
  cbn [obj_get String.eqb Ascii.eqb Bool.eqb].

Lemma field_eqb_eq (a b : Worker.field) :
  Worker.field_eqb a b = true <-> a = b.
Proof.
  destruct a as [| | s], b as [| | s']; simpl; split; try congruence;
    try discriminate.
  - intros H. apply String.eqb_eq in H. now subst.
  - intros [= ->]. apply String.eqb_refl.
Qed.

Lemma field_eqb_neq (a b : Worker.field) :
  Worker.field_eqb a b = false <-> a <> b.
Proof.
  destruct (Worker.field_eqb a b) eqn:E.
  - apply field_eqb_eq in E. split; [discriminate | congruence].
  - split; [| reflexivity]. intros _ H. apply field_eqb_eq in H. congruence.
Qed.

(** X8: in worker/index.js a token bound to a non-empty device answers
    403 to every body whose [deviceId] is not that device (another string,
    [null] or absent), on access, save and complete alike, and leaves the
    table as it is. *)
Theorem bound_device_rejects_others
  (stringify : json -> string) (t d : string) (u : Worker.User)
  (request : Worker.Request) (body : Worker.Body) (p : Worker.Platform)
  (db : list Worker.User) :
  find (fun x => String.eqb (Worker.token x) t) db = Some u ->
  Worker.device_id u = Some d -> d <> "" ->
  Worker.req_json request = Normal body ->
  Worker.deviceId body <> Worker.Text d ->
  Worker.recordAccess Worker.index_js (Some t) request p db
  = (Normal (Worker.json_response 403
               (Worker.ErrorCode "此链接已在其他设备使用，请联系客服" "DEVICE_MISMATCH")),
     db)
  /\ Worker.saveProgress stringify Worker.index_js (Some t) request db
     = (Normal (Worker.json_response 403 (Worker.Error "Unauthorized device")), db)
  /\ Worker.completeTest stringify Worker.index_js (Some t) request p db
     = (Normal (Worker.json_response 403 (Worker.Error "Unauthorized device")), db).
Proof.
  intros Hfind Hdev Hd Hjson Hneq.
  assert (Hne : Worker.field_eqb (Worker.Text d) (Worker.deviceId body) = false).
  { apply field_eqb_neq. congruence. }
  assert (Ht : Worker.truthy (Worker.Text d) = true).
  { simpl. apply negb_true_iff. now apply String.eqb_neq. }
  repeat split; run_handler; rewrite Hjson, Hfind, Hdev; cbn [negb andb];
    rewrite ?Ht, Hne; reflexivity.
Qed.

Lemma bound_device_rejects_others_witness :
  Worker.saveProgress stringify_demo Worker.index_js (Some "tok-b")
    (request_demo "POST" "/api/user/tok-b/save" (body_demo (Worker.Text "dev-2")))
    users_demo
  = (Normal (Worker.json_response 403 (Worker.Error "Unauthorized device")),
     users_demo).
Proof.
  refine (proj1 (proj2 (bound_device_rejects_others stringify_demo
            "tok-b" "dev-1" bound_user
            (request_demo "POST" "/api/user/tok-b/save" (body_demo (Worker.Text "dev-2")))
            (body_demo (Worker.Text "dev-2")) platform_demo users_demo
            _ _ _ _ _)));
    try reflexivity; discriminate.
Defined.

(** ** Updating the row of a token *)

Lemma find_update (t : string) (set : Worker.User -> Worker.User)
  (db : list Worker.User) (u : Worker.User) :
  (forall x, Worker.token (set x) = Worker.token x) ->
  find (fun x => String.eqb (Worker.token x) t) db = Some u ->
  find (fun x => String.eqb (Worker.token x) t)
       (map (fun x => if String.eqb (Worker.token x) t then set x else x) db)
  = Some (set u).
Proof.
  intros Hset. induction db as [| x db IH]; simpl; [discriminate |].
  destruct (String.eqb (Worker.token x) t) eqn:E.
  - intros [= ->]. simpl. rewrite Hset, E. reflexivity.
  - intros H. simpl. rewrite E. now apply IH.
Qed.

Lemma find_update_other (t t' : string) (set : Worker.User -> Worker.User)
  (db : list Worker.User) :
  (forall x, Worker.token (set x) = Worker.token x) ->
  t' <> t ->
  find (fun x => String.eqb (Worker.token x) t')
       (map (fun x => if String.eqb (Worker.token x) t then set x else x) db)
  = find (fun x => String.eqb (Worker.token x) t') db.
Proof.
  intros Hset Hne. induction db as [| x db IH]; simpl; [reflexivity |].
  destruct (String.eqb_spec (Worker.token x) t) as [Ht | Ht].
  - rewrite Hset. destruct (String.eqb_spec (Worker.token x) t') as [Ht' | _].
    + congruence.
    + exact IH.
  - destruct (String.eqb (Worker.token x) t'); [reflexivity | exact IH].
Qed.

Lemma tokens_update (t : string) (set : Worker.User -> Worker.User)
  (db : list Worker.User) :
  (forall x, Worker.token (set x) = Worker.token x) ->
  map Worker.token
      (map (fun x => if String.eqb (Worker.token x) t then set x else x) db)
  = map Worker.token db.
Proof.
  intros Hset. rewrite map_map. apply map_ext. intros x.
  destruct (String.eqb (Worker.token x) t); [apply Hset | reflexivity].
Qed.

(** The access of a token whose device is unset or empty, in worker/index.js. *)
Lemma record_access_unbound
  (t d : string) (u : Worker.User) (request : Worker.Request)
  (body : Worker.Body) (p : Worker.Platform) (db : list Worker.User) :
  find (fun x => String.eqb (Worker.token x) t) db = Some u ->
  Worker.device_id u = None \/ Worker.device_id u = Some "" ->
  Worker.req_json request = Normal body ->
  Worker.deviceId body = Worker.Text d ->
  exists db' u',
    Worker.recordAccess Worker.index_js (Some t) request p db
    = (Normal (Worker.json_response 200 Worker.Success), db')
    /\ find (fun x => String.eqb (Worker.token x) t) db' = Some u'
    /\ Worker.device_id u' = Some d
    /\ Worker.status u' = Some "testing"
    /\ Worker.first_access_at u' = Some (Worker.now p)
    /\ Worker.progress u' = Worker.progress u
    /\ Worker.answers u' = Worker.answers u
    /\ Worker.result u' = Worker.result u
    /\ map Worker.token db' = map Worker.token db
    /\ (forall t', t' <> t ->
          find (fun x => String.eqb (Worker.token x) t') db'
          = find (fun x => String.eqb (Worker.token x) t') db).
Proof.
  intros Hfind Hdev Hjson Hd.
  assert (Hfalsy : Worker.truthy
                     (match Worker.device_id u with
                      | None => Worker.Null
                      | Some s => Worker.Text s
                      end) = false).
  { destruct Hdev as [-> | ->]; reflexivity. }
  eexists _, _. split.
  - run_handler. rewrite Hjson, Hfind. cbn [andb].
    rewrite Hfalsy, Hd. cbn [negb andb Worker.bind_text]. reflexivity.
  - split; [apply find_update; [reflexivity | exact Hfind] |].
    cbn. repeat split; try reflexivity.
    + apply tokens_update. reflexivity.
    + intros t' Hne. apply find_update_other; [reflexivity | exact Hne].
Qed.

(** X9: in worker/index.js an access to a token whose device is unset, or
    set to the empty string, with a string [deviceId] succeeds and binds the
    token to that device: the row gets the device, the status [testing] and
    the time of the access, keeps its progress, answers and result, and no
    other row changes.  So an empty device id never protects a token, and
    such an access puts even a completed row back to [testing]. *)
Theorem first_access_binds_device
  (t d : string) (u : Worker.User) (request : Worker.Request)
  (body : Worker.Body) (p : Worker.Platform) (db : list Worker.User) :
  find (fun x => String.eqb (Worker.token x) t) db = Some u ->
  Worker.device_id u = None \/ Worker.device_id u = Some "" ->
  Worker.req_json request = Normal body ->
  Worker.deviceId body = Worker.Text d ->
  exists db' u',
    Worker.recordAccess Worker.index_js (Some t) request p db
    = (Normal (Worker.json_response 200 Worker.Success), db')
    /\ find (fun x => String.eqb (Worker.token x) t) db' = Some u'
    /\ Worker.device_id u' = Some d
    /\ Worker.status u' = Some "testing"
    /\ Worker.first_access_at u' = Some (Worker.now p)
    /\ Worker.progress u' = Worker.progress u
    /\ Worker.answers u' = Worker.answers u
    /\ Worker.result u' = Worker.result u
    /\ map Worker.token db' = map Worker.token db
    /\ (forall t', t' <> t ->
          find (fun x => String.eqb (Worker.token x) t') db'
          = find (fun x => String.eqb (Worker.token x) t') db).
Proof.
  apply record_access_unbound.
Qed.

Lemma first_access_binds_device_witness :
  exists db',
    Worker.recordAccess Worker.index_js (Some "tok-a")
      (request_demo "POST" "/api/user/tok-a/access" (body_demo (Worker.Text "dev-9")))
      platform_demo users_demo
    = (Normal (Worker.json_response 200 Worker.Success), db').
Proof.
  destruct (first_access_binds_device "tok-a" "dev-9" fresh_user
              (request_demo "POST" "/api/user/tok-a/access"
                 (body_demo (Worker.Text "dev-9")))
              (body_demo (Worker.Text "dev-9")) platform_demo users_demo
              eq_refl (or_introl eq_refl) eq_refl eq_refl)
    as (db' & u' & H & _).
  exists db'. exact H.
Defined.

(** X10: in worker/index.js, once a first access has bound a token to a
    non-empty device, a save from that device succeeds and stores the
    progress and the serialised answers in the row of the token, which stays
    bound to the device. *)
Theorem access_then_save (stringify : json -> string)
  (t d : string) (u : Worker.User) (access save : Worker.Request)
  (body1 body2 : Worker.Body) (n : Z) (j : json) (p : Worker.Platform)
  (db : list Worker.User) :
  find (fun x => String.eqb (Worker.token x) t) db = Some u ->
  Worker.device_id u = None -> d <> "" ->
  Worker.req_json access = Normal body1 ->
  Worker.deviceId body1 = Worker.Text d ->
  Worker.req_json save = Normal body2 ->
  Worker.deviceId body2 = Worker.Text d ->
  Worker.body_progress body2 = Worker.Num n ->
  Worker.body_answers body2 = Some j ->
  exists db1 db2 u2,
    Worker.recordAccess Worker.index_js (Some t) access p db
    = (Normal (Worker.json_response 200 Worker.Success), db1)
    /\ Worker.saveProgress stringify Worker.index_js (Some t) save db1
       = (Normal (Worker.json_response 200 Worker.Success), db2)
    /\ find (fun x => String.eqb (Worker.token x) t) db2 = Some u2
    /\ Worker.progress u2 = Some n
    /\ Worker.answers u2 = Some (stringify j)
    /\ Worker.device_id u2 = Some d
    /\ Worker.status u2 = Some "testing".
Proof.
  intros Hfind Hdev Hd Hj1 Hd1 Hj2 Hd2 Hn Ha.
  destruct (record_access_unbound t d u access body1 p db
              Hfind (or_introl Hdev) Hj1 Hd1)
    as (db1 & u1 & Hacc & Hfind1 & Hdev1 & Hst1 & _).
  exists db1. eexists _, _. split; [exact Hacc |]. split.
  - run_handler. rewrite Hj2, Hfind1, Hdev1, Hd2, Hn, Ha.
    cbn [Worker.field_eqb]. rewrite String.eqb_refl.
    cbn [negb Worker.bind_int Worker.bind_json]. reflexivity.
  - split; [apply find_update; [reflexivity | exact Hfind1] |].
    cbn. repeat split; assumption.
Qed.

Lemma access_then_save_witness :
  exists db1 db2,
    Worker.recordAccess Worker.index_js (Some "tok-a")
      (request_demo "POST" "/api/user/tok-a/access" (body_demo (Worker.Text "dev-9")))
      platform_demo users_demo
    = (Normal (Worker.json_response 200 Worker.Success), db1)
    /\ Worker.saveProgress stringify_demo Worker.index_js (Some "tok-a")
         (request_demo "POST" "/api/user/tok-a/save" (body_demo (Worker.Text "dev-9")))
         db1
       = (Normal (Worker.json_response 200 Worker.Success), db2).
Proof.
  destruct (access_then_save stringify_demo "tok-a" "dev-9" fresh_user
              (request_demo "POST" "/api/user/tok-a/access"
                 (body_demo (Worker.Text "dev-9")))
              (request_demo "POST" "/api/user/tok-a/save"
                 (body_demo (Worker.Text "dev-9")))
              (body_demo (Worker.Text "dev-9")) (body_demo (Worker.Text "dev-9"))
              30 (JArray []) platform_demo users_demo)
    as (db1 & db2 & u2 & H1 & H2 & _); try reflexivity; try discriminate.
  exists db1, db2. split; [exact H1 | exact H2].
Defined.

(** X11: in worker/index.js a token that was never accessed (device unset)
    accepts a save and a completion from a body whose [deviceId] is [null]:
    the completion marks the row completed with progress 90, the time and
    the serialised result, without any device bound; a body without
    [deviceId] is refused with 403. *)
Theorem unbound_token_accepts_null_device (stringify : json -> string)
  (t : string) (u : Worker.User) (request : Worker.Request)
  (body : Worker.Body) (j : json) (p : Worker.Platform) (db : list Worker.User) :
  find (fun x => String.eqb (Worker.token x) t) db = Some u ->
  Worker.device_id u = None ->
  Worker.req_json request = Normal body ->
  Worker.body_result body = Some j ->
  (Worker.deviceId body = Worker.Null ->
   exists db' u',
     Worker.completeTest stringify Worker.index_js (Some t) request p db
     = (Normal (Worker.json_response 200 Worker.Success), db')
     /\ find (fun x => String.eqb (Worker.token x) t) db' = Some u'
     /\ Worker.status u' = Some "completed"
     /\ Worker.progress u' = Some 90
     /\ Worker.completed_at u' = Some (Worker.now p)
     /\ Worker.result u' = Some (stringify j)
     /\ Worker.device_id u' = None)
  /\ (Worker.deviceId body = Worker.Missing ->
      Worker.completeTest stringify Worker.index_js (Some t) request p db
      = (Normal (Worker.json_response 403 (Worker.Error "Unauthorized device")), db)).
Proof.
  intros Hfind Hdev Hjson Hres. split; intros Hd.
  - eexists _, _. split.
    + run_handler. rewrite Hjson, Hfind, Hdev, Hd, Hres.
      cbn [Worker.field_eqb negb Worker.bind_json]. reflexivity.
    + split; [apply find_update; [reflexivity | exact Hfind] |].
      cbn. repeat split; try reflexivity. exact Hdev.
  - run_handler. rewrite Hjson, Hfind, Hdev, Hd. reflexivity.
Qed.

Lemma unbound_token_accepts_null_device_witness :
  exists db',
    Worker.completeTest stringify_demo Worker.index_js (Some "tok-a")
      (request_demo "POST" "/api/user/tok-a/complete" (body_demo Worker.Null))
      platform_demo users_demo
    = (Normal (Worker.json_response 200 Worker.Success), db').
Proof.
  destruct (proj1 (unbound_token_accepts_null_device stringify_demo "tok-a"
                     fresh_user
                     (request_demo "POST" "/api/user/tok-a/complete"
                        (body_demo Worker.Null))
                     (body_demo Worker.Null) JNull platform_demo users_demo
                     eq_refl eq_refl eq_refl eq_refl) eq_refl)
    as (db' & u' & H & _).
  exists db'. exact H.
Defined.

(** ** The copy that reads [DEVICE_ID] *)

(** X12: in the other copy of the worker, which reads the device under
    the key [DEVICE_ID] of a row selected as [device_id], an access never
    meets a bound device: for every existing token, whatever device it is
    bound to, an access with a string [deviceId] succeeds and rebinds the
    token to that device with status [testing]. *)
Theorem other_copy_access_rebinds
  (t d : string) (u : Worker.User) (request : Worker.Request)
  (body : Worker.Body) (p : Worker.Platform) (db : list Worker.User) :
  find (fun x => String.eqb (Worker.token x) t) db = Some u ->
  Worker.req_json request = Normal body ->
  Worker.deviceId body = Worker.Text d ->
  exists db' u',
    Worker.recordAccess Worker.other_copy (Some t) request p db
    = (Normal (Worker.json_response 200 Worker.Success), db')
    /\ find (fun x => String.eqb (Worker.token x) t) db' = Some u'
    /\ Worker.device_id u' = Some d
    /\ Worker.status u' = Some "testing"
    /\ Worker.first_access_at u' = Some (Worker.now p).
Proof.
  intros Hfind Hjson Hd.
  eexists _, _. split.
  - run_handler. rewrite Hjson, Hfind, Hd.
    cbn [Worker.truthy negb andb Worker.bind_text]. reflexivity.
  - split; [apply find_update; [reflexivity | exact Hfind] |].
    cbn. repeat split; reflexivity.
Qed.

Lemma other_copy_access_rebinds_witness :
  exists db' u',
    Worker.recordAccess Worker.other_copy (Some "tok-b")
      (request_demo "POST" "/api/user/tok-b/access" (body_demo (Worker.Text "dev-2")))
      platform_demo users_demo
    = (Normal (Worker.json_response 200 Worker.Success), db')
    /\ find (fun x => String.eqb (Worker.token x) "tok-b") db' = Some u'
    /\ Worker.device_id u' = Some "dev-2".
Proof.
  destruct (other_copy_access_rebinds "tok-b" "dev-2" bound_user
              (request_demo "POST" "/api/user/tok-b/access"
                 (body_demo (Worker.Text "dev-2")))
              (body_demo (Worker.Text "dev-2")) platform_demo users_demo
              eq_refl eq_refl eq_refl)
    as (db' & u' & H & Hf & Hd & _).
  exists db', u'. split; [exact H | split; [exact Hf | exact Hd]].
Defined.

(** X13: in the other copy of the worker a save or a completion for an
    existing token is refused with 403, the table unchanged, whenever the
    body carries a [deviceId] (a string or [null]), also when it is the
    device the token is bound to. *)
Theorem other_copy_refuses_every_device (stringify : json -> string)
  (t : string) (u : Worker.User) (request : Worker.Request)
  (body : Worker.Body) (p : Worker.Platform) (db : list Worker.User) :
  find (fun x => String.eqb (Worker.token x) t) db = Some u ->
  Worker.req_json request = Normal body ->
  Worker.deviceId body <> Worker.Missing ->
  Worker.saveProgress stringify Worker.other_copy (Some t) request db
  = (Normal (Worker.json_response 403 (Worker.Error "Unauthorized device")), db)
  /\ Worker.completeTest stringify Worker.other_copy (Some t) request p db
     = (Normal (Worker.json_response 403 (Worker.Error "Unauthorized device")), db).
Proof.
  intros Hfind Hjson Hd.
  split; run_handler; rewrite Hjson, Hfind;
    destruct (Worker.deviceId body); try congruence; reflexivity.
Qed.

Lemma other_copy_refuses_every_device_witness :
  Worker.saveProgress stringify_demo Worker.other_copy (Some "tok-b")
    (request_demo "POST" "/api/user/tok-b/save" (body_demo (Worker.Text "dev-1")))
    users_demo
  = (Normal (Worker.json_response 403 (Worker.Error "Unauthorized device")),
     users_demo).
Proof.
  refine (proj1 (other_copy_refuses_every_device stringify_demo "tok-b"
                   bound_user
                   (request_demo "POST" "/api/user/tok-b/save"
                      (body_demo (Worker.Text "dev-1")))
                   (body_demo (Worker.Text "dev-1")) platform_demo users_demo
                   eq_refl eq_refl _)).
  discriminate.
Defined.

(** ** Every request gets an answer *)

Lemma json_response_cors (st : Z) (body : Worker.Payload) :
  incl Worker.corsHeaders (Worker.resp_headers (Worker.json_response st body)).
Proof.
  unfold Worker.json_response. cbn [Worker.resp_headers].
  apply incl_appl, incl_refl.
Qed.

Ltac break_match :=
  match goal with
  | |- context [match ?x with _ => _ end] => destruct x eqn:?
  end.

Lemma ret_ok (st : Z) (body : Worker.Payload) (db : list Worker.User) :
  In st [200; 401; 403; 404] ->
  step_ok db (Worker.ret (Worker.json_response st body) db).
Proof.
  intros H. unfold step_ok, Worker.ret. split; [apply json_response_cors |].
  split; [exact H | reflexivity].
Qed.

Lemma createToken_ok (request : Worker.Request) (p : Worker.Platform)
  (db : list Worker.User) :
  step_ok db (Worker.createToken request p db).
Proof.
  unfold Worker.createToken, Worker.bind, Worker.call, Worker.insert_user,
    Worker.ret.
  destruct (Worker.req_json request) as [body | e]; [| reflexivity].
  destruct (negb _).
  - apply (ret_ok 401). simpl. tauto.
  - destruct (Worker.bind_text (Worker.orderId body)) as [[o |] | e];
      try reflexivity.
    destruct (existsb _ db); [reflexivity |].
    unfold step_ok. split; [apply json_response_cors |].
    split; [simpl; tauto | simpl; congruence].
Qed.

Lemma getUserInfo_ok (t : option string) (db : list Worker.User) :
  step_ok db (Worker.getUserInfo t db)
  /\ snd (Worker.getUserInfo t db) = db.
Proof.
  unfold Worker.getUserInfo, Worker.bind, Worker.first_by_token, Worker.ret.
  destruct t as [t |]; [| split; reflexivity].
  destruct (find _ db); split; try reflexivity;
    (split; [apply json_response_cors | split; [simpl; tauto | reflexivity]]).
Qed.

Lemma recordAccess_ok (copy : Worker.Copy) (t : option string)
  (request : Worker.Request) (p : Worker.Platform) (db : list Worker.User) :
  step_ok db (Worker.recordAccess copy t request p db).
Proof.
  unfold Worker.recordAccess, Worker.bind, Worker.call, Worker.first_by_token,
    Worker.update_by_token, Worker.ret.
  destruct (Worker.req_json request) as [body | e]; [| reflexivity].
  destruct t as [t |]; [| reflexivity].
  destruct (find _ db) as [u |].
  - destruct (_ && _).
    + apply (ret_ok 403). simpl. tauto.
    + destruct (negb _).
      * destruct (Worker.bind_text (Worker.deviceId body)); [| reflexivity].
        unfold step_ok. split; [apply json_response_cors |].
        split; [simpl; tauto | simpl; congruence].
      * apply (ret_ok 200). simpl. tauto.
  - apply (ret_ok 404). simpl. tauto.
Qed.

Lemma saveProgress_ok (stringify : json -> string) (copy : Worker.Copy)
  (t : option string) (request : Worker.Request) (db : list Worker.User) :
  step_ok db (Worker.saveProgress stringify copy t request db).
Proof.
  unfold Worker.saveProgress, Worker.bind, Worker.call, Worker.first_by_token,
    Worker.update_by_token, Worker.ret.
  destruct (Worker.req_json request) as [body | e]; [| reflexivity].
  destruct t as [t |]; [| reflexivity].
  destruct (find _ db) as [u |].
  - destruct (negb _).
    + apply (ret_ok 403). simpl. tauto.
    + destruct (Worker.bind_int _); [| reflexivity].
      destruct (Worker.bind_json _ _); [| reflexivity].
      unfold step_ok. split; [apply json_response_cors |].
      split; [simpl; tauto | simpl; congruence].
  - apply (ret_ok 404). simpl. tauto.
Qed.

Lemma completeTest_ok (stringify : json -> string) (copy : Worker.Copy)
  (t : option string) (request : Worker.Request) (p : Worker.Platform)
  (db : list Worker.User) :
  step_ok db (Worker.completeTest stringify copy t request p db).
Proof.
  unfold Worker.completeTest, Worker.bind, Worker.call, Worker.first_by_token,
    Worker.update_by_token, Worker.ret.
  destruct (Worker.req_json request) as [body | e]; [| reflexivity].
  destruct t as [t |]; [| reflexivity].
  destruct (find _ db) as [u |].
  - destruct (negb _).
    + apply (ret_ok 403). simpl. tauto.
    + destruct (Worker.bind_json _ _); [| reflexivity].
      unfold step_ok. split; [apply json_response_cors |].
      split; [simpl; tauto | simpl; congruence].
  - apply (ret_ok 404). simpl. tauto.
Qed.

Lemma getAdminList_ok (order : list Worker.User -> list Worker.User)
  (copy : Worker.Copy) (request : Worker.Request) (db : list Worker.User) :
  step_ok db (Worker.getAdminList order copy request db)
  /\ snd (Worker.getAdminList order copy request db) = db.
Proof.
  unfold Worker.getAdminList.
  repeat break_match; split; try reflexivity;
    try (apply (ret_ok 401); simpl; tauto).
  unfold step_ok. split; [apply json_response_cors |].
  split; [simpl; tauto | reflexivity].
Qed.

Lemma route_ok (stringify : json -> string)
  (order : list Worker.User -> list Worker.User) (copy : Worker.Copy)
  (request : Worker.Request) (p : Worker.Platform) (db : list Worker.User) :
  step_ok db (Worker.route stringify order copy request p db).
Proof.
  unfold Worker.route.
  repeat match goal with
         | |- context [if ?c then _ else _] =>
             match c with
             | context [Worker.pathname] => destruct c
             | context [Worker.method] => destruct c
             end
         end;
    first [ apply createToken_ok | apply getUserInfo_ok | apply recordAccess_ok
          | apply saveProgress_ok | apply completeTest_ok | apply getAdminList_ok
          | apply (ret_ok 200); simpl; tauto
          | apply (ret_ok 404); simpl; tauto ].
Qed.

(** Without the method POST no route that writes is taken. *)
Lemma route_read_only (stringify : json -> string)
  (order : list Worker.User -> list Worker.User) (copy : Worker.Copy)
  (request : Worker.Request) (p : Worker.Platform) (db : list Worker.User) :
  Worker.method request <> "POST" ->
  snd (Worker.route stringify order copy request p db) = db.
Proof.
  intros Hm. apply String.eqb_neq in Hm. unfold Worker.route.
  rewrite Hm, !andb_false_r.
  repeat match goal with
         | |- context [if ?c then _ else _] =>
             match c with
             | context [Worker.pathname] => destruct c
             end
         end;
    first [ apply getUserInfo_ok | apply getAdminList_ok | reflexivity ].
Qed.

(** X14: [fetch] answers every request: the response carries the three
    CORS headers and one of the statuses 200, 401, 403, 404 and 500 (an error
    thrown by a handler becomes the 500); the table is unchanged unless the
    status is 200 and the method is POST; and a method other than OPTIONS,
    GET and POST gets 404 [Not found]. *)
Theorem fetch_always_answers (stringify : json -> string)
  (order : list Worker.User -> list Worker.User) (copy : Worker.Copy)
  (request : Worker.Request) (p : Worker.Platform) (db : list Worker.User) :
  let out := Worker.fetch stringify order copy request p db in
  incl Worker.corsHeaders (Worker.resp_headers (fst out))
  /\ In (Worker.resp_status (fst out)) [200; 401; 403; 404; 500]
  /\ (Worker.resp_status (fst out) <> 200 -> snd out = db)
  /\ (Worker.method request <> "POST" -> snd out = db)
  /\ (Worker.method request <> "OPTIONS" -> Worker.method request <> "GET" ->
      Worker.method request <> "POST" ->
      out = (Worker.json_response 404 (Worker.Error "Not found"), db)).
Proof.
  cbv zeta. unfold Worker.fetch.
  destruct (String.eqb_spec (Worker.method request) "OPTIONS") as [Ho | Ho].
  - cbn [fst snd Worker.resp_headers Worker.resp_status].
    repeat split; try reflexivity; try apply incl_refl; try (simpl; tauto).
  - pose proof (route_ok stringify order copy request p db) as Hok.
    pose proof (route_read_only stringify order copy request p db) as Hro.
    destruct (Worker.route stringify order copy request p db) as [[r | e] db']
      eqn:Er; cbn [fst snd] in *.
    + destruct Hok as (Hc & Hs & Hdb).
      split; [exact Hc |]. split; [simpl in *; tauto |].
      split; [exact Hdb |]. split; [exact Hro |].
      intros _ Hg Hp. revert Er. unfold Worker.route.
      apply String.eqb_neq in Hg, Hp. rewrite Hg, Hp, !andb_false_r.
      unfold Worker.ret. intros [= <- <-]. reflexivity.
    + split; [apply json_response_cors |]. split; [simpl; tauto |].
      split; [intros _; exact Hok |]. split; [exact Hro |].
      intros _ Hg Hp. revert Er. unfold Worker.route.
      apply String.eqb_neq in Hg, Hp. rewrite Hg, Hp, !andb_false_r.
      unfold Worker.ret. discriminate.
Qed.

Lemma fetch_always_answers_witness :
  Worker.fetch stringify_demo order_demo Worker.index_js
    (request_demo "DELETE" "/api/user/tok-a" (body_demo Worker.Missing))
    platform_demo users_demo
  = (Worker.json_response 404 (Worker.Error "Not found"), users_demo).
Proof.
  apply (fetch_always_answers stringify_demo order_demo Worker.index_js
           (request_demo "DELETE" "/api/user/tok-a" (body_demo Worker.Missing))
           platform_demo users_demo); discriminate.
Defined.

(** ** Rows come from an authorised creation only *)

Lemma recordAccess_tokens (copy : Worker.Copy) (t : option string)
  (request : Worker.Request) (p : Worker.Platform) (db : list Worker.User) :
  map Worker.token (snd (Worker.recordAccess copy t request p db))
  = map Worker.token db.
Proof.
  unfold Worker.recordAccess, Worker.bind, Worker.call, Worker.first_by_token,
    Worker.update_by_token, Worker.ret.
  destruct (Worker.req_json request) as [body | e]; [| reflexivity].
  destruct t as [t |]; [| reflexivity].
  destruct (find _ db) as [u |]; [| reflexivity].
  destruct (_ && _); [reflexivity |].
  destruct (negb _); [| reflexivity].
  destruct (Worker.bind_text (Worker.deviceId body)); [| reflexivity].
  cbn [snd]. apply tokens_update. reflexivity.
Qed.

Lemma saveProgress_tokens (stringify : json -> string) (copy : Worker.Copy)
  (t : option string) (request : Worker.Request) (db : list Worker.User) :
  map Worker.token (snd (Worker.saveProgress stringify copy t request db))
  = map Worker.token db.
Proof.
  unfold Worker.saveProgress, Worker.bind, Worker.call, Worker.first_by_token,
    Worker.update_by_token, Worker.ret.
  destruct (Worker.req_json request) as [body | e]; [| reflexivity].
  destruct t as [t |]; [| reflexivity].
  destruct (find _ db) as [u |]; [| reflexivity].
  destruct (negb _); [reflexivity |].
  destruct (Worker.bind_int _); [| reflexivity].
  destruct (Worker.bind_json _ _); [| reflexivity].
  cbn [snd]. apply tokens_update. reflexivity.
Qed.

Lemma completeTest_tokens (stringify : json -> string) (copy : Worker.Copy)
  (t : option string) (request : Worker.Request) (p : Worker.Platform)
  (db : list Worker.User) :
  map Worker.token (snd (Worker.completeTest stringify copy t request p db))
  = map Worker.token db.
Proof.
  unfold Worker.completeTest, Worker.bind, Worker.call, Worker.first_by_token,
    Worker.update_by_token, Worker.ret.
  destruct (Worker.req_json request) as [body | e]; [| reflexivity].
  destruct t as [t |]; [| reflexivity].
  destruct (find _ db) as [u |]; [| reflexivity].
  destruct (negb _); [reflexivity |].
  destruct (Worker.bind_json _ _); [| reflexivity].
  cbn [snd]. apply tokens_update. reflexivity.
Qed.

Lemma existsb_token_false (t : string) (db : list Worker.User) :
  existsb (fun u => String.eqb (Worker.token u) t) db = false ->
  ~ In t (map Worker.token db).
Proof.
  intros H Hin. apply in_map_iff in Hin. destruct Hin as (u & Hu & Hin).
  assert (existsb (fun u => String.eqb (Worker.token u) t) db = true);
    [| congruence].
  apply existsb_exists. exists u. split; [exact Hin |].
  rewrite Hu. apply String.eqb_refl.
Qed.

Lemma createToken_rows (request : Worker.Request) (p : Worker.Platform)
  (db : list Worker.User) :
  snd (Worker.createToken request p db) = db
  \/ exists body u,
       Worker.req_json request = Normal body
       /\ Worker.adminPassword body = Worker.Text "admin123"
       /\ snd (Worker.createToken request p db) = (db ++ [u])%list
       /\ Worker.token u = Worker.generateToken (Worker.random p)
       /\ ~ In (Worker.token u) (map Worker.token db)
       /\ Worker.status u = Some "pending"
       /\ Worker.device_id u = None
       /\ Worker.progress u = Some 0.
Proof.
  unfold Worker.createToken, Worker.bind, Worker.call, Worker.insert_user,
    Worker.ret.
  destruct (Worker.req_json request) as [body | e]; [| now left].
  destruct (Worker.field_eqb (Worker.adminPassword body) (Worker.Text "admin123"))
    eqn:Epw; cbn [negb]; [| now left].
  apply field_eqb_eq in Epw.
  destruct (Worker.bind_text (Worker.orderId body)) as [[o |] | e];
    try (now left).
  destruct (existsb _ db) eqn:Eex; [now left |].
  right. eexists body, _. cbn [snd].
  repeat split; try reflexivity; try assumption.
  cbn [Worker.token]. now apply existsb_token_false.
Qed.

(** X15: a request never removes a row and never changes a token; the only
    way the table gains a row is a POST to [/api/create] whose body carries
    the admin password: then one row is appended, its token the generated
    one and new to the table, its status [pending], no device, progress 0. *)
Theorem rows_only_from_authorised_create (stringify : json -> string)
  (order : list Worker.User -> list Worker.User) (copy : Worker.Copy)
  (request : Worker.Request) (p : Worker.Platform) (db : list Worker.User) :
  let db' := snd (Worker.fetch stringify order copy request p db) in
  map Worker.token db' = map Worker.token db
  \/ exists body u,
       Worker.pathname request = "/api/create"
       /\ Worker.method request = "POST"
       /\ Worker.req_json request = Normal body
       /\ Worker.adminPassword body = Worker.Text "admin123"
       /\ db' = (db ++ [u])%list
       /\ Worker.token u = Worker.generateToken (Worker.random p)
       /\ ~ In (Worker.token u) (map Worker.token db)
       /\ Worker.status u = Some "pending"
       /\ Worker.device_id u = None
       /\ Worker.progress u = Some 0.
Proof.
  cbv zeta. unfold Worker.fetch.
  destruct (String.eqb (Worker.method request) "OPTIONS"); [now left |].
  assert (Hsnd : forall out : completion Worker.Response * list Worker.User,
             snd (match out with
                  | (Normal response, db') => (response, db')
                  | (Throw message, db') =>
                      (Worker.json_response 500 (Worker.Error message), db')
                  end) = snd out).
  { intros [[r | e] d]; reflexivity. }
  rewrite Hsnd. unfold Worker.route.
  destruct (String.eqb_spec (Worker.pathname request) "/api/create") as [Hp | Hp];
    destruct (String.eqb_spec (Worker.method request) "POST") as [Hm | Hm];
    cbn [andb].
  1: { destruct (createToken_rows request p db) as [-> | (body & u & H)];
         [now left |].
       right. exists body, u. tauto. }
  all: left;
    repeat match goal with
           | |- context [if ?c then _ else _] =>
               match c with
               | context [Worker.pathname] => destruct c
               | context [Worker.method] => destruct c
               end
           end;
    first [ apply recordAccess_tokens | apply saveProgress_tokens
          | apply completeTest_tokens
          | rewrite (proj2 (getUserInfo_ok _ _)); reflexivity
          | rewrite (proj2 (getAdminList_ok _ _ _ _)); reflexivity
          | reflexivity ].
Qed.

(** ** Strings and paths *)

Lemma list_ascii_app (a b : string) :
  list_ascii_of_string (a ++ b)
  = (list_ascii_of_string a ++ list_ascii_of_string b)%list.
Proof.
  induction a as [| c a IH]; simpl; [reflexivity | now rewrite IH].
Qed.

Lemma slash_free_app (a b : string) :
  slash_free (a ++ b) = slash_free a && slash_free b.
Proof.
  unfold slash_free. rewrite list_ascii_app. apply forallb_app.
Qed.

Lemma split_slash_free (t : string) :
  slash_free t = true -> Worker.split_slash t = [t].
Proof.
  unfold slash_free.
  induction t as [| c t IH]; simpl; [reflexivity |].
  intros H. apply andb_true_iff in H. destruct H as [Hc Ht].
  apply negb_true_iff in Hc. rewrite Hc, (IH Ht). reflexivity.
Qed.

Lemma split_slash_app (t s : string) :
  slash_free t = true ->
  Worker.split_slash (t ++ String Worker.slash s) = t :: Worker.split_slash s.
Proof.
  unfold slash_free.
  induction t as [| c t IH]; simpl.
  - intros _. reflexivity.
  - intros H. apply andb_true_iff in H. destruct H as [Hc Ht].
    apply negb_true_iff in Hc. rewrite Hc, (IH Ht). reflexivity.
Qed.

Lemma string_length_app (a b : string) :
  String.length (a ++ b) = (String.length a + String.length b)%nat.
Proof.
  induction a as [| c a IH]; simpl; [reflexivity | now rewrite IH].
Qed.

Lemma substring_all (p : string) : String.substring 0 (String.length p) p = p.
Proof.
  induction p as [| c p IH]; simpl; [reflexivity | now rewrite IH].
Qed.

Lemma substring_app_drop (x p : string) :
  String.substring (String.length x) (String.length p) (x ++ p) = p.
Proof.
  induction x as [| c x IH]; simpl; [apply substring_all | exact IH].
Qed.

Lemma endsWith_app (x p : string) : Worker.endsWith (x ++ p) p = true.
Proof.
  unfold Worker.endsWith. rewrite string_length_app.
  apply andb_true_iff. split.
  - apply Nat.leb_le. lia.
  - replace (String.length x + String.length p - String.length p)%nat
      with (String.length x) by lia.
    rewrite substring_app_drop. apply String.eqb_refl.
Qed.

Lemma substring_split (n m : nat) : forall s : string,
  (n + m)%nat = String.length s ->
  s = String.substring 0 n s ++ String.substring n m s.
Proof.
  induction n as [| n IH]; intros s H.
  - simpl in H. subst m. rewrite substring_all.
    destruct s; reflexivity.
  - destruct s as [| c s]; [discriminate |].
    simpl in *. f_equal. apply IH. lia.
Qed.

Lemma endsWith_inv (s p : string) :
  Worker.endsWith s p = true -> exists x, s = x ++ p.
Proof.
  unfold Worker.endsWith. intros H. apply andb_true_iff in H.
  destruct H as [Hlen Heq]. apply Nat.leb_le in Hlen.
  apply String.eqb_eq in Heq.
  exists (String.substring 0 (String.length s - String.length p) s).
  pose proof (substring_split (String.length s - String.length p)
                (String.length p) s) as Hs.
  rewrite Heq in Hs. apply Hs. lia.
Qed.

(** Two strings that end in different characters are different. *)
Lemma app_last_differs (x y a b : string) (c d : Ascii.ascii) :
  c <> d -> x ++ (a ++ String c "") <> y ++ (b ++ String d "").
Proof.
  intros Hcd H. apply (f_equal list_ascii_of_string) in H.
  rewrite !list_ascii_app in H. apply (f_equal (@rev _)) in H.
  rewrite !rev_app_distr in H. simpl in H. congruence.
Qed.

Lemma endsWith_other (x a b : string) (c d : Ascii.ascii) :
  c <> d -> Worker.endsWith (x ++ (a ++ String c "")) (b ++ String d "") = false.
Proof.
  intros Hcd.
  destruct (Worker.endsWith _ _) eqn:E; [| reflexivity].
  apply endsWith_inv in E. destruct E as (y & Hy).
  exfalso. exact (app_last_differs _ _ _ _ _ _ Hcd Hy).
Qed.

Lemma get_In (s : string) : forall (n : nat) (c : Ascii.ascii),
  String.get n s = Some c -> In c (list_ascii_of_string s).
Proof.
  induction s as [| a s IH]; intros n c; simpl; [discriminate |].
  destruct n as [| n].
  - intros [= ->]. now left.
  - intros H. right. exact (IH n c H).
Qed.

Lemma get_lt (s : string) : forall n : nat,
  (n < String.length s)%nat -> exists c, String.get n s = Some c.
Proof.
  induction s as [| a s IH]; intros n H; simpl in *; [lia |].
  destruct n as [| n]; [now exists a | apply IH; lia].
Qed.

(** ** generateToken *)

Lemma token_char_slash_free (r : Q) : slash_free (Worker.token_char r) = true.
Proof.
  unfold Worker.token_char.
  destruct (_ <? 0); [reflexivity |].
  destruct (String.get _ Worker.chars) as [c |] eqn:E; [| reflexivity].
  apply get_In in E.
  assert (H : slash_free Worker.chars = true) by reflexivity.
  unfold slash_free in *. rewrite forallb_forall in H.
  simpl. rewrite (H c E). reflexivity.
Qed.

Lemma generateToken_slash_free (rnd : nat -> Q) :
  slash_free (Worker.generateToken rnd) = true.
Proof.
  unfold Worker.generateToken.
  assert (H : forall l acc, slash_free acc = true ->
                slash_free (fold_left
                              (fun t i => t ++ Worker.token_char (rnd i)) l acc)
                = true).
  { induction l as [| i l IH]; intros acc Hacc; simpl; [exact Hacc |].
    apply IH. rewrite slash_free_app, Hacc, token_char_slash_free. reflexivity. }
  apply H. reflexivity.
Qed.

Lemma token_char_in_range (r : Q) :
  (0 <= r)%Q -> (r < 1)%Q ->
  exists c, Worker.token_char r = String c ""
            /\ In c (list_ascii_of_string Worker.chars).
Proof.
  intros H0 H1. unfold Worker.token_char.
  set (index := Worker.Math_floor _).
  assert (Hidx : 0 <= index < 36).
  { unfold index, Worker.Math_floor. destruct r as [a b].
    unfold Qle, Qlt in *. simpl in *.
    split.
    - apply Z.div_pos; lia.
    - apply Z.div_lt_upper_bound; lia. }
  destruct (Z.ltb_spec index 0); [lia |].
  destruct (get_lt Worker.chars (Z.to_nat index)) as (c & Hc).
  { change (String.length Worker.chars) with 36%nat. lia. }
  rewrite Hc. exists c. split; [reflexivity | exact (get_In _ _ _ Hc)].
Qed.

(** X16: when the 32 outcomes of [Math.random] that the generator draws
    lie in the interval from 0 (included) to 1 (excluded), the generated
    token has exactly 32 characters, each a lower-case letter or a digit of
    the alphabet of the generator; in any case it contains no [/]. *)
Theorem generated_token_shape (rnd : nat -> Q) :
  slash_free (Worker.generateToken rnd) = true
  /\ ((forall i, (i < 32)%nat -> (0 <= rnd i)%Q /\ (rnd i < 1)%Q) ->
      String.length (Worker.generateToken rnd) = 32%nat
      /\ Forall (fun c => In c (list_ascii_of_string Worker.chars))
                (list_ascii_of_string (Worker.generateToken rnd))).
Proof.
  split; [apply generateToken_slash_free |].
  intros Hr. unfold Worker.generateToken.
  assert (H : forall l acc,
             (forall i, In i l -> (i < 32)%nat) ->
             String.length (fold_left
                              (fun t i => t ++ Worker.token_char (rnd i)) l acc)
             = (String.length acc + List.length l)%nat
             /\ (Forall (fun c => In c (list_ascii_of_string Worker.chars))
                        (list_ascii_of_string acc) ->
                 Forall (fun c => In c (list_ascii_of_string Worker.chars))
                        (list_ascii_of_string
                           (fold_left
                              (fun t i => t ++ Worker.token_char (rnd i)) l acc)))).
  { induction l as [| i l IH]; intros acc Hl; simpl.
    - split; [lia | auto].
    - assert (Hi : (i < 32)%nat) by (apply Hl; now left).
      destruct (token_char_in_range (rnd i)) as (c & Hc & Hin);
        [apply (Hr i Hi) | apply (Hr i Hi) |].
      destruct (IH (acc ++ Worker.token_char (rnd i))) as [Hlen Hall].
      { intros k Hk. apply Hl. now right. }
      split.
      + rewrite Hlen, string_length_app, Hc. simpl. lia.
      + intros Hacc. apply Hall. rewrite list_ascii_app, Hc.
        apply Forall_app. split; [exact Hacc |].
        constructor; [exact Hin | constructor]. }
  destruct (H (seq 0 32) "") as [Hlen Hall].
  { intros i Hi. apply in_seq in Hi. lia. }
  split; [exact Hlen | apply Hall; constructor].
Qed.

Lemma generated_token_shape_witness :
  String.length (Worker.generateToken (Worker.random platform_demo)) = 32%nat.
Proof.
  apply (proj2 (generated_token_shape (Worker.random platform_demo))).
  intros i Hi. unfold platform_demo, Worker.random, Qle, Qlt. simpl.
  split; lia.
Defined.

(** ** The routes of a token *)

Lemma string_app_assoc (a b c : string) : a ++ (b ++ c) = (a ++ b) ++ c.
Proof.
  induction a as [| x a IH]; simpl; [reflexivity | now rewrite IH].
Qed.

Lemma app_same_length_tail (A : Type) (l1 : list A) :
  forall l2 a b : list A,
  (l1 ++ a = l2 ++ b)%list -> List.length a = List.length b -> a = b.
Proof.
  induction l1 as [| x l1 IH]; intros [| y l2] a b H Hlen; simpl in H.
  - exact H.
  - apply (f_equal (@List.length A)) in H. simpl in H.
    rewrite length_app in H. lia.
  - apply (f_equal (@List.length A)) in H. simpl in H.
    rewrite length_app in H. lia.
  - injection H as _ H. exact (IH _ _ _ H Hlen).
Qed.

Lemma list_ascii_inj (a b : string) :
  list_ascii_of_string a = list_ascii_of_string b -> a = b.
Proof.
  intros H. rewrite <- (string_of_list_ascii_of_string a),
              <- (string_of_list_ascii_of_string b), H. reflexivity.
Qed.

Lemma list_ascii_length (s : string) :
  List.length (list_ascii_of_string s) = String.length s.
Proof.
  induction s as [| c s IH]; simpl; [reflexivity | now rewrite IH].
Qed.

Lemma endsWith_differs (x a1 a2 b : string) :
  String.length a2 = String.length b -> a2 <> b ->
  Worker.endsWith (x ++ (a1 ++ a2)) b = false.
Proof.
  intros Hlen Hne.
  destruct (Worker.endsWith _ _) eqn:E; [| reflexivity].
  apply endsWith_inv in E. destruct E as (y & Hy). exfalso. apply Hne.
  rewrite string_app_assoc in Hy.
  apply (f_equal list_ascii_of_string) in Hy. rewrite !list_ascii_app in Hy.
  apply list_ascii_inj.
  apply (app_same_length_tail _ _ _ _ _ Hy).
  rewrite !list_ascii_length. exact Hlen.
Qed.

Lemma split_user_path (t : string) :
  slash_free t = true ->
  Worker.split_slash ("/api/user/" ++ t) = [""; "api"; "user"; t].
Proof.
  intros Ht.
  change ("/api/user/" ++ t)
    with ("" ++ String Worker.slash
                  ("api" ++ String Worker.slash ("user" ++ String Worker.slash t))).
  rewrite !split_slash_app by reflexivity.
  now rewrite split_slash_free.
Qed.

Lemma split_user_sub_path (t a : string) :
  slash_free t = true -> slash_free a = true ->
  Worker.split_slash ("/api/user/" ++ t ++ String Worker.slash a)
  = [""; "api"; "user"; t; a].
Proof.
  intros Ht Ha.
  change ("/api/user/" ++ t ++ String Worker.slash a)
    with ("" ++ String Worker.slash
                  ("api" ++ String Worker.slash
                     ("user" ++ String Worker.slash (t ++ String Worker.slash a)))).
  rewrite !split_slash_app by (reflexivity || assumption).
  now rewrite split_slash_free.
Qed.

Lemma user_path_not_create (x : string) :
  String.eqb ("/api/user/" ++ x) "/api/create" = false.
Proof. reflexivity. Qed.

Lemma user_path_starts (x : string) :
  Worker.startsWith ("/api/user/" ++ x) "/api/user/" = true.
Proof.
  unfold Worker.startsWith. simpl. destruct x; reflexivity.
Qed.

Lemma user_path_ends (t suffix : string) :
  Worker.endsWith ("/api/user/" ++ t ++ suffix) suffix = true.
Proof. rewrite string_app_assoc. apply endsWith_app. Qed.

Lemma save_not_access (t : string) :
  Worker.endsWith ("/api/user/" ++ t ++ "/save") "/access" = false.
Proof.
  rewrite string_app_assoc.
  apply (endsWith_other ("/api/user/" ++ t) "/sav" "/acces"
           (Ascii.ascii_of_nat 101) (Ascii.ascii_of_nat 115)).
  discriminate.
Qed.

Lemma complete_not_access (t : string) :
  Worker.endsWith ("/api/user/" ++ t ++ "/complete") "/access" = false.
Proof.
  rewrite string_app_assoc.
  apply (endsWith_other ("/api/user/" ++ t) "/complet" "/acces"
           (Ascii.ascii_of_nat 101) (Ascii.ascii_of_nat 115)).
  discriminate.
Qed.

Lemma complete_not_save (t : string) :
  Worker.endsWith ("/api/user/" ++ t ++ "/complete") "/save" = false.
Proof.
  rewrite string_app_assoc.
  apply (endsWith_differs ("/api/user/" ++ t) "/com" "plete" "/save");
    [reflexivity | discriminate].
Qed.

(** Where the paths of a token lead. *)
Lemma route_of_token (stringify : json -> string)
  (order : list Worker.User -> list Worker.User) (copy : Worker.Copy)
  (t : string) (request : Worker.Request) (p : Worker.Platform)
  (db : list Worker.User) :
  slash_free t = true ->
  (Worker.method request = "GET" ->
   (Worker.pathname request = "/api/user/" ++ t ->
    Worker.route stringify order copy request p db
    = Worker.getUserInfo (Some t) db)
   /\ (Worker.pathname request = "/api/user/" ++ t ++ "/access" ->
       Worker.route stringify order copy request p db
       = Worker.getUserInfo (Some "access") db))
  /\ (Worker.method request = "POST" ->
      (Worker.pathname request = "/api/user/" ++ t ++ "/access" ->
       Worker.route stringify order copy request p db
       = Worker.recordAccess copy (Some t) request p db)
      /\ (Worker.pathname request = "/api/user/" ++ t ++ "/save" ->
          Worker.route stringify order copy request p db
          = Worker.saveProgress stringify copy (Some t) request db)
      /\ (Worker.pathname request = "/api/user/" ++ t ++ "/complete" ->
          Worker.route stringify order copy request p db
          = Worker.completeTest stringify copy (Some t) request p db)).
Proof.
  intros Ht. split; intros Hm.
  - split; intros Hp; unfold Worker.route;
      rewrite Hp, Hm, user_path_not_create, user_path_starts; cbn [andb String.eqb Ascii.eqb Bool.eqb].
    + rewrite split_user_path by exact Ht. reflexivity.
    + change ("/api/user/" ++ t ++ "/access")
        with ("/api/user/" ++ t ++ String Worker.slash "access").
      rewrite split_user_sub_path by (reflexivity || assumption). reflexivity.
  - assert (Hsplit : forall a, slash_free a = true ->
              nth_error (Worker.split_slash
                           ("/api/user/" ++ t ++ String Worker.slash a)) 3
              = Some t).
    { intros a Ha. rewrite split_user_sub_path by assumption. reflexivity. }
    split; [| split]; intros Hp; unfold Worker.route;
      rewrite Hp, Hm, user_path_not_create, user_path_starts;
      cbn [andb String.eqb Ascii.eqb Bool.eqb].
    + rewrite user_path_ends.
      change ("/api/user/" ++ t ++ "/access")
        with ("/api/user/" ++ t ++ String Worker.slash "access").
      rewrite Hsplit by reflexivity. reflexivity.
    + rewrite user_path_ends, save_not_access.
      change ("/api/user/" ++ t ++ "/save")
        with ("/api/user/" ++ t ++ String Worker.slash "save").
      rewrite Hsplit by reflexivity. reflexivity.
    + rewrite user_path_ends, complete_not_access, complete_not_save.
      change ("/api/user/" ++ t ++ "/complete")
        with ("/api/user/" ++ t ++ String Worker.slash "complete").
      rewrite Hsplit by reflexivity. reflexivity.
Qed.

(** X17: for a token [t] without [/], a GET of [/api/user/t] is served by
    [getUserInfo] for [t], and a POST of [/api/user/t/access],
    [/api/user/t/save] and [/api/user/t/complete] by [recordAccess],
    [saveProgress] and [completeTest] for [t]; a GET below [/api/user/] is
    always taken as a lookup of the last segment, so a GET of
    [/api/user/t/access] looks up the token [access]. *)
Theorem token_routes (stringify : json -> string)
  (order : list Worker.User -> list Worker.User) (copy : Worker.Copy)
  (t : string) (request : Worker.Request) (p : Worker.Platform)
  (db : list Worker.User) :
  slash_free t = true ->
  (Worker.method request = "GET" ->
   (Worker.pathname request = "/api/user/" ++ t ->
    Worker.route stringify order copy request p db
    = Worker.getUserInfo (Some t) db)
   /\ (Worker.pathname request = "/api/user/" ++ t ++ "/access" ->
       Worker.route stringify order copy request p db
       = Worker.getUserInfo (Some "access") db))
  /\ (Worker.method request = "POST" ->
      (Worker.pathname request = "/api/user/" ++ t ++ "/access" ->
       Worker.route stringify order copy request p db
       = Worker.recordAccess copy (Some t) request p db)
      /\ (Worker.pathname request = "/api/user/" ++ t ++ "/save" ->
          Worker.route stringify order copy request p db
          = Worker.saveProgress stringify copy (Some t) request db)
      /\ (Worker.pathname request = "/api/user/" ++ t ++ "/complete" ->
          Worker.route stringify order copy request p db
          = Worker.completeTest stringify copy (Some t) request p db)).
Proof.
  apply route_of_token.
Qed.

Lemma token_routes_witness :
  Worker.route stringify_demo order_demo Worker.index_js
    (request_demo "POST" "/api/user/tok-b/save" (body_demo (Worker.Text "dev-1")))
    platform_demo users_demo
  = Worker.saveProgress stringify_demo Worker.index_js (Some "tok-b")
      (request_demo "POST" "/api/user/tok-b/save" (body_demo (Worker.Text "dev-1")))
      users_demo.
Proof.
  apply (token_routes stringify_demo order_demo Worker.index_js "tok-b"
           (request_demo "POST" "/api/user/tok-b/save"
              (body_demo (Worker.Text "dev-1")))
           platform_demo users_demo); reflexivity.
Defined.

(** ** Creating a token and looking it up *)

Lemma find_app_fresh (t : string) (u : Worker.User) (db : list Worker.User) :
  ~ In t (map Worker.token db) -> Worker.token u = t ->
  find (fun x => String.eqb (Worker.token x) t) (db ++ [u])%list = Some u.
Proof.
  intros Hfresh Hu. induction db as [| x db IH]; simpl.
  - rewrite Hu, String.eqb_refl. reflexivity.
  - destruct (String.eqb_spec (Worker.token x) t) as [Hx | _].
    + exfalso. apply Hfresh. left. exact Hx.
    + apply IH. intros Hin. apply Hfresh. now right.
Qed.

Lemma token_not_existsb (t : string) (db : list Worker.User) :
  ~ In t (map Worker.token db) ->
  existsb (fun u => String.eqb (Worker.token u) t) db = false.
Proof.
  intros Hfresh.
  destruct (existsb _ db) eqn:E; [| reflexivity].
  apply existsb_exists in E. destruct E as (u & Hin & Hu).
  apply String.eqb_eq in Hu. exfalso. apply Hfresh.
  rewrite <- Hu. now apply in_map.
Qed.

(** X18: a POST to [/api/create] with the admin password and an order id,
    when the generated token is not yet in the table, answers 200 with the
    token and its link and appends one row: the order id, the note or the
    empty string, status [pending], the time of the request, progress 0, no
    device.  A later GET of [/api/user/] followed by that token answers 200
    with exactly this row and changes nothing. *)
Theorem create_then_lookup (stringify : json -> string)
  (order : list Worker.User -> list Worker.User) (copy : Worker.Copy)
  (create lookup : Worker.Request) (body : Worker.Body) (o : string)
  (p p' : Worker.Platform) (db : list Worker.User) :
  let t := Worker.generateToken (Worker.random p) in
  Worker.method create = "POST" ->
  Worker.pathname create = "/api/create" ->
  Worker.req_json create = Normal body ->
  Worker.adminPassword body = Worker.Text "admin123" ->
  Worker.orderId body = Worker.Text o ->
  ~ In t (map Worker.token db) ->
  Worker.method lookup = "GET" ->
  Worker.pathname lookup = "/api/user/" ++ t ->
  let u := {| Worker.token := t; Worker.order_id := o;
              Worker.note := Some (Worker.or_empty (Worker.body_note body));
              Worker.status := Some "pending";
              Worker.created_at := Worker.now p;
              Worker.first_access_at := None; Worker.completed_at := None;
              Worker.device_id := None; Worker.progress := Some 0;
              Worker.answers := None; Worker.result := None |} in
  Worker.fetch stringify order copy create p db
  = (Worker.json_response 200
       (Worker.Created t ("https://sci-90test.pages.dev/?token=" ++ t)),
     (db ++ [u])%list)
  /\ Worker.fetch stringify order copy lookup p' (db ++ [u])%list
     = (Worker.json_response 200 (Worker.UserData u), (db ++ [u])%list).
Proof.
  intros t Hm Hp Hjson Hpw Ho Hfresh Hm' Hp' u. split.
  - unfold Worker.fetch, Worker.route. rewrite Hm, Hp.
    cbn [String.eqb Ascii.eqb Bool.eqb andb].
    unfold Worker.createToken, Worker.bind, Worker.call, Worker.insert_user,
      Worker.ret.
    rewrite Hjson, Hpw, Ho.
    cbn [Worker.field_eqb String.eqb Ascii.eqb Bool.eqb negb Worker.bind_text].
    fold t. rewrite (token_not_existsb t db Hfresh). reflexivity.
  - unfold Worker.fetch. rewrite Hm'.
    cbn [String.eqb Ascii.eqb Bool.eqb].
    pose proof (route_of_token stringify order copy t lookup p' (db ++ [u])%list
                  (generateToken_slash_free (Worker.random p))) as [Hget _].
    rewrite (proj1 (Hget Hm') Hp').
    unfold Worker.getUserInfo, Worker.bind, Worker.first_by_token, Worker.ret.
    rewrite (find_app_fresh t u db Hfresh eq_refl). reflexivity.
Qed.

Lemma create_then_lookup_witness :
  exists u,
    Worker.fetch stringify_demo order_demo Worker.index_js
      (request_demo "POST" "/api/create" create_body_demo) platform_demo users_demo
    = (Worker.json_response 200
         (Worker.Created "abcdefghjklmnopqstuvwxyz12345678"
            "https://sci-90test.pages.dev/?token=abcdefghjklmnopqstuvwxyz12345678"),
       (users_demo ++ [u])%list)
    /\ Worker.fetch stringify_demo order_demo Worker.index_js
         (request_demo "GET" "/api/user/abcdefghjklmnopqstuvwxyz12345678"
            create_body_demo)
         platform_demo (users_demo ++ [u])%list
       = (Worker.json_response 200 (Worker.UserData u), (users_demo ++ [u])%list).
Proof.
  eexists.
  apply (create_then_lookup stringify_demo order_demo Worker.index_js
           (request_demo "POST" "/api/create" create_body_demo)
           (request_demo "GET" "/api/user/abcdefghjklmnopqstuvwxyz12345678"
              create_body_demo)
           create_body_demo "order-3" platform_demo platform_demo users_demo);
    try reflexivity.
  vm_compute. intros [H | [H | []]]; discriminate.
Defined.

(** * Properties of the share link *)

Lemma result_prefix (enc : string) :
  String.prefix "#result=" ("#result=" ++ enc) = true.
Proof. simpl. destruct enc; reflexivity. Qed.

Lemma result_payload (enc : string) :
  String.substring 8 (String.length ("#result=" ++ enc) - 8) ("#result=" ++ enc)
  = enc.
Proof.
  change (String.length ("#result=" ++ enc)) with (8 + String.length enc)%nat.
  replace (8 + String.length enc - 8)%nat with (String.length enc) by lia.
  apply (substring_app_drop "#result=" enc).
Qed.

(** X19: a share link and its reading compose: when [generateShareLink]
    returns a link, the link is the base URL followed by the fragment
    [#result=] and the encoded text; if [atob] undoes [btoa] on that text
    and [JSON.parse] reads the serialised result as [v], then
    [parseResultFromURL] on this fragment returns [v] and writes nothing to
    the console. *)
Theorem share_link_round_trip (R : Type) (stringify : R -> string)
  (btoa atob : string -> completion string)
  (JSON_parse : string -> completion json)
  (origin pathname link : string) (result : R) (v : json) (out : console) :
  generateShareLink R stringify btoa origin pathname result = Normal link ->
  (forall s enc, btoa s = Normal enc -> atob enc = Normal s) ->
  JSON_parse (stringify result) = Normal v ->
  exists enc,
    btoa (stringify result) = Normal enc
    /\ link = origin ++ pathname ++ "#result=" ++ enc
    /\ parseResultFromURL atob JSON_parse ("#result=" ++ enc) out
       = (Normal v, out).
Proof.
  unfold generateShareLink. intros Hlink Hcodec Hparse.
  destruct (btoa (stringify result)) as [enc | e] eqn:Eb; [| discriminate].
  injection Hlink as <-. exists enc. split; [reflexivity |].
  split; [now rewrite <- string_app_assoc |].
  unfold parseResultFromURL.
  rewrite result_prefix. cbn [String.eqb negb andb].
  unfold try_catch, bind, call. rewrite result_payload.
  rewrite (Hcodec _ _ Eb), Hparse. reflexivity.
Qed.

Lemma share_link_round_trip_witness :
  exists enc,
    btoa_demo "42" = Normal enc
    /\ parseResultFromURL atob_demo JSON_parse_demo ("#result=" ++ enc) []
       = (Normal (JNumber (num_of_Z 42)), []).
Proof.
  destruct (share_link_round_trip Z (fun _ => "42") btoa_demo atob_demo
              JSON_parse_demo "https://example.org" "/" 
              "https://example.org/#result=NDI=" 42 (JNumber (num_of_Z 42)) [])
    as (enc & Hb & _ & Hp).
  - reflexivity.
  - intros s enc. unfold btoa_demo, atob_demo.
    destruct (String.eqb_spec s "42") as [-> | _]; [| discriminate].
    intros [= <-]. reflexivity.
  - reflexivity.
  - exists enc. split; [exact Hb | exact Hp].
Defined.

Lemma level_not_latin1 (total : Z) (fs : object FactorResult) :
  latin1 (level (determineRiskLevel total fs)) = false.
Proof.
  unfold determineRiskLevel.
  destruct (_ || _); [reflexivity |].
  destruct (_ || _); [reflexivity |].
  destruct (_ || _); reflexivity.
Qed.

(** X20: the level of every result of [calculateResult] is written with
    characters above U+00FF.  So if [btoa] throws on every text that is not
    Latin-1 and [JSON.stringify] does not make a Latin-1 text of a result
    whose level is not Latin-1, [generateShareLink] throws for every result
    of [calculateResult]: no share link is ever produced. *)
Theorem share_link_of_result_throws (stringify : ResultRecord -> string)
  (btoa : string -> completion string)
  (factorIndices : FactorIndexMap) (now origin pathname : string)
  (answers : array) :
  (forall s, latin1 s = false -> exists e, btoa s = Throw e) ->
  (forall r, latin1 (level (riskLevel r)) = false ->
             latin1 (stringify r) = false) ->
  latin1 (level (riskLevel (calculateResult factorIndices now answers))) = false
  /\ exists e,
       generateShareLink ResultRecord stringify btoa origin pathname
         (calculateResult factorIndices now answers) = Throw e.
Proof.
  intros Hbtoa Hjson.
  assert (Hl : latin1 (level (riskLevel
                 (calculateResult factorIndices now answers))) = false).
  { cbn [calculateResult riskLevel]. apply level_not_latin1. }
  split; [exact Hl |].
  unfold generateShareLink.
  destruct (Hbtoa _ (Hjson _ Hl)) as (e & He). rewrite He. now exists e.
Qed.

Lemma share_link_of_result_throws_witness :
  exists e,
    generateShareLink ResultRecord stringify_level_demo btoa_latin1_demo
      "https://example.org" "/"
      (calculateResult factorIndices_of_questions "" all_four) = Throw e.
Proof.
  apply (share_link_of_result_throws stringify_level_demo btoa_latin1_demo
           factorIndices_of_questions "" "https://example.org" "/" all_four).
  - intros s Hs. unfold btoa_latin1_demo. rewrite Hs. now eexists.
  - intros r Hr. exact Hr.
Defined.

(** X21: [parseResultFromURL] writes to the console only when decoding or
    parsing throws, and then exactly one line, the fixed message with the
    error thrown; in every other case the console is left as it was. *)
Theorem parse_result_console
  (atob : string -> completion string)
  (JSON_parse : string -> completion json) (hash : string) (out : console) :
  let out' := snd (parseResultFromURL atob JSON_parse hash out) in
  let payload := String.substring 8 (String.length hash - 8) hash in
  (forall e,
      hash <> "" -> String.prefix "#result=" hash = true ->
      atob payload = Throw e
      \/ (exists s, atob payload = Normal s /\ JSON_parse s = Throw e) ->
      out' = (out ++ [("Failed to parse result from URL:", e)])%list)
  /\ (hash = "" \/ String.prefix "#result=" hash = false
      \/ (exists s w, atob payload = Normal s /\ JSON_parse s = Normal w) ->
      out' = out).
Proof.
  cbv zeta. unfold parseResultFromURL, try_catch, bind, call, console_error, ret.
  split.
  - intros e Hne Hp H. apply String.eqb_neq in Hne. rewrite Hne, Hp.
    cbn [negb andb].
    destruct H as [Ha | (s & Ha & Hj)]; rewrite Ha; [reflexivity |].
    rewrite Hj. reflexivity.
  - intros [-> | [Hp | (s & w & Ha & Hj)]].
    + reflexivity.
    + rewrite Hp, andb_false_r. reflexivity.
    + destruct (negb _ && _); [| reflexivity].
      rewrite Ha, Hj. reflexivity.
Qed.

Lemma parse_result_console_witness :
  snd (parseResultFromURL atob_demo JSON_parse_demo "#result=%%%" [])
  = [("Failed to parse result from URL:", "InvalidCharacterError")].
Proof.
  apply (proj1 (parse_result_console atob_demo JSON_parse_demo "#result=%%%" [])
           "InvalidCharacterError").
  - discriminate.
  - reflexivity.
  - left. reflexivity.
Defined.

(** * The program in its environment *)

(** ** The program and what it computes *)

Lemma for_each_factor (l : nat) (entries : FactorIndexMap) :
  forall (fs : object FactorResult) (w : Program.World),
  Program.for_each (Program.factor_step (Program.AArray l)) entries fs w
  = match Program.factors_of (Program.heap w l) entries fs with
    | Normal fs' => (Normal fs', w)
    | Throw e => (Throw e, w)
    end.
Proof.
  induction entries as [| [name indices] entries IH]; intros fs w.
  - reflexivity.
  - cbn [Program.for_each Program.factors_of].
    unfold Program.bind at 1.
    unfold Program.factor_step, Program.bind, Program.read_array, Program.call,
      Program.ret, Program.factor_of.
    destruct (Program.reduce_sum _ 0) as [factorSum | e]; [| reflexivity].
    apply IH.
Qed.

(** On an array the program returns what [outcome_of] gives for the table
    and the array, stamped with the time of the clock, and leaves the world
    as it was but for one reading of the clock; when it throws, the world is
    untouched. *)
Lemma run_on_array (l : nat) (w : Program.World) :
  Program.calculateResult (Program.AArray l) w
  = match Program.outcome_of (Program.table w) (Program.heap w l) with
    | Normal result =>
        (Normal (result (Program.clock w (Program.ticks w))), Program.tick w)
    | Throw e => (Throw e, w)
    end.
Proof.
  unfold Program.calculateResult, Program.outcome_of.
  unfold Program.bind at 1. unfold Program.read_array at 1.
  unfold Program.bind at 1. unfold Program.call at 1.
  destruct (Program.reduce_sum (Program.heap w l) 0) as [total | e];
    [| reflexivity].
  unfold Program.bind at 1. unfold Program.read_array at 1.
  unfold Program.bind at 1. unfold Program.call at 1.
  destruct (Program.filter_positive (Program.heap w l)) as [positive | e];
    [| reflexivity].
  unfold Program.bind at 1. unfold Program.read_table at 1.
  unfold Program.bind at 1. rewrite for_each_factor.
  destruct (Program.factors_of (Program.heap w l) (Program.table w) [])
    as [fs | e]; reflexivity.
Qed.

Lemma run_on_nullish (w : Program.World) :
  Program.calculateResult Program.ANullish w = (Throw "TypeError", w).
Proof. reflexivity. Qed.

(** The program can fail: on an array holding a symbol or a BigInt other
    than [0n] the first sum throws. *)
Lemma reduce_sum_throws (vs : list Program.value) :
  (In Program.VSymbol vs \/ exists z, z <> 0 /\ In (Program.VBigInt z) vs) ->
  forall sum, exists e, Program.reduce_sum vs sum = Throw e.
Proof.
  induction vs as [| v vs IH]; intros H sum.
  - destruct H as [[] | (z & _ & [])].
  - cbn [Program.reduce_sum].
    destruct (Program.add_or_zero sum v) as [sum' | e] eqn:E;
      [| now exists e].
    apply IH. destruct H as [[-> | H] | (z & Hz & [-> | H])].
    + discriminate.
    + now left.
    + simpl in E. destruct (Z.eqb_spec z 0); [contradiction | discriminate].
    + right. now exists z.
Qed.

Lemma run_throws (l : nat) (w : Program.World) :
  (In Program.VSymbol (Program.heap w l)
   \/ exists z, z <> 0 /\ In (Program.VBigInt z) (Program.heap w l)) ->
  exists e, Program.calculateResult (Program.AArray l) w = (Throw e, w).
Proof.
  intros H. rewrite run_on_array. unfold Program.outcome_of.
  destruct (reduce_sum_throws _ H 0) as (e & ->). now exists e.
Qed.

(** ** Arrays of integers and absent entries *)

Lemma reduce_sum_integers (vs : list Program.value) :
  Forall Program.integer_or_absent vs ->
  forall sum,
  Program.reduce_sum vs sum = Normal (sum + sumZ (map Program.integer_of vs)).
Proof.
  induction 1 as [| v vs Hv _ IH]; intros sum.
  - simpl. f_equal. lia.
  - cbn [Program.reduce_sum map]. rewrite sumZ_cons.
    destruct Hv as [-> | [-> | (z & ->)]]; cbn [Program.add_or_zero];
      rewrite IH; f_equal; simpl; lia.
Qed.

Lemma filter_positive_integers (vs : list Program.value) :
  Forall Program.integer_or_absent vs ->
  Program.filter_positive vs
  = Normal (filter (fun v => 1 <? Program.integer_of v) vs).
Proof.
  induction 1 as [| v vs Hv _ IH]; [reflexivity |].
  cbn [Program.filter_positive filter]. rewrite IH.
  destruct Hv as [-> | [-> | (z & ->)]]; reflexivity.
Qed.

Lemma element_integer (vs : list Program.value) (i : Z) :
  Forall Program.integer_or_absent vs ->
  Program.integer_or_absent (Program.element vs i).
Proof.
  intros H. unfold Program.element.
  destruct (i <? 0); [now left |].
  destruct (nth_in_or_default (Z.to_nat i) vs Program.VUndefined) as [Hin | ->];
    [| now left].
  rewrite Forall_forall in H. now apply H.
Qed.

Lemma factor_of_integers (vs : list Program.value) (indices : list Z) :
  Forall Program.integer_or_absent vs ->
  Program.factor_of vs indices = Normal (Program.record_of vs indices).
Proof.
  intros H. unfold Program.factor_of, Program.record_of.
  rewrite reduce_sum_integers.
  - rewrite map_map, Z.add_0_l. reflexivity.
  - apply Forall_forall. intros v Hv. apply in_map_iff in Hv.
    destruct Hv as (i & <- & _). now apply element_integer.
Qed.

Lemma factors_of_integers (vs : list Program.value) (entries : FactorIndexMap) :
  Forall Program.integer_or_absent vs ->
  forall fs,
  Program.factors_of vs entries fs
  = Normal (fold_left
              (fun fs (entry : string * list Z) =>
                 Program.assign fs (fst entry) (Program.record_of vs (snd entry)))
              entries fs).
Proof.
  intros H. induction entries as [| [name indices] entries IH]; intros fs.
  - reflexivity.
  - cbn [Program.factors_of fold_left fst snd].
    rewrite factor_of_integers by exact H. apply IH.
Qed.

(** Every entry of the object built comes from an entry of the table. *)
Lemma assigned_in (vs : list Program.value) (entries : FactorIndexMap) :
  forall fs e,
  In e (fold_left
          (fun fs (entry : string * list Z) =>
             Program.assign fs (fst entry) (Program.record_of vs (snd entry)))
          entries fs) ->
  In e fs \/ exists entry, In entry entries
                           /\ e = (fst entry, Program.record_of vs (snd entry)).
Proof.
  induction entries as [| entry entries IH]; intros fs e; cbn [fold_left].
  - now left.
  - intros H. destruct (IH _ _ H) as [H' | (entry' & Hin & ->)].
    + unfold Program.assign in H'.
      destruct (String.eqb (fst entry) "__proto__"); [now left |].
      destruct (obj_set_in _ _ _ _ _ H') as [H'' | ->]; [now left |].
      right. exists entry. split; [now left | reflexivity].
    + right. exists entry'. split; [now right | reflexivity].
Qed.

Lemma obj_set_has (V : Type) (o : object V) (k : string) (v : V) :
  In (k, v) (obj_set o k v).
Proof.
  induction o as [| [k' v'] o IH]; simpl; [now left |].
  destruct (String.eqb_spec k' k) as [-> | _]; [now left | now right].
Qed.

Lemma obj_set_keeps (V : Type) (o : object V) (k k' : string) (v v' : V) :
  k' <> k -> In (k, v) o -> In (k, v) (obj_set o k' v').
Proof.
  intros Hne. induction o as [| [k0 v0] o IH]; simpl; [tauto |].
  intros [[= -> ->] | H].
  - destruct (String.eqb_spec k k') as [-> | _]; [contradiction | now left].
  - destruct (String.eqb k0 k'); right; [exact H | now apply IH].
Qed.

Lemma assigned_keeps (vs : list Program.value) (entries : FactorIndexMap)
  (k : string) (v : FactorResult) :
  ~ In k (map fst entries) ->
  forall fs, In (k, v) fs ->
  In (k, v) (fold_left
               (fun fs (entry : string * list Z) =>
                  Program.assign fs (fst entry) (Program.record_of vs (snd entry)))
               entries fs).
Proof.
  induction entries as [| entry entries IH]; intros Hk fs Hin; cbn [fold_left].
  - exact Hin.
  - apply IH; [intros H; apply Hk; now right |].
    unfold Program.assign. destruct (String.eqb (fst entry) "__proto__");
      [exact Hin |].
    apply obj_set_keeps; [| exact Hin].
    intros Heq. apply Hk. left. exact Heq.
Qed.

(** With distinct names every factor of the table other than [__proto__]
    has its record in the object built. *)
Lemma assigned_has (vs : list Program.value) (entries : FactorIndexMap) :
  NoDup (map fst entries) ->
  forall fs entry,
  In entry entries -> fst entry <> "__proto__" ->
  In (fst entry, Program.record_of vs (snd entry))
     (fold_left
        (fun fs (entry : string * list Z) =>
           Program.assign fs (fst entry) (Program.record_of vs (snd entry)))
        entries fs).
Proof.
  induction entries as [| first entries IH]; intros Hnd fs entry Hin Hname;
    [contradiction |].
  cbn [map] in Hnd. inversion Hnd as [| k ks Hfresh Hrest]; subst.
  cbn [fold_left]. destruct Hin as [-> | Hin].
  - apply assigned_keeps; [exact Hfresh |].
    unfold Program.assign.
    destruct (String.eqb_spec (fst entry) "__proto__"); [contradiction |].
    apply obj_set_has.
  - now apply IH.
Qed.

Lemma integer_of_zero_stored (v : Program.value) :
  Program.integer_of
    (match v with
     | Program.VNumber z => Program.VNumber z
     | _ => Program.VNumber 0
     end) = Program.integer_of v.
Proof. destruct v; reflexivity. Qed.

Lemma zero_stored_integers (vs : list Program.value) :
  Forall Program.integer_or_absent (Program.zero_stored vs).
Proof.
  unfold Program.zero_stored. apply Forall_forall. intros v Hv.
  apply in_map_iff in Hv. destruct Hv as (v' & <- & _).
  right. right. destruct v'; eexists; reflexivity.
Qed.

Lemma zero_stored_element (vs : list Program.value) (i : Z) :
  Program.integer_of (Program.element (Program.zero_stored vs) i)
  = Program.integer_of (Program.element vs i).
Proof.
  unfold Program.element, Program.zero_stored.
  destruct (i <? 0); [reflexivity |].
  generalize (Z.to_nat i). clear i.
  induction vs as [| v vs IH]; intros [| n]; simpl; try reflexivity.
  - apply integer_of_zero_stored.
  - apply IH.
Qed.

Lemma zero_stored_sum (vs : list Program.value) :
  sumZ (map Program.integer_of (Program.zero_stored vs))
  = sumZ (map Program.integer_of vs).
Proof.
  unfold Program.zero_stored. rewrite map_map. f_equal.
  apply map_ext. intros v. apply integer_of_zero_stored.
Qed.

Lemma zero_stored_positive (vs : list Program.value) :
  List.length (filter (fun v => 1 <? Program.integer_of v) (Program.zero_stored vs))
  = List.length (filter (fun v => 1 <? Program.integer_of v) vs).
Proof.
  unfold Program.zero_stored.
  induction vs as [| v vs IH]; [reflexivity |].
  cbn [map filter]. rewrite integer_of_zero_stored.
  destruct (1 <? Program.integer_of v); cbn [List.length]; now rewrite IH.
Qed.

Lemma zero_stored_record (vs : list Program.value) (indices : list Z) :
  Program.record_of (Program.zero_stored vs) indices
  = Program.record_of vs indices.
Proof.
  unfold Program.record_of.
  assert (E : map (fun i => Program.integer_of
                              (Program.element (Program.zero_stored vs) (i - 1)))
                  indices
              = map (fun i => Program.integer_of (Program.element vs (i - 1)))
                    indices).
  { apply map_ext. intros i. apply zero_stored_element. }
  rewrite E. reflexivity.
Qed.

Lemma zero_stored_assigned (vs : list Program.value) (entries : FactorIndexMap) :
  forall fs,
  fold_left
    (fun fs (entry : string * list Z) =>
       Program.assign fs (fst entry)
         (Program.record_of (Program.zero_stored vs) (snd entry)))
    entries fs
  = fold_left
      (fun fs (entry : string * list Z) =>
         Program.assign fs (fst entry) (Program.record_of vs (snd entry)))
      entries fs.
Proof.
  induction entries as [| entry entries IH]; intros fs; cbn [fold_left];
    [reflexivity |].
  rewrite zero_stored_record. apply IH.
Qed.

(** The outcome for an array of integers and absent entries, spelled out. *)
Lemma outcome_of_integers (entries : FactorIndexMap) (vs : list Program.value) :
  Forall Program.integer_or_absent vs ->
  Program.outcome_of entries vs
  = Normal (fun now =>
              let total := sumZ (map Program.integer_of vs) in
              let fs := fold_left
                          (fun fs (entry : string * list Z) =>
                             Program.assign fs (fst entry)
                               (Program.record_of vs (snd entry)))
                          entries [] in
              {| totalScore := total;
                 totalAverage := num_div total 90;
                 positiveItems :=
                   List.length (filter (fun v => 1 <? Program.integer_of v) vs);
                 factors := fs;
                 riskLevel := determineRiskLevel total fs;
                 timestamp := now |}).
Proof.
  intros H. unfold Program.outcome_of.
  rewrite reduce_sum_integers, filter_positive_integers, factors_of_integers
    by exact H.
  rewrite Z.add_0_l. reflexivity.
Qed.

(** C7: on an array of 90 entries, each an integer or absent ([undefined]
    or [null]), [calculateResult] does not throw but returns a result, after
    one reading of the clock and with the table and the heap untouched; the
    result is the one that the array with 0 stored in place of each absent
    entry gives; and for answers of the scale 0..4 the total is the sum of
    the integers present, and every factor of the table (other than
    [__proto__], the names distinct) has in [factors] the record whose score
    is the sum of the integers present at its item ids, these records being
    all there is in [factors]. *)
Theorem absent_entries_degrade_to_zero (w : Program.World) (l : nat) :
  List.length (Program.heap w l) = 90%nat ->
  Forall Program.integer_or_absent (Program.heap w l) ->
  exists r,
    Program.calculateResult (Program.AArray l) w = (Normal r, Program.tick w)
    /\ (forall l',
          Program.heap w l' = Program.zero_stored (Program.heap w l) ->
          Program.calculateResult (Program.AArray l') w
          = (Normal r, Program.tick w))
    /\ (Forall Program.answer_or_absent (Program.heap w l) ->
        totalScore r = sumZ (map Program.integer_of (Program.heap w l))
        /\ (forall e, In e (factors r) ->
              exists entry,
                In entry (Program.table w)
                /\ e = (fst entry,
                        Program.record_of (Program.heap w l) (snd entry)))
        /\ (NoDup (map fst (Program.table w)) ->
            forall entry,
              In entry (Program.table w) -> fst entry <> "__proto__" ->
              In (fst entry, Program.record_of (Program.heap w l) (snd entry))
                 (factors r))).
Proof.
  intros _ Hint. eexists. split; [| split].
  - rewrite run_on_array, (outcome_of_integers _ _ Hint). reflexivity.
  - intros l' Hl'. rewrite run_on_array, Hl'.
    rewrite (outcome_of_integers _ _ (zero_stored_integers _)).
    cbv zeta. rewrite zero_stored_sum, zero_stored_positive, zero_stored_assigned.
    reflexivity.
  - intros _. cbv zeta. cbn [totalScore factors].
    split; [reflexivity |]. split.
    + intros e He. destruct (assigned_in _ _ _ _ He) as [[] | H]. exact H.
    + intros Hnd entry Hin Hname. now apply assigned_has.
Qed.

Lemma absent_entries_degrade_to_zero_witness :
  exists r,
    Program.calculateResult (Program.AArray 0) world_demo
    = (Normal r, Program.tick world_demo)
    /\ Program.calculateResult (Program.AArray 1) world_demo
       = (Normal r, Program.tick world_demo)
    /\ totalScore r = 90.
Proof.
  assert (Hlen : List.length (Program.heap world_demo 0) = 90%nat) by reflexivity.
  assert (Hans : Forall Program.answer_or_absent (Program.heap world_demo 0)).
  { simpl.
    repeat (constructor;
            [first [ now left
                   | right; right; eexists; split; [reflexivity | lia] ] |]).
    constructor. }
  assert (Hint : Forall Program.integer_or_absent (Program.heap world_demo 0)).
  { eapply Forall_impl; [| exact Hans].
    intros v [-> | [-> | (z & -> & _)]];
      [now left | right; now left | right; right; now exists z]. }
  destruct (absent_entries_degrade_to_zero world_demo 0 Hlen Hint)
    as (r & Hrun & Hzero & Hsum).
  exists r. split; [exact Hrun |]. split; [apply Hzero; reflexivity |].
  rewrite (proj1 (Hsum Hans)). reflexivity.
Defined.

(** The failure is a real outcome of the program: the array of the example
    world that holds the BigInt [1n] makes it throw. *)
Lemma bigint_entry_throws :
  exists e,
    Program.calculateResult (Program.AArray 2) world_demo = (Throw e, world_demo).
Proof.
  apply run_throws. right. exists 1. split; [lia | now left].
Qed.

(** C8: two calls in a row with the same argument, the second in the
    world the first leaves, end alike: both throw the same error, or both
    return, with the same total, total average, number of positive items,
    factors and risk level and with the times of two successive readings of
    the clock as timestamps; the calls change neither the factor table nor
    any array of the heap. *)
Theorem two_calls_agree (a : Program.argument) (w : Program.World) :
  let first := Program.calculateResult a w in
  let second := Program.calculateResult a (snd first) in
  Program.table (snd second) = Program.table w
  /\ Program.heap (snd second) = Program.heap w
  /\ Program.clock (snd second) = Program.clock w
  /\ match fst first, fst second with
     | Normal r1, Normal r2 =>
         totalScore r1 = totalScore r2
         /\ totalAverage r1 = totalAverage r2
         /\ positiveItems r1 = positiveItems r2
         /\ factors r1 = factors r2
         /\ riskLevel r1 = riskLevel r2
         /\ timestamp r1 = Program.clock w (Program.ticks w)
         /\ timestamp r2 = Program.clock w (S (Program.ticks w))
         /\ Program.ticks (snd second) = S (S (Program.ticks w))
     | Throw e1, Throw e2 =>
         e1 = e2 /\ Program.ticks (snd second) = Program.ticks w
     | _, _ => False
     end.
Proof.
  cbv zeta. destruct a as [| l].
  - rewrite !run_on_nullish. cbn [snd fst]. repeat split.
  - pose proof (run_on_array l w) as H1.
    pose proof (run_on_array l (Program.tick w)) as H2.
    cbn [Program.tick Program.table Program.heap Program.clock Program.ticks]
      in H2.
    destruct (Program.outcome_of (Program.table w) (Program.heap w l))
      as [result | e] eqn:E.
    + rewrite !H1. cbn [snd fst]. rewrite !H2. cbn [snd fst].
      unfold Program.outcome_of in E.
      destruct (Program.reduce_sum _ 0); [| discriminate].
      destruct (Program.filter_positive _); [| discriminate].
      destruct (Program.factors_of _ _ []); [| discriminate].
      injection E as <-. cbn. repeat split.
    + rewrite !H1. cbn [snd fst]. rewrite !H1. cbn [snd fst]. repeat split.
Qed.

(** ** The program and the pure function *)

Lemma integer_of_answer (v : Program.value) :
  orZero (Program.answer_of v) = Program.integer_of v.
Proof. destruct v; reflexivity. Qed.

Lemma element_answer (vs : list Program.value) (i : Z) :
  orZero (array_get (map Program.answer_of vs) i)
  = Program.integer_of (Program.element vs i).
Proof.
  unfold array_get, Program.element.
  destruct (i <? 0); [reflexivity |].
  generalize (Z.to_nat i). clear i.
  induction vs as [| v vs IH]; intros [| n]; simpl; try reflexivity.
  - apply integer_of_answer.
  - apply IH.
Qed.

Lemma record_of_answers (vs : list Program.value) (indices : list Z) :
  Program.record_of vs indices
  = factorResult (map Program.answer_of vs) indices.
Proof.
  unfold Program.record_of, factorResult.
  rewrite (fold_left_sum Z (fun x => x)), map_id, Z.add_0_l.
  assert (E : map (fun i => Program.integer_of (Program.element vs (i - 1))) indices
              = map (fun index => orZero (array_get (map Program.answer_of vs)
                                                    (index - 1))) indices).
  { apply map_ext. intros i. symmetry. apply element_answer. }
  rewrite E. reflexivity.
Qed.

Lemma assigned_is_built (vs : list Program.value) (entries : FactorIndexMap) :
  forallb (fun name => negb (String.eqb name "__proto__")) (map fst entries)
  = true ->
  forall fs,
  fold_left
    (fun fs (entry : string * list Z) =>
       Program.assign fs (fst entry) (Program.record_of vs (snd entry)))
    entries fs
  = fold_left
      (fun fs (entry : string * list Z) =>
         let '(factorName, indices) := entry in
         obj_set fs factorName
           (factorResult (map Program.answer_of vs) indices))
      entries fs.
Proof.
  induction entries as [| [name indices] entries IH]; intros H fs;
    cbn [fold_left fst snd]; [reflexivity |].
  cbn [map forallb fst] in H. apply andb_true_iff in H. destruct H as [Hn Hr].
  apply negb_true_iff in Hn. unfold Program.assign at 2. rewrite Hn.
  rewrite record_of_answers. now apply IH.
Qed.

(** On arrays of integers and absent entries, and with no factor named
    [__proto__], the program returns the result of the pure function on the
    answers the array holds. *)
Lemma program_is_pure_function (w : Program.World) (l : nat) :
  Forall Program.integer_or_absent (Program.heap w l) ->
  forallb (fun name => negb (String.eqb name "__proto__"))
          (map fst (Program.table w)) = true ->
  Program.calculateResult (Program.AArray l) w
  = (Normal (calculateResult (Program.table w)
               (Program.clock w (Program.ticks w))
               (map Program.answer_of (Program.heap w l))),
     Program.tick w).
Proof.
  intros Hint Hnames.
  rewrite run_on_array, (outcome_of_integers _ _ Hint). cbv zeta.
  unfold calculateResult, build_factors.
  rewrite total_is_sum, map_map.
  assert (Es : map (fun v => orZero (Program.answer_of v)) (Program.heap w l)
               = map Program.integer_of (Program.heap w l)).
  { apply map_ext. intros v. apply integer_of_answer. }
  assert (Ep : forall vs,
             List.length (filter gt1 (map Program.answer_of vs))
             = List.length (filter (fun v => 1 <? Program.integer_of v) vs)).
  { induction vs as [| v vs IH]; [reflexivity |].
    cbn [map filter]. destruct v; simpl; try exact IH.
    destruct (1 <? z); simpl; now rewrite IH. }
  rewrite Es, Ep, (assigned_is_built _ _ Hnames). reflexivity.
Qed.

(** X2: when the program returns, and the names of the table are distinct
    and plain (none is [__proto__], none starts with a digit as an array
    index does), [factors] lists exactly the factors of the table, in the
    order of the table, each with the number of its indices as item count. *)
Theorem factors_follow_table (w w' : Program.World) (l : nat) (r : ResultRecord) :
  Program.calculateResult (Program.AArray l) w = (Normal r, w') ->
  NoDup (map fst (Program.table w)) ->
  forallb plain_name (map fst (Program.table w)) = true ->
  map fst (factors r) = map fst (Program.table w)
  /\ map (fun e => itemCount (snd e)) (factors r)
     = map (fun e => Z.of_nat (List.length (snd e))) (Program.table w).
Proof.
  rewrite run_on_array. unfold Program.outcome_of.
  destruct (Program.reduce_sum _ 0); [| discriminate].
  destruct (Program.filter_positive _); [| discriminate].
  destruct (Program.factors_of _ _ []) as [fs |] eqn:E; [| discriminate].
  intros [= <- _] Hnd Hplain. cbn [factors].
  assert (H : forall entries acc fs',
             Program.factors_of (Program.heap w l) entries acc = Normal fs' ->
             NoDup (map fst acc ++ map fst entries) ->
             forallb plain_name (map fst entries) = true ->
             map fst fs' = (map fst acc ++ map fst entries)%list
             /\ map (fun e => itemCount (snd e)) fs'
                = (map (fun e => itemCount (snd e)) acc
                   ++ map (fun e : string * list Z =>
                             Z.of_nat (List.length (snd e))) entries)%list).
  { induction entries as [| [name indices] entries IH]; intros acc fs' Hf Hn Hp.
    - injection Hf as <-. rewrite !app_nil_r. now split.
    - cbn [Program.factors_of] in Hf. unfold Program.factor_of in Hf.
      destruct (Program.reduce_sum _ 0) as [factorSum |]; [| discriminate].
      cbn [map forallb fst] in Hp. apply andb_true_iff in Hp.
      destruct Hp as [Hname Hp]. unfold plain_name in Hname.
      apply andb_true_iff in Hname. destruct Hname as [Hproto _].
      apply negb_true_iff in Hproto.
      unfold Program.assign in Hf. rewrite Hproto in Hf.
      cbn [map fst] in Hn.
      rewrite obj_set_fresh in Hf.
      + destruct (IH _ _ Hf) as [Hk Hc].
        * rewrite map_app. cbn [map fst]. rewrite <- app_assoc. exact Hn.
        * exact Hp.
        * rewrite Hk, Hc, !map_app. cbn [map fst snd itemCount].
          rewrite <- !app_assoc. now split.
      + apply NoDup_remove_2 in Hn. intros Hin. apply Hn.
        apply in_or_app. now left. }
  exact (H _ _ _ E Hnd Hplain).
Qed.

Lemma factors_follow_table_witness :
  exists r,
    fst (Program.calculateResult (Program.AArray 0) world_demo) = Normal r
    /\ map fst (factors r) = map fst factorIndices_of_questions.
Proof.
  eexists. split; [vm_compute; reflexivity |].
  refine (proj1 (factors_follow_table world_demo (Program.tick world_demo) 0 _
                   _ _ _)).
  - vm_compute. reflexivity.
  - exact (proj2 (proj1 questions_table_ok)).
  - vm_compute. reflexivity.
Defined.
